(** * Rendering pipeline stages of ginga: a shallow embedding

    Sources embedded here:
    - [ginga/util/stages/render.py]: the stages of the standard
      pipeline renderer,
      [[createbg] => [overlays] => [iccprof] => [flipswap] => [rotate] => [output]],
      and the stages of the per-image mini-pipeline
      [[scale] => [reorder] => [cuts] => [rgbmap] => [merge]];
    - [ginga/util/stages/rgbmap.py]: the colour-mapping stage of the
      interactive pipeline, with its undoable parameter mutators.

    Python objects that are mutated in place (numpy buffers, the per-image
    cache) live in an explicit store; a stage receives and publishes
    handles into that store, so aliasing between what one stage publishes
    and what the next one receives is visible. *)

From Stdlib Require Import ZArith QArith Qround Qabs Lia Ascii String.
From stdpp Require Import gmap strings list.

Local Open Scope Z_scope.

(** ** Exceptions and results *)

(** [StageError] is the exception of [stages/base.py]; every other Python
    exception (AttributeError, KeyError, IndexError, ValueError, ...) is
    a [PyError] carrying its class name. *)
Inductive exn :=
  | StageError (msg : string)
  | PyError (kind : string).

Inductive outcome (A : Type) :=
  | Ok (a : A)
  | Raise (e : exn).
Arguments Ok {A} a.
Arguments Raise {A} e.

#[global] Instance outcome_ret : MRet outcome := @Ok.
#[global] Instance outcome_bind : MBind outcome :=
  λ A B k m, match m with Ok a => k a | Raise e => Raise e end.

Definition is_stage_error {A} (r : outcome A) : bool :=
  match r with Raise (StageError _) => true | _ => false end.

(** ** numpy buffers *)

Inductive dtype := uint8 | uint16 | uint64 | float32 | float64 | object_.

#[global] Instance dtype_eq_dec : EqDecision dtype.
Proof. solve_decision. Defined.

(** An array carries its dtype and its shape as numpy does; the elements
    are kept as rows of pixels of channel values.  A 2-D array has
    one-element pixels.  Only arrays of rank 2 or 3 have meaningful
    contents; other ranks are representable through [nd_shape] so that
    the rank checks of the stages can be stated. *)
Record ndarray (E : Type) := NDArray {
  nd_dtype : dtype;
  nd_shape : list nat;
  nd_px : list (list (list E))
}.
Arguments NDArray {E} _ _ _.
Arguments nd_dtype {E} _.
Arguments nd_shape {E} _.
Arguments nd_px {E} _.

Definition pixel_len (shape : list nat) : nat :=
  match shape with
  | [_; _; dp] => dp
  | _ => 1%nat
  end.

(** The contents agree with the declared shape. *)
Definition wf_array {E} (a : ndarray E) : Prop :=
  match nd_shape a with
  | ht :: wd :: _ =>
      length (nd_px a) = ht ∧
      Forall (λ row, length row = wd ∧
                     Forall (λ px, length px = pixel_len (nd_shape a)) row)
             (nd_px a)
  | _ => True
  end.

(** *** Python slicing [l[lo:hi]] *)

Definition slice_bound (n i : Z) : Z :=
  if i <? 0 then Z.max 0 (n + i) else Z.min i n.

Definition slice_len (n : nat) (lo hi : Z) : nat :=
  Z.to_nat (slice_bound (Z.of_nat n) hi - slice_bound (Z.of_nat n) lo).

Definition py_slice {A} (lo hi : Z) (l : list A) : list A :=
  let n := Z.of_nat (length l) in
  take (slice_len (length l) lo hi) (drop (Z.to_nat (slice_bound n lo)) l).

(** [data[y1:y2, x1:x2]] *)
Definition slice2 {E} (y1 y2 x1 x2 : Z) (a : ndarray E) : outcome (ndarray E) :=
  match nd_shape a with
  | ht :: wd :: rest =>
      Ok (NDArray (nd_dtype a)
                  (slice_len ht y1 y2 :: slice_len wd x1 x2 :: rest)
                  (py_slice x1 x2 <$> py_slice y1 y2 (nd_px a)))
  | _ => Raise (PyError "IndexError")
  end.

(** [ht, wd = data.shape[:2]] *)
Definition shape2 {E} (a : ndarray E) : outcome (nat * nat) :=
  match nd_shape a with
  | ht :: wd :: _ => Ok (ht, wd)
  | _ => Raise (PyError "ValueError")
  end.

(** [np.flipud(data)] *)
Definition flipud {E} (a : ndarray E) : ndarray E :=
  NDArray (nd_dtype a) (nd_shape a) (reverse (nd_px a)).

(** *** Channel orders *)

(** A channel order is a Python string such as ['RGBA']. *)
Definition str_index (c : ascii) (s : string) : option nat :=
  (λ p, p.1) <$> list_find (λ x, x = c) (list_ascii_of_string s).

Definition str_has (c : ascii) (s : string) : bool :=
  bool_decide (is_Some (str_index c s)).

Definition chr_A : ascii := "A"%char.

(** ** The store *)

Definition loc := nat.

(** The viewer's rendering state, [pipeline.get('state')]. *)
Record State := mkState {
  win_dim : Z * Z;
  order : string;
  ctr : Z * Z
}.

(** An image as a canvas object holds it: [get_data()], [get_order()]
    and whether it is an [RGBImage.RGBImage]. *)
Record Image := mkImage {
  img_data : loc;
  img_order : string;
  img_is_rgb : bool
}.

(** A colour mapper object ([cvs_img.rgbmap] or [viewer.get_rgbmap()]). *)
Record RGBMapper := mkRGBMapper {
  rgbmap_id : nat;
  hash_size : Z
}.

(** A canvas image object, with the attributes the stages read.
    [ci_pos] is [img.crdmap.to_data((img.x, img.y))]. *)
Record CanvasImage := mkCanvasImage {
  ci_id : nat;
  ci_image : option Image;
  ci_pos : Q * Q;
  ci_scale : Q * Q;
  ci_interpolation : option string;
  ci_flipy : bool;
  ci_alpha : Q;
  ci_rgbmap : option RGBMapper;
  ci_autocuts : option nat;
  ci_cuts : option (Q * Q)
}.

(** Values the pipeline context and the published results hold. *)
Inductive pyval :=
  | VNone
  | VArr (l : loc)
  | VPair (x y : Z)
  | VQPair (x y : Q)
  | VNum (q : Q)
  | VStr (s : string)
  | VState (s : State)
  | VImg (c : CanvasImage).

(** [v is None] *)
Definition is_None (v : pyval) : bool :=
  match v with VNone => true | _ => false end.

Inductive StageKind :=
  | KCreateBg | KOverlays | KICCProf | KFlipSwap | KRotate | KOutput
  | KScale | KReorder | KMerge | KCuts | KRGBMap.

#[global] Instance StageKind_eq_dec : EqDecision StageKind.
Proof. solve_decision. Defined.

Record Stage := mkStage {
  kind : StageKind;
  _bypass : bool
}.

(** Modelled from the spec: [ginga/util/pipeline.py] (class Pipeline) is
    not among the sources.  Per the spec a pipeline is an ordered list of
    stages with a shared context store ([get]/[set]), the outputs the
    stages published ([send], [get_data]) and a [stop()] flag that aborts
    the remainder of the current run.  A stage is identified by its
    position in the list. *)
Record Pipeline := mkPipeline {
  p_stages : list Stage;
  p_ctx : gmap string pyval;
  p_result : gmap nat pyval;
  p_stop : bool
}.

(** The per-viewer cache a canvas image owns ([cvs_img.get_cache(viewer)]). *)
Record Cache := mkCache {
  minipipe : option Pipeline;
  visible : bool;
  drawn : bool
}.

(** The mutable objects: numpy buffers by handle and the caches of the
    canvas objects by object identity. *)
Record World (E : Type) := mkWorld {
  heap : gmap loc (ndarray E);
  caches : gmap nat Cache
}.
Arguments mkWorld {E} _ _.
Arguments heap {E} _.
Arguments caches {E} _.

(** A new Python object never aliases a live one.  A numpy view (a
    slice, a flip, one band) is a new array object as well: it is kept as
    a buffer of its own holding the viewed contents, so a write through
    a view is not seen in the array it was taken from. *)
Definition alloc {E} (w : World E) (a : ndarray E) : loc * World E :=
  let l := fresh (dom (heap w)) in
  (l, mkWorld (<[l := a]> (heap w)) (caches w)).

Definition store {E} (w : World E) (l : loc) (a : ndarray E) : World E :=
  mkWorld (<[l := a]> (heap w)) (caches w).

(** Reading the array behind a published value; [None] has no [shape]. *)
Definition as_array {E} (w : World E) (v : pyval) : outcome (ndarray E) :=
  match v with
  | VArr l => match heap w !! l with
              | Some a => Ok a
              | None => Raise (PyError "ReferenceError")
              end
  | _ => Raise (PyError "AttributeError")
  end.

(** *** Pipeline engine *)

Definition pipe_get (p : Pipeline) (key : string) : outcome pyval :=
  match p_ctx p !! key with
  | Some v => Ok v
  | None => Raise (PyError "KeyError")
  end.

Definition pipe_set (p : Pipeline) (key : string) (v : pyval) : Pipeline :=
  mkPipeline (p_stages p) (<[key := v]> (p_ctx p)) (p_result p) (p_stop p).

(** [pipeline.send(res_np=v)] from the stage at position [self]. *)
Definition send (p : Pipeline) (self : nat) (v : pyval) : Pipeline :=
  mkPipeline (p_stages p) (p_ctx p) (<[self := v]> (p_result p)) (p_stop p).

(** [pipeline.get_data(stage)]: what the stage last published, [None]
    when it has published nothing. *)
Definition get_data (p : Pipeline) (stage : option nat) : outcome pyval :=
  match stage with
  | Some s => Ok (default VNone (p_result p !! s))
  | None => Raise (PyError "KeyError")
  end.

Definition stop (p : Pipeline) : Pipeline :=
  mkPipeline (p_stages p) (p_ctx p) (p_result p) true.

Definition get_state (p : Pipeline) : outcome State :=
  v ← pipe_get p "state";
  match v with
  | VState s => Ok s
  | _ => Raise (PyError "AttributeError")
  end.

(** [a, b = pipeline.get(key)] *)
Definition get_pair (p : Pipeline) (key : string) : outcome (Z * Z) :=
  v ← pipe_get p key;
  match v with
  | VPair x y => Ok (x, y)
  | _ => Raise (PyError "TypeError")
  end.

Definition get_qpair (p : Pipeline) (key : string) : outcome (Q * Q) :=
  v ← pipe_get p key;
  match v with
  | VQPair x y => Ok (x, y)
  | VPair x y => Ok (inject_Z x, inject_Z y)
  | _ => Raise (PyError "TypeError")
  end.

Definition get_cvs_img (p : Pipeline) : outcome CanvasImage :=
  v ← pipe_get p "cvs_img";
  match v with
  | VImg c => Ok c
  | _ => Raise (PyError "AttributeError")
  end.

(** Modelled from the spec: [Stage.verify_2d] of [stages/base.py] is not
    among the sources.  Per the spec it checks that the input has at
    least two dimensions, and [None] is a valid "nothing to do" signal. *)
Definition verify_2d {E} (w : World E) (data : pyval) : outcome unit :=
  match data with
  | VArr l =>
      match heap w !! l with
      | Some a =>
          if bool_decide (length (nd_shape a) < 2)%nat
          then Raise (StageError "Expecting a 2D or greater array in final stage")
          else Ok ()
      | None => Raise (PyError "ReferenceError")
      end
  | VNone => Ok ()
  | _ => Raise (PyError "AttributeError")
  end.

(** ** Collaborators outside the sources *)

(** What numpy knows about the element type of the buffers. *)
Class NumpyElem (E : Type) := {
  (** [np.iinfo(dtype).max]; numpy raises for a float dtype *)
  iinfo_max : dtype → option E;
  (** [int(np.iinfo(dtype).max * c)] for a colour component [c] *)
  scale_color : dtype → Q → option E;
  (** the [0] of [np.zeros] *)
  elem_zero : E;
  (** the element conversion of [arr.astype(dtype)] *)
  elem_cast : dtype → E → E
}.

(** Geometry helpers of [ginga.trcalc] whose code is not among the
    sources.  Each one is taken as given, with the type its call site
    fixes: the ones that return a new array are functions of their
    inputs, the ones that write into a buffer passed to them
    ([rotate_clip] with [out=], [overlay_image]) give the new contents of
    that buffer. *)
Class Trcalc (E : Type) := {
  transform : ndarray E → bool → bool → bool → ndarray E;
  rotate_clip : ndarray E → Q → ndarray E;
  calc_image_merge_clip :
    Q * Q → Q * Q → Q * Q → Q * Q → Q * Q → (Q * Q) * (Q * Q) * (Q * Q);
  interpolation_methods : list string;
  get_scaled_cutout_basic :
    ndarray E → Q → Q → Q → Q → Q → Q → string → ndarray E;
  array_convert : ndarray E → dtype → ndarray E;
  overlay_image :
    ndarray E → Z * Z → ndarray E → string → string → Q → ndarray E
}.

(** Colour helpers: [autocuts.cut_levels], [rgbmap.get_rgb_array] and
    [rgb_cms.convert_profile_fromto] ([None] when the conversion raises). *)
Class ColorLibs (E : Type) := {
  cut_levels : nat → ndarray E → Q → Q → Z → Z → ndarray E;
  get_rgb_array : RGBMapper → ndarray E → string → ndarray E;
  convert_profile_fromto :
    ndarray E → string → string → string → option string → string → bool →
    option (ndarray E)
}.

(** The objects of a canvas: an image-bearing object (a plain [Image], or
    a value-mapped [NormImage] when [norm] is set), a compound object
    holding further objects, or any other drawable. *)
#[warnings="-register-all"]
Inductive CanvasObj :=
  | ImageObj (cvs_img : CanvasImage) (norm : bool)
  | CompoundObj (objects : list CanvasObj)
  | DrawObj.

(** The viewer, as far as the stages query it. *)
Record Viewer := mkViewer {
  get_private_canvas : CanvasObj;
  get_bg : Q * Q * Q;
  get_rotation : Q;
  _invert_y : bool;
  get_transforms : bool * bool * bool;
  renderer_rgb_order : string;
  get_draw_rect : list (Q * Q);
  get_scale_xy : Q * Q;
  get_pan : Q * Q;
  data_off : Q;
  settings_interpolation : option string;
  get_rgbmap : RGBMapper;
  viewer_autocuts : nat;
  viewer_cuts : Q * Q;
  have_cms : bool;
  working_profile : option string;
  icc_output_profile : option string;
  icc_output_intent : option string;
  icc_proof_profile : option string;
  icc_proof_intent : option string;
  icc_black_point_compensation : option bool
}.

Section Stages.
Context {E : Type} `{!NumpyElem E, !Trcalc E, !ColorLibs E}.

Local Abbreviation array := (ndarray E).
Local Abbreviation world := (World E).

(** *** trcalc helpers modelled from the spec *)

(** Modelled from the spec: [trcalc.make_filled_array] is not among the
    sources.  Per the spec the canvas is filled "with the configured
    background color in the declared channel order": every pixel lists,
    for each tag of the order, the colour's component for that tag. *)
Definition bg_component (dt : dtype) (r g b a : Q) (c : ascii) : option E :=
  if decide (c = "R"%char) then scale_color dt r
  else if decide (c = "G"%char) then scale_color dt g
  else if decide (c = "B"%char) then scale_color dt b
  else if decide (c = "A"%char) then scale_color dt a
  else None.

Definition make_filled_array (ht wd depth : nat) (dt : dtype) (ord : string)
    (r g b a : Q) : outcome array :=
  match mapM (bg_component dt r g b a) (list_ascii_of_string ord) with
  | Some px =>
      if bool_decide (length px = depth)
      then Ok (NDArray dt [ht; wd; depth] (replicate ht (replicate wd px)))
      else Raise (PyError "ValueError")
  | None => Raise (PyError "KeyError")
  end.

(** Modelled from the spec: [trcalc.reorder_image] is not among the
    sources.  Per the spec the channel order is a tag sequence carried
    beside the buffer and its length equals the last-axis extent at every
    stage boundary: the result has one band per tag of [dst_order], the
    band of the same tag in the source; an alpha band the source lacks is
    synthesized opaque. *)
Definition reorder_pixel (dst_order src_order : string) (opaque : option E)
    (px : list E) : option (list E) :=
  mapM (λ c, match str_index c src_order with
             | Some i => px !! i
             | None => if decide (c = chr_A) then opaque else None
             end)
       (list_ascii_of_string dst_order).

Definition reorder_image (dst_order : string) (a : array) (src_order : string)
    : outcome array :=
  match nd_shape a with
  | [ht; wd; dp] =>
      if bool_decide (dp = String.length src_order) then
        if bool_decide (dst_order = src_order) then Ok a
        else
          match mapM (mapM (reorder_pixel dst_order src_order
                                          (iinfo_max (nd_dtype a))))
                     (nd_px a) with
          | Some px =>
              Ok (NDArray (nd_dtype a) [ht; wd; String.length dst_order] px)
          | None => Raise (PyError "ValueError")
          end
      else Raise (PyError "ValueError")
  | _ => Raise (PyError "IndexError")
  end.

(** *** CreateBg *)

Definition CreateBg_dtype : dtype := uint8.

(** [int(np.sqrt(win_wd**2 + win_ht**2) + slop)]: [int] truncates, and
    the float square root of an integer below 2^52 truncates to the
    integer square root. *)
Definition CreateBg_side (win_wd win_ht : Z) : Z :=
  let slop := 20 in
  Z.sqrt (win_wd ^ 2 + win_ht ^ 2) + slop.

Definition CreateBg_run (v : Viewer) (bypass : bool) (self : nat)
    (prev_stage : option nat) (w : world) (p : Pipeline)
    : outcome (world * Pipeline) :=
  if bool_decide (prev_stage ≠ None)
  then Raise (StageError "'viewer-createbg' in wrong location")
  else if bypass then Ok (w, send p self VNone)
  else
    state ← get_state p;
    let '(win_wd, win_ht) := win_dim state in
    let side := CreateBg_side win_wd win_ht in
    let wd := side in
    let ht := side in
    let ncx := wd `div` 2 in
    let ncy := ht `div` 2 in
    let depth := String.length (order state) in
    let '(r, g, b) := get_bg v in
    res_np ← make_filled_array (Z.to_nat ht) (Z.to_nat wd) depth CreateBg_dtype
                               (order state) r g b 1%Q;
    let '(l, w) := alloc w res_np in
    let p := pipe_set (pipe_set p "org_dim" (VPair wd ht))
                      "org_off" (VPair ncx ncy) in
    Ok (w, send p self (VArr l)).

(** *** FlipSwap *)

Definition FlipSwap_run (v : Viewer) (bypass : bool) (self : nat)
    (prev_stage : option nat) (w : world) (p : Pipeline)
    : outcome (world * Pipeline) :=
  data ← get_data p prev_stage;
  _ ← verify_2d w data;
  '(xoff, yoff) ← get_pair p "org_off";
  '(w, data, xoff, yoff) ←
    (if negb bypass then
       let '(flip_x, flip_y, swap_xy) := get_transforms v in
       arr ← as_array w data;
       '(ht, wd) ← shape2 arr;
       let '(l, w) := alloc w (transform arr flip_x flip_y swap_xy) in
       let yoff := if flip_y then Z.of_nat ht - yoff else yoff in
       let xoff := if flip_x then Z.of_nat wd - xoff else xoff in
       let '(xoff, yoff) := if swap_xy then (yoff, xoff) else (xoff, yoff) in
       Ok (w, VArr l, xoff, yoff)
     else Ok (w, data, xoff, yoff));
  let p := pipe_set p "off" (VPair xoff yoff) in
  Ok (w, send p self data).

(** *** Rotate *)

(** [np.isclose(rot_deg, 0.0)]: [|rot_deg - 0| <= atol + rtol * |0|] with
    numpy's default [atol = 1e-8]. *)
Definition isclose_zero (rot_deg : Q) : bool :=
  Qle_bool (Qabs rot_deg) (1 # 100000000).

Definition Rotate_run (v : Viewer) (bypass : bool) (self : nat)
    (prev_stage : option nat) (w : world) (p : Pipeline)
    : outcome (world * Pipeline) :=
  data ← get_data p prev_stage;
  _ ← verify_2d w data;
  '(w, data) ←
    (if negb bypass then
       let rot_deg := get_rotation v in
       '(w, data) ←
         (if negb (isclose_zero rot_deg) then
            arr ← as_array w data;
            (* data = np.copy(data) *)
            let '(l, w) := alloc w arr in
            (* rotate_clip(data, -rot_deg, out=data) writes into the copy *)
            let w := store w l (rotate_clip arr (Qopp rot_deg)) in
            Ok (w, VArr l)
          else Ok (w, data));
       if _invert_y v then
         arr ← as_array w data;
         let '(l, w) := alloc w (flipud arr) in
         Ok (w, VArr l)
       else Ok (w, data)
     else Ok (w, data));
  arr ← as_array w data;
  '(ht, wd) ← shape2 arr;
  '(xoff, yoff) ← get_pair p "off";
  state ← get_state p;
  let '(ctr_x, ctr_y) := ctr state in
  let dst_x := ctr_x - xoff in
  let dst_y := ctr_y - (Z.of_nat ht - yoff) in
  let p := pipe_set p "dst" (VPair dst_x dst_y) in
  Ok (w, send p self data).

(** *** Output *)

Definition Output_run (v : Viewer) (bypass : bool) (self : nat)
    (prev_stage : option nat) (w : world) (p : Pipeline)
    : outcome (world * Pipeline) :=
  data ← get_data p prev_stage;
  _ ← verify_2d w data;
  state ← get_state p;
  let out_order := order state in
  '(w, data, out_order) ←
    (if negb bypass then
       arr ← as_array w data;
       '(ht, wd) ← shape2 arr;
       state ← get_state p;
       let '(win_wd, win_ht) := win_dim state in
       if (Z.of_nat wd <? win_wd) || (Z.of_nat ht <? win_ht)
       then Raise (StageError "pipeline output doesn't cover window")
       else
         (* now cut out the size that we need *)
         '(dst_x, dst_y) ← get_pair p "dst";
         if (0 <? dst_x) || (0 <? dst_y)
         then Raise (StageError "pipeline calculated dst is not correct")
         else
           let x1 := Z.abs dst_x in
           let y1 := Z.abs dst_y in
           cut ← slice2 y1 (y1 + win_ht) x1 (x1 + win_wd) arr;
           (* reorder image for renderer's desired format *)
           let dst_order := renderer_rgb_order v in
           out ← reorder_image dst_order cut (order state);
           let '(l, w) := alloc w out in
           Ok (w, VArr l, dst_order)
     else Ok (w, data, out_order));
  let p := pipe_set p "out_order" (VStr out_order) in
  Ok (w, send p self data).

(** *** ICCProf *)

Definition opt_str (o : option string) : pyval :=
  match o with Some s => VStr s | None => VNone end.

Definition ICCProf_run (v : Viewer) (bypass : bool) (self : nat)
    (prev_stage : option nat) (w : world) (p : Pipeline)
    : outcome (world * Pipeline) :=
  data ← get_data p prev_stage;
  _ ← verify_2d w data;
  match working_profile v, icc_output_profile v with
  | Some working, Some output =>
      if bypass || negb (have_cms v) then
        Ok (w, send (pipe_set p "icc_output_profile" (VStr working)) self data)
      else
        (* get rest of necessary conversion parameters *)
        let to_intent := default "perceptual" (icc_output_intent v) in
        let proofprof_name := icc_proof_profile v in
        let proof_intent := default "perceptual" (icc_proof_intent v) in
        let use_black_pt := default false (icc_black_point_compensation v) in
        let '(w, data) :=
          (* try: ... except Exception: the output is left unprofiled *)
          match as_array w data with
          | Ok arr =>
              match convert_profile_fromto arr working output to_intent
                      proofprof_name proof_intent use_black_pt with
              | Some out => let '(l, w) := alloc w out in (w, VArr l)
              | None => (w, data)
              end
          | Raise _ => (w, data)
          end in
        Ok (w, send (pipe_set p "icc_output_profile" (VStr output)) self data)
  | working, _ =>
      Ok (w, send (pipe_set p "icc_output_profile" (opt_str working)) self data)
  end.

(** ** The stages of the per-image mini-pipeline *)

(** [cvs_img.get_cache(viewer)].  Modelled from the spec: the cache
    class is not among the sources; a cache that does not exist yet is
    created with no mini-pipeline and nothing drawn. *)
Definition new_cache : Cache := mkCache None true false.

Definition get_cache (w : world) (cvs_img : CanvasImage) : Cache :=
  default new_cache (caches w !! ci_id cvs_img).

Definition put_cache (w : world) (cvs_img : CanvasImage) (c : Cache) : world :=
  mkWorld (heap w) (<[ci_id cvs_img := c]> (caches w)).

Definition set_visible (w : world) (cvs_img : CanvasImage) (b : bool) : world :=
  let c := get_cache w cvs_img in
  put_cache w cvs_img (mkCache (minipipe c) b (drawn c)).

Definition set_drawn (w : world) (cvs_img : CanvasImage) (b : bool) : world :=
  let c := get_cache w cvs_img in
  put_cache w cvs_img (mkCache (minipipe c) (visible c) b).

(** Python's [int(x)] truncates towards zero. *)
Definition py_int (q : Q) : Z :=
  if Qle_bool 0 q then Qfloor q else Qceiling q.

(** [np.round]: to the nearest integer, halves to the even one. *)
Definition np_round (q : Q) : Z :=
  let f := Qfloor q in
  let d := (q - inject_Z f)%Q in
  if Qle_bool d (1 # 2) then
    if Qle_bool (1 # 2) d then (if Z.even f then f else f + 1) else f
  else f + 1.

Fixpoint q_min (l : list Q) : option Q :=
  match l with
  | [] => None
  | x :: l' =>
      match q_min l' with
      | Some m => Some (if Qle_bool x m then x else m)
      | None => Some x
      end
  end.

Fixpoint q_max (l : list Q) : option Q :=
  match l with
  | [] => None
  | x :: l' =>
      match q_max l' with
      | Some m => Some (if Qle_bool m x then x else m)
      | None => Some x
      end
  end.

Definition np_min (l : list Q) : outcome Q :=
  match q_min l with Some m => Ok m | None => Raise (PyError "ValueError") end.

Definition np_max (l : list Q) : outcome Q :=
  match q_max l with Some m => Ok m | None => Raise (PyError "ValueError") end.

(** *** Scale *)

(** The clip rectangle Scale computes for the image data [data_np]: the
    viewer's draw rectangle, padded, intersected with the data rectangle
    of the image by [trcalc.calc_image_merge_clip]. *)
Definition Scale_clip (v : Viewer) (img : CanvasImage) (data_np : array)
    : outcome ((Q * Q) * (Q * Q) * (Q * Q)) :=
  (* get extent of our data coverage in the window *)
  let pad := 1%Q in
  let pts := get_draw_rect v in
  x_lo ← np_min (fst <$> pts);
  let xmin := (inject_Z (py_int x_lo) - pad)%Q in
  y_lo ← np_min (snd <$> pts);
  let ymin := (inject_Z (py_int y_lo) - pad)%Q in
  x_hi ← np_max (fst <$> pts);
  let xmax := (inject_Z (Qceiling x_hi) + pad)%Q in
  y_hi ← np_max (snd <$> pts);
  let ymax := (inject_Z (Qceiling y_hi) + pad)%Q in
  (* get destination location in data_coords *)
  let '(dst_x, dst_y) := ci_pos img in
  '(ht, wd) ← shape2 data_np;
  let '(a1, b1, a2, b2) :=
    (0%Q, 0%Q, inject_Z (Z.of_nat wd - 1), inject_Z (Z.of_nat ht - 1)) in
  (* calculate the cutout that we can make and scale to merge onto the
     final image *)
  Ok (calc_image_merge_clip (xmin, ymin) (xmax, ymax) (dst_x, dst_y)
                            (a1, b1) (a2, b2)).

Definition Scale_run (v : Viewer) (bypass : bool) (self : nat)
    (prev_stage : option nat) (w : world) (p : Pipeline)
    : outcome (world * Pipeline) :=
  cvs_img ← get_cvs_img p;
  match ci_image cvs_img with
  | None => Ok (w, send p self VNone)
  | Some image =>
      let data_np := VArr (img_data image) in
      _ ← verify_2d w data_np;
      let img := cvs_img in
      arr ← as_array w data_np;
      '((dst_x, dst_y), (a1, b1), (a2, b2)) ← Scale_clip v img arr;
      (* is image completely off the screen? *)
      if Qle_bool (a2 - a1) 0 || Qle_bool (b2 - b1) 0 then
        (* no overlay needed *)
        let p := send p self VNone in
        let w := set_visible w cvs_img false in
        Ok (w, stop p)
      else
        let w := set_visible w cvs_img true in
        (* cutout and scale the piece appropriately by the viewer scale *)
        let '(scale_x, scale_y) := get_scale_xy v in
        let _scale_x := (scale_x * (ci_scale img).1)%Q in
        let _scale_y := (scale_y * (ci_scale img).2)%Q in
        let interp :=
          match ci_interpolation img with
          | Some i => i
          | None => default "basic" (settings_interpolation v)
          end in
        let interp :=
          if bool_decide (interp ∈ interpolation_methods) then interp
          else "basic" in
        let data := get_scaled_cutout_basic arr a1 b1 a2 b2
                                            _scale_x _scale_y interp in
        let data := if ci_flipy img then flipud data else data in
        let '(l, w) := alloc w data in
        (* calculate our offset from the pan position *)
        let '(pan_x, pan_y) := get_pan v in
        let pan_off := data_off v in
        let '(pan_x, pan_y) := ((pan_x + pan_off)%Q, (pan_y + pan_off)%Q) in
        let '(off_x, off_y) := ((dst_x - pan_x)%Q, (dst_y - pan_y)%Q) in
        (* scale offset *)
        let off_x := (off_x * scale_x)%Q in
        let off_y := (off_y * scale_y)%Q in
        let p := pipe_set p "offset" (VQPair off_x off_y) in
        Ok (w, send p self (VArr l))
  end.

(** *** Reorder *)

(** [data[..., idx]] of a 3-D array: the band [idx] as a 2-D array. *)
Definition take_band (idx : nat) (a : array) : outcome array :=
  match nd_shape a with
  | [ht; wd; dp] =>
      if bool_decide (idx < dp)%nat then
        match mapM (mapM (λ px : list E, (λ x, [x]) <$> px !! idx)) (nd_px a) with
        | Some px => Ok (NDArray (nd_dtype a) [ht; wd] px)
        | None => Raise (PyError "IndexError")
        end
      else Raise (PyError "IndexError")
  | _ => Raise (PyError "IndexError")
  end.

(** [data[..., 0:idx]] of a 3-D array. *)
Definition bands_upto (idx : nat) (a : array) : outcome array :=
  match nd_shape a with
  | [ht; wd; dp] =>
      Ok (NDArray (nd_dtype a) [ht; wd; Nat.min idx dp]
                  ((λ row : list (list E), take idx <$> row) <$> nd_px a))
  | _ => Raise (PyError "ValueError")
  end.

Definition Reorder_run (v : Viewer) (bypass : bool) (self : nat)
    (prev_stage : option nat) (w : world) (p : Pipeline)
    : outcome (world * Pipeline) :=
  data ← get_data p prev_stage;
  if is_None data then Ok (w, send p self VNone)
  else
    _ ← verify_2d w data;
    cvs_img ← get_cvs_img p;
    state ← get_state p;
    match ci_image cvs_img with
    | None => Raise (PyError "AttributeError")
    | Some image =>
        let image_order := img_order image in
        '(w, data) ←
          (if img_is_rgb image && bool_decide (image_order ≠ order state) then
             (* reorder image channels for pipeline *)
             arr ← as_array w data;
             out ← reorder_image (order state) arr image_order;
             let '(l, w) := alloc w out in
             Ok (w, VArr l)
           else Ok (w, data));
        (* strip off alpha layer, if any *)
        '(w, data, alpha) ←
          match str_index chr_A image_order with
          | None => Ok (w, data, VNone)
          | Some a_idx =>
              arr ← as_array w data;
              alpha ← take_band a_idx arr;
              let '(la, w) := alloc w alpha in
              data ← bands_upto a_idx arr;
              let data :=
                match nd_shape data with
                | [ht; wd; 1%nat] => NDArray (nd_dtype data) [ht; wd] (nd_px data)
                | _ => data
                end in
              let '(ld, w) := alloc w data in
              Ok (w, VArr ld, VArr la)
          end;
        (* currently added back on in Merge stage *)
        let p := pipe_set p "alpha" alpha in
        Ok (w, send p self data)
    end.

(** *** Cuts *)

(** [np.issubdtype(dt, np.uint)] *)
Definition is_uint (dt : dtype) : bool := bool_decide (dt = uint64).

(** [arr.astype(dt)] *)
Definition astype (dt : dtype) (a : array) : array :=
  NDArray dt (nd_shape a)
          ((λ row : list (list E), (λ px : list E, elem_cast dt <$> px) <$> row)
             <$> nd_px a).

Definition Cuts_run (v : Viewer) (bypass : bool) (self : nat)
    (prev_stage : option nat) (w : world) (p : Pipeline)
    : outcome (world * Pipeline) :=
  data ← get_data p prev_stage;
  if is_None data then Ok (w, send p self VNone)
  else
    _ ← verify_2d w data;
    cvs_img ← get_cvs_img p;
    let rgbmap := default (get_rgbmap v) (ci_rgbmap cvs_img) in
    let vmin := 0 in
    let vmax := hash_size rgbmap - 1 in
    let autocuts := default (viewer_autocuts v) (ci_autocuts cvs_img) in
    (* Apply cut levels *)
    let '(loval, hival) := default (viewer_cuts v) (ci_cuts cvs_img) in
    arr ← as_array w data;
    let res_np := cut_levels autocuts arr loval hival vmin vmax in
    let res_np := if negb (is_uint (nd_dtype res_np))
                  then astype uint64 res_np else res_np in
    let '(l, w) := alloc w res_np in
    Ok (w, send p self (VArr l)).

(** *** RGBMap (of the mini-pipeline) *)

Definition RGBMap_run (v : Viewer) (bypass : bool) (self : nat)
    (prev_stage : option nat) (w : world) (p : Pipeline)
    : outcome (world * Pipeline) :=
  arr_in ← get_data p prev_stage;
  if is_None arr_in then Ok (w, send p self VNone)
  else
    _ ← verify_2d w arr_in;
    cvs_img ← get_cvs_img p;
    state ← get_state p;
    let rgbmap := default (get_rgbmap v) (ci_rgbmap cvs_img) in
    arr ← as_array w arr_in;
    (* See NOTE in Cuts *)
    let arr := if negb (is_uint (nd_dtype arr)) then astype uint64 arr else arr in
    (* get RGB mapped array *)
    let arr_out := get_rgb_array rgbmap arr (order state) in
    let '(l, w) := alloc w arr_out in
    Ok (w, send p self (VArr l)).

(** *** Merge *)

(** [np.insert(rgbarr, idx, np.zeros(rgbarr.shape[:2]), axis=2)]: a new
    array with a zero band before band [idx]. *)
Definition insert_zero_band (idx : nat) (a : array) : outcome array :=
  match nd_shape a with
  | [ht; wd; dp] =>
      if bool_decide (idx ≤ dp)%nat then
        Ok (NDArray (nd_dtype a) [ht; wd; S dp]
              ((λ row : list (list E),
                  (λ px : list E, take idx px ++ elem_zero :: drop idx px) <$> row)
                 <$> nd_px a))
      else Raise (PyError "IndexError")
  | _ => Raise (PyError "IndexError")
  end.

(** numpy broadcasting of one axis of the assigned value: an axis of
    extent 1 is repeated. *)
Definition broadcast {A} (n : nat) (l : list A) : option (list A) :=
  if bool_decide (length l = n) then Some l
  else match l with
       | [x] => Some (replicate n x)
       | _ => None
       end.

(** The contents of [rgbarr] after [rgbarr[..., idx] = alpha]. *)
Definition assign_band (idx : nat) (alpha rgbarr : array) : outcome array :=
  match nd_shape rgbarr, nd_shape alpha with
  | [ht; wd; dp], [_; _] =>
      if bool_decide (idx < dp)%nat then
        match
          rows ← broadcast ht (nd_px alpha);
          mapM (λ '(arow, row),
                  arow ← broadcast wd arow;
                  mapM (λ '(apx, px),
                          (λ x : E, <[idx := x]> px) <$> (apx : list E) !! 0%nat)
                       (zip arow row))
               (zip rows (nd_px rgbarr))
        with
        | Some px => Ok (NDArray (nd_dtype rgbarr) (nd_shape rgbarr) px)
        | None => Raise (PyError "ValueError")
        end
      else Raise (PyError "IndexError")
  | _, _ => Raise (PyError "ValueError")
  end.

(** [ht, wd, dp = dstarr.shape] *)
Definition shape3 (a : array) : outcome (nat * nat * nat) :=
  match nd_shape a with
  | [ht; wd; dp] => Ok (ht, wd, dp)
  | _ => Raise (PyError "ValueError")
  end.

Definition get_arr_handle (p : Pipeline) (key : string) : outcome loc :=
  x ← pipe_get p key;
  match x with
  | VArr l => Ok l
  | _ => Raise (PyError "AttributeError")
  end.

Definition Merge_run (v : Viewer) (bypass : bool) (self : nat)
    (prev_stage : option nat) (w : world) (p : Pipeline)
    : outcome (world * Pipeline) :=
  rgbarr ← get_data p prev_stage;
  if is_None rgbarr then
    (* nothing to merge *)
    Ok (w, p)
  else
    _ ← verify_2d w rgbarr;
    rgb ← as_array w rgbarr;
    match nd_shape rgb with
    | [_; _; depth] =>
      if bool_decide (depth < 3)%nat
      then Raise (StageError "Not an RGB array")
      else
        cvs_img ← get_cvs_img p;
        '(off_x, off_y) ← get_qpair p "offset";
        dstarr ← get_arr_handle p "dstarr";
        state ← get_state p;
        (* dst position in the pre-transformed array should be calculated
           from the center of the array plus offsets *)
        dst ← as_array w (VArr dstarr);
        '(ht, wd, dp) ← shape3 dst;
        let cvs_x := np_round (inject_Z (Z.of_nat wd) * (1 # 2) + off_x)%Q in
        let cvs_y := np_round (inject_Z (Z.of_nat ht) * (1 # 2) + off_y)%Q in
        let cvs_pos := (cvs_x, cvs_y) in
        let dst_order := order state in
        let image_order := order state in
        (* merge back in alpha layer if one was stripped off earlier in
           the pipeline *)
        alpha ← pipe_get p "alpha";
        '(w, rgbarr) ←
          match str_index chr_A (order state) with
          | Some a_idx =>
              if negb (is_None alpha) then
                '(w, rgbarr) ←
                  (if bool_decide (depth ≠ 4)%nat then
                     (* insert an empty alpha layer to accomodate *)
                     ins ← insert_zero_band a_idx rgb;
                     let '(l, w) := alloc w ins in
                     Ok (w, VArr l)
                   else Ok (w, rgbarr));
                (* normalize alpha array to the final output range *)
                rgb ← as_array w rgbarr;
                al ← as_array w alpha;
                let al := array_convert al (nd_dtype rgb) in
                new ← assign_band a_idx al rgb;
                match rgbarr with
                | VArr l => Ok (store w l new, rgbarr)
                | _ => Raise (PyError "TypeError")
                end
              else Ok (w, rgbarr)
          | None => Ok (w, rgbarr)
          end;
        (* composite the image into the destination array at the
           calculated position *)
        rgb ← as_array w rgbarr;
        dst ← as_array w (VArr dstarr);
        let w := store w dstarr
                   (overlay_image dst cvs_pos rgb dst_order image_order
                                  (ci_alpha cvs_img)) in
        let w := set_drawn w cvs_img true in
        Ok (w, p)
    | _ => Raise (StageError "Not an RGB array")
    end.

(** ** Pipeline engine: running stages *)

(** Modelled from the spec: [Pipeline.run_from] is not among the
    sources.  Per the spec, [run_from(stage)] executes that stage and all
    later ones in declared order, each receiving a handle to its
    predecessor; [stop()] aborts the remainder of the current run; a
    failure propagates to the caller of the run. *)
Section Engine.
Variable run1 : Viewer → Stage → nat → option nat → world → Pipeline →
                outcome (world * Pipeline).

Definition prev_of (idx : nat) : option nat :=
  match idx with O => None | S i => Some i end.

Fixpoint run_stages (v : Viewer) (stages : list Stage) (idx : nat)
    (w : world) (p : Pipeline) : outcome (world * Pipeline) :=
  match stages with
  | [] => Ok (w, p)
  | s :: rest =>
      if p_stop p then Ok (w, p)
      else
        '(w, p) ← run1 v s idx (prev_of idx) w p;
        run_stages v rest (S idx) w p
  end.

Definition clear_stop (p : Pipeline) : Pipeline :=
  mkPipeline (p_stages p) (p_ctx p) (p_result p) false.

Definition run_from_with (v : Viewer) (idx : nat) (w : world) (p : Pipeline)
    : outcome (world * Pipeline) :=
  if bool_decide (idx < length (p_stages p))%nat
  then run_stages v (drop idx (p_stages p)) idx w (clear_stop p)
  else Raise (PyError "IndexError").
End Engine.

(** [stage.run(prev_stage)] for the stages a mini-pipeline is built of. *)
Definition run_mini_stage (v : Viewer) (s : Stage) (self : nat)
    (prev_stage : option nat) (w : world) (p : Pipeline)
    : outcome (world * Pipeline) :=
  match kind s with
  | KScale => Scale_run v (_bypass s) self prev_stage w p
  | KReorder => Reorder_run v (_bypass s) self prev_stage w p
  | KCuts => Cuts_run v (_bypass s) self prev_stage w p
  | KRGBMap => RGBMap_run v (_bypass s) self prev_stage w p
  | KMerge => Merge_run v (_bypass s) self prev_stage w p
  | _ => Raise (PyError "NotImplementedError")
  end.

(** [pipe.run_from(pipe[idx])] on a mini-pipeline. *)
Definition mini_run_from := run_from_with run_mini_stage.

(** ** Overlays *)

Definition image_stages : list Stage :=
  [mkStage KScale false;    (* 0 *)
   mkStage KReorder false;  (* 1 *)
   mkStage KMerge false].   (* 2 *)

Definition norm_image_stages : list Stage :=
  [mkStage KScale false;    (* 0 *)
   mkStage KReorder false;  (* 1 *)
   mkStage KCuts false;     (* 2 *)
   mkStage KRGBMap false;   (* 3 *)
   mkStage KMerge false].   (* 4 *)

(** [pipeline.Pipeline(self.logger, stages)] *)
Definition new_pipeline (stages : list Stage) : Pipeline :=
  mkPipeline stages ∅ ∅ false.

(** The cache refers to its pipeline object: what a run did to the
    pipeline is seen through the cache afterwards. *)
Definition commit (w : world) (cvs_img : CanvasImage) (pipe : Pipeline) : world :=
  let c := get_cache w cvs_img in
  put_cache w cvs_img (mkCache (Some pipe) (visible c) (drawn c)).

Definition run_cached (v : Viewer) (cvs_img : CanvasImage) (idx : nat)
    (w : world) (pipe : Pipeline) : outcome world :=
  '(w, pipe) ← mini_run_from v idx w pipe;
  Ok (commit w cvs_img pipe).

(** The part both [_prepare_image] and [_prepare_norm_image] start
    with: fetch or build the mini-pipeline and set its context. *)
Definition minipipe_setup (stages : list Stage) (outer : Pipeline)
    (cvs_img : CanvasImage) (whence : Q) (w : world) : outcome Pipeline :=
  let pipe := default (new_pipeline stages) (minipipe (get_cache w cvs_img)) in
  state ← pipe_get outer "state";
  dstarr ← pipe_get outer "dstarr";
  Ok (pipe_set (pipe_set (pipe_set (pipe_set pipe
        "whence" (VNum whence)) "cvs_img" (VImg cvs_img)) "state" state)
        "dstarr" dstarr).

Definition _prepare_image (v : Viewer) (outer : Pipeline)
    (cvs_img : CanvasImage) (whence : Q) (w : world) : outcome world :=
  pipe ← minipipe_setup image_stages outer cvs_img whence w;
  if Qle_bool whence 0 then run_cached v cvs_img 0 w pipe
  else if negb (visible (get_cache w cvs_img)) then
    (* set by Scale stage depending on image visibility in result *)
    Ok (commit w cvs_img pipe)
  else run_cached v cvs_img 1 w pipe.

Definition _prepare_norm_image (v : Viewer) (outer : Pipeline)
    (cvs_img : CanvasImage) (whence : Q) (w : world) : outcome world :=
  pipe ← minipipe_setup norm_image_stages outer cvs_img whence w;
  if Qle_bool whence 0 then run_cached v cvs_img 0 w pipe
  else if negb (visible (get_cache w cvs_img)) then
    (* set by Scale stage depending on image visibility in result *)
    Ok (commit w cvs_img pipe)
  else if Qle_bool whence 1 then run_cached v cvs_img 2 w pipe  (* Cuts *)
  else if Qle_bool whence 2 then run_cached v cvs_img 3 w pipe  (* RGBMap *)
  else run_cached v cvs_img 4 w pipe.                           (* Merge *)

(** Modelled from the spec: [prepare_image] of the canvas image classes
    is not among the sources.  Per the spec every image-bearing object
    invokes its mini-pipeline: plain images run [Scale, Reorder, Merge],
    value-mapped images run [Scale, Reorder, Cuts, RGBMap, Merge]. *)
Definition prepare_image (v : Viewer) (outer : Pipeline)
    (cvs_img : CanvasImage) (norm : bool) (whence : Q) (w : world)
    : outcome world :=
  if norm then _prepare_norm_image v outer cvs_img whence w
  else _prepare_image v outer cvs_img whence w.

Section OverlayWalk.
Variables (v : Viewer) (outer : Pipeline) (whence : Q).

(** The walk of the scene graph: every image-bearing object prepares its
    image, a compound object is walked in turn, other drawables are
    passed over. *)
Fixpoint _overlay_images (canvas : CanvasObj) (w : world) : outcome world :=
  match canvas with
  | CompoundObj objs =>
      (fix loop (objs : list CanvasObj) (w : world) : outcome world :=
         match objs with
         | [] => Ok w
         | obj :: rest =>
             w ← match obj with
                 | ImageObj cvs_img norm =>
                     prepare_image v outer cvs_img norm whence w
                 | CompoundObj _ => _overlay_images obj w
                 | DrawObj => Ok w
                 end;
             loop rest w
         end) objs w
  | _ => Ok w
  end.
End OverlayWalk.

(** [np.copy(x)]; [np.copy(None)] is a 0-d object array. *)
Definition np_copy (w : world) (x : pyval) : outcome array :=
  match x with
  | VNone => Ok (NDArray object_ [] [])
  | _ => as_array w x
  end.

Definition get_num (p : Pipeline) (key : string) : outcome Q :=
  x ← pipe_get p key;
  match x with
  | VNum q => Ok q
  | _ => Raise (PyError "TypeError")
  end.

Definition Overlays_run (v : Viewer) (bypass : bool) (self : nat)
    (prev_stage : option nat) (w : world) (p : Pipeline)
    : outcome (world * Pipeline) :=
  whence ← get_num p "whence";
  dstarr ← get_data p (Some self);
  if Qle_bool 3 whence && negb (is_None dstarr) then
    (* if we are only overplotting (whence >= 3) then we can simply use
       the result of the last pipeline run *)
    Ok (w, send p self dstarr)
  else
    bgarr ← get_data p prev_stage;
    _ ← verify_2d w bgarr;
    copy ← np_copy w bgarr;
    let '(l, w) := alloc w copy in
    let p := pipe_set p "dstarr" (VArr l) in
    w ← _overlay_images v p whence (get_private_canvas v) w;
    Ok (w, send p self (VArr l)).

(** [stage.run(prev_stage)], for every stage class of [render.py]. *)
Definition run_stage (v : Viewer) (s : Stage) (self : nat)
    (prev_stage : option nat) (w : world) (p : Pipeline)
    : outcome (world * Pipeline) :=
  match kind s with
  | KCreateBg => CreateBg_run v (_bypass s) self prev_stage w p
  | KOverlays => Overlays_run v (_bypass s) self prev_stage w p
  | KICCProf => ICCProf_run v (_bypass s) self prev_stage w p
  | KFlipSwap => FlipSwap_run v (_bypass s) self prev_stage w p
  | KRotate => Rotate_run v (_bypass s) self prev_stage w p
  | KOutput => Output_run v (_bypass s) self prev_stage w p
  | _ => run_mini_stage v s self prev_stage w p
  end.

Definition run_from := run_from_with run_stage.

(** The raster a stage published: the array behind what it sent. *)
Definition published (w : world) (p : Pipeline) (self : nat) : option array :=
  match p_result p !! self with
  | Some (VArr l) => heap w !! l
  | _ => None
  end.

End Stages.

(** * The colour-mapping stage of the interactive pipeline ([rgbmap.py]) *)

Module RGBMapStage.

(** A parameter value: a name, a flag or a number. *)
Inductive param :=
  | PStr (s : string)
  | PBool (b : bool)
  | PNum (q : Q).

(** Modelled from the spec: [StageAction] of [stages/base.py] is not
    among the sources.  Per the spec it is an immutable record (stage,
    old params, new params, description). *)
Record StageAction := mkStageAction {
  sa_stage : nat;
  sa_old : gmap string param;
  sa_new : gmap string param;
  sa_descr : string
}.

(** The calls a stage makes on its pipeline, in the order it makes them. *)
Inductive event :=
  | EvPush (a : StageAction)
  | EvRunFrom (stage : nat).

(** Modelled from the spec: the pipeline class is not among the sources.
    Per the spec [push(action)] appends to the undo log, discarding any
    redo tail, and [run_from(stage)] re-runs the pipeline from there; the
    other stages of an interactive pipeline are not known here, so a run
    is recorded, not performed. *)
Record Pipeline := mkPipeline {
  actions : list StageAction;
  cursor : nat;
  trace : list event
}.

Definition push (a : StageAction) (pl : Pipeline) : Pipeline :=
  let kept := take (cursor pl) (actions pl) in
  mkPipeline (kept ++ [a]) (S (length kept)) (trace pl ++ [EvPush a]).

Definition run_from (stage : nat) (pl : Pipeline) : Pipeline :=
  mkPipeline (actions pl) (cursor pl) (trace pl ++ [EvRunFrom stage]).

(** The persistent parameters of the stage. *)
Record Params := mkParams {
  _calg_name : string;
  _cmap_name : string;
  _imap_name : string;
  _invert_cmap : bool;
  _rotate_cmap_pct : Q;
  _contrast : Q;
  _brightness : Q
}.

(** The stage object.  [w] holds the state of the widgets by name,
    [rgbmap] the settings of the stage's own [RGBMapper] and [viewer] the
    settings of [viewer.get_rgbmap()]; both are [None] until [build_gui]
    has run.  The mapper's 'changed' callback, which schedules a
    deferred re-run on the GUI event loop, is outside the model. *)
Record RGBMap := mkRGBMap {
  stage_id : nat;
  calg_names : list string;
  cmap_names : list string;
  imap_names : list string;
  params : Params;
  gui_up : bool;
  w : gmap string param;
  rgbmap : option (gmap string param);
  viewer : option (gmap string param);
  settings_keys : list string
}.

Definition with_params (s : RGBMap) (ps : Params) : RGBMap :=
  mkRGBMap (stage_id s) (calg_names s) (cmap_names s) (imap_names s) ps
           (gui_up s) (w s) (rgbmap s) (viewer s) (settings_keys s).

(** [self.w.<name>.set_...(x)] followed by a change [key=val] of the
    mapper's settings. *)
Definition gui_update (s : RGBMap) (widget : string) (x : param)
    (key : string) (val : param) : outcome RGBMap :=
  match rgbmap s with
  | Some settings =>
      Ok (mkRGBMap (stage_id s) (calg_names s) (cmap_names s) (imap_names s)
                   (params s) (gui_up s) (<[widget := x]> (w s))
                   (Some (<[key := val]> settings)) (viewer s) (settings_keys s))
  | None => Raise (PyError "AttributeError")
  end.

(** [names.index(val)] *)
Definition list_index (val : string) (names : list string) : outcome nat :=
  match list_find (λ x, x = val) names with
  | Some (i, _) => Ok i
  | None => Raise (PyError "ValueError")
  end.

(** [names[index]] *)
Definition list_item (names : list string) (index : nat) : outcome string :=
  match names !! index with
  | Some x => Ok x
  | None => Raise (PyError "IndexError")
  end.

Definition PInt (z : Z) : param := PNum (inject_Z z).
Definition PIdx (i : nat) : param := PNum (inject_Z (Z.of_nat i)).

(** *** The property setters *)

Definition set_calg_name (val : string) (s : RGBMap) : outcome RGBMap :=
  let ps := params s in
  let s := with_params s (mkParams val (_cmap_name ps) (_imap_name ps)
             (_invert_cmap ps) (_rotate_cmap_pct ps) (_contrast ps)
             (_brightness ps)) in
  if gui_up s then
    idx ← list_index val (calg_names s);
    gui_update s "algorithm" (PIdx idx) "color_algorithm" (PStr val)
  else Ok s.

Definition set_cmap_name (val : string) (s : RGBMap) : outcome RGBMap :=
  let ps := params s in
  let s := with_params s (mkParams (_calg_name ps) val (_imap_name ps)
             (_invert_cmap ps) (_rotate_cmap_pct ps) (_contrast ps)
             (_brightness ps)) in
  if gui_up s then
    idx ← list_index val (cmap_names s);
    gui_update s "colormap" (PIdx idx) "color_map" (PStr val)
  else Ok s.

Definition set_imap_name (val : string) (s : RGBMap) : outcome RGBMap :=
  let ps := params s in
  let s := with_params s (mkParams (_calg_name ps) (_cmap_name ps) val
             (_invert_cmap ps) (_rotate_cmap_pct ps) (_contrast ps)
             (_brightness ps)) in
  if gui_up s then
    idx ← list_index val (imap_names s);
    gui_update s "intensity" (PIdx idx) "intensity_map" (PStr val)
  else Ok s.

Definition set_invert_cmap (tf : bool) (s : RGBMap) : outcome RGBMap :=
  let ps := params s in
  let s := with_params s (mkParams (_calg_name ps) (_cmap_name ps)
             (_imap_name ps) tf (_rotate_cmap_pct ps) (_contrast ps)
             (_brightness ps)) in
  if gui_up s then
    gui_update s "invert_cmap" (PBool tf) "color_map_invert" (PBool tf)
  else Ok s.

Definition set_rotate_cmap (pct : Q) (s : RGBMap) : outcome RGBMap :=
  let ps := params s in
  let s := with_params s (mkParams (_calg_name ps) (_cmap_name ps)
             (_imap_name ps) (_invert_cmap ps) pct (_contrast ps)
             (_brightness ps)) in
  if gui_up s then
    gui_update s "rotate_cmap" (PInt (py_int (pct * 100)))
               "color_map_rot_pct" (PNum pct)
  else Ok s.

Definition set_contrast (pct : Q) (s : RGBMap) : outcome RGBMap :=
  let ps := params s in
  let s := with_params s (mkParams (_calg_name ps) (_cmap_name ps)
             (_imap_name ps) (_invert_cmap ps) (_rotate_cmap_pct ps) pct
             (_brightness ps)) in
  if gui_up s then
    gui_update s "contrast" (PInt (py_int (pct * 100))) "contrast" (PNum pct)
  else Ok s.

Definition set_brightness (pct : Q) (s : RGBMap) : outcome RGBMap :=
  let ps := params s in
  let s := with_params s (mkParams (_calg_name ps) (_cmap_name ps)
             (_imap_name ps) (_invert_cmap ps) (_rotate_cmap_pct ps)
             (_contrast ps) pct) in
  if gui_up s then
    gui_update s "brightness" (PInt (py_int (pct * 100))) "brightness" (PNum pct)
  else Ok s.

(** *** The callbacks *)

Section Callbacks.
(** [cmap.get_names()] and [imap.get_names()] of the colour-map
    registries, and the text an f-string gives a float. *)
Variables (cmap_get_names imap_get_names : list string).
Variable float_str : Q → string.

Definition bool_str (b : bool) : string := if b then "True" else "False".

Definition set_cmap_cb (index : nat) (s : RGBMap) (pl : Pipeline)
    : outcome (RGBMap * Pipeline) :=
  let old_cmap_name := _cmap_name (params s) in
  name ← list_item cmap_get_names index;
  s ← set_cmap_name name s;
  let pl := push (mkStageAction (stage_id s)
                    {["cmap_name" := PStr old_cmap_name]}
                    {["cmap_name" := PStr (_cmap_name (params s))]}
                    "rgbmap / change cmap") pl in
  Ok (s, run_from (stage_id s) pl).

Definition set_imap_cb (index : nat) (s : RGBMap) (pl : Pipeline)
    : outcome (RGBMap * Pipeline) :=
  let old_imap_name := _imap_name (params s) in
  name ← list_item imap_get_names index;
  s ← set_imap_name name s;
  let pl := push (mkStageAction (stage_id s)
                    {["imap_name" := PStr old_imap_name]}
                    {["imap_name" := PStr (_imap_name (params s))]}
                    "rgbmap / change imap") pl in
  Ok (s, run_from (stage_id s) pl).

Definition set_calg_cb (index : nat) (s : RGBMap) (pl : Pipeline)
    : outcome (RGBMap * Pipeline) :=
  let old_calg_name := _calg_name (params s) in
  name ← list_item (calg_names s) index;
  s ← set_calg_name name s;
  let pl := push (mkStageAction (stage_id s)
                    {["calg_name" := PStr old_calg_name]}
                    {["calg_name" := PStr (_calg_name (params s))]}
                    "rgbmap / change calg") pl in
  Ok (s, run_from (stage_id s) pl).

Definition rotate_cmap_cb (val : Z) (s : RGBMap) (pl : Pipeline)
    : outcome (RGBMap * Pipeline) :=
  let old_val := _rotate_cmap_pct (params s) in
  let pct := (inject_Z val / 100)%Q in
  s ← set_rotate_cmap pct s;
  let pl := push (mkStageAction (stage_id s)
                    {["rotate_cmap" := PNum old_val]}
                    {["rotate_cmap" := PNum (_rotate_cmap_pct (params s))]}
                    ("rgbmap / rotate cmap: " +:+ float_str pct)) pl in
  Ok (s, run_from (stage_id s) pl).

Definition invert_cmap_cb (tf : bool) (s : RGBMap) (pl : Pipeline)
    : outcome (RGBMap * Pipeline) :=
  let old_val := _invert_cmap (params s) in
  s ← set_invert_cmap tf s;
  let pl := push (mkStageAction (stage_id s)
                    {["invert_cmap" := PBool old_val]}
                    {["invert_cmap" := PBool (_invert_cmap (params s))]}
                    ("rgbmap / invert cmap " +:+ bool_str tf)) pl in
  Ok (s, run_from (stage_id s) pl).

Definition unrotate_cmap_cb (s : RGBMap) (pl : Pipeline)
    : outcome (RGBMap * Pipeline) :=
  rotate_cmap_cb 0 s pl.

Definition set_default_cmaps (s : RGBMap) (pl : Pipeline)
    : outcome (RGBMap * Pipeline) :=
  let old : gmap string param :=
    <["imap_name" := PStr (_imap_name (params s))]>
      {["cmap_name" := PStr (_cmap_name (params s))]} in
  let cmap_name := "gray" in
  let imap_name := "ramp" in
  let new : gmap string param :=
    <["imap_name" := PStr imap_name]> {["cmap_name" := PStr cmap_name]} in
  let pl := push (mkStageAction (stage_id s) old new
                                "rgbmap / change cmap,imap") pl in
  s ← set_cmap_name cmap_name s;
  s ← set_imap_name imap_name s;
  Ok (s, run_from (stage_id s) pl).

Definition contrast_set_cb (val : Z) (s : RGBMap) (pl : Pipeline)
    : outcome (RGBMap * Pipeline) :=
  let old_val := _contrast (params s) in
  let pct := (inject_Z val / 100)%Q in
  s ← set_contrast pct s;
  let pl := push (mkStageAction (stage_id s)
                    {["contrast" := PNum old_val]}
                    {["contrast" := PNum (_contrast (params s))]}
                    ("rgbmap / contrast: " +:+ float_str pct)) pl in
  Ok (s, run_from (stage_id s) pl).

Definition brightness_set_cb (val : Z) (s : RGBMap) (pl : Pipeline)
    : outcome (RGBMap * Pipeline) :=
  let old_val := _brightness (params s) in
  let pct := (inject_Z val / 100)%Q in
  s ← set_brightness pct s;
  let pl := push (mkStageAction (stage_id s)
                    {["brightness" := PNum old_val]}
                    {["brightness" := PNum (_brightness (params s))]}
                    ("rgbmap / brightness: " +:+ float_str pct)) pl in
  Ok (s, run_from (stage_id s) pl).

Definition restore_contrast_cb (s : RGBMap) (pl : Pipeline)
    : outcome (RGBMap * Pipeline) :=
  contrast_set_cb 50 s pl.

Definition restore_brightness_cb (s : RGBMap) (pl : Pipeline)
    : outcome (RGBMap * Pipeline) :=
  brightness_set_cb 50 s pl.

Definition set_default_distmaps (s : RGBMap) (pl : Pipeline)
    : outcome (RGBMap * Pipeline) :=
  let old : gmap string param :=
    {["calg_name" := PStr (_calg_name (params s))]} in
  let name := "linear" in
  let new : gmap string param := {["calg_name" := PStr name]} in
  let pl := push (mkStageAction (stage_id s) old new "rgbmap / change calg") pl in
  s ← set_calg_name name s;
  Ok (s, run_from (stage_id s) pl).

(** [src.copy_attributes(dst, keylist)]: the settings named in
    [keylist] are copied from [src] to [dst]. *)
Definition copy_attributes (src dst : gmap string param) (keylist : list string)
    : gmap string param :=
  foldl (λ d k, match src !! k with Some x => <[k := x]> d | None => d end)
        dst keylist.

Definition copy_from_viewer_cb (s : RGBMap) (pl : Pipeline)
    : outcome (RGBMap * Pipeline) :=
  match viewer s, rgbmap s with
  | Some vmap, Some settings =>
      let s := mkRGBMap (stage_id s) (calg_names s) (cmap_names s)
                 (imap_names s) (params s) (gui_up s) (w s)
                 (Some (copy_attributes vmap settings (settings_keys s)))
                 (viewer s) (settings_keys s) in
      Ok (s, run_from (stage_id s) pl)
  | _, _ => Raise (PyError "AttributeError")
  end.

(** The user parameter mutators of the stage, as the widgets of
    [build_gui] invoke them. *)
Inductive mutator :=
  | SetCmap (index : nat)
  | SetImap (index : nat)
  | SetCalg (index : nat)
  | InvertCmap (tf : bool)
  | RotateCmap (val : Z)
  | ContrastSet (val : Z)
  | BrightnessSet (val : Z)
  | CopyFromViewer.

Definition invoke (m : mutator) (s : RGBMap) (pl : Pipeline)
    : outcome (RGBMap * Pipeline) :=
  match m with
  | SetCmap index => set_cmap_cb index s pl
  | SetImap index => set_imap_cb index s pl
  | SetCalg index => set_calg_cb index s pl
  | InvertCmap tf => invert_cmap_cb tf s pl
  | RotateCmap val => rotate_cmap_cb val s pl
  | ContrastSet val => contrast_set_cb val s pl
  | BrightnessSet val => brightness_set_cb val s pl
  | CopyFromViewer => copy_from_viewer_cb s pl
  end.

(** The events a call appended to the trace. *)
Definition appended (pl pl' : Pipeline) : list event :=
  drop (length (trace pl)) (trace pl').

End Callbacks.

(** The parameter a mutator changes, by its property name;
    [copy_from_viewer_cb] changes the settings of the mapper only. *)
Definition mutated_key (m : mutator) : option string :=
  match m with
  | SetCmap _ => Some "cmap_name"
  | SetImap _ => Some "imap_name"
  | SetCalg _ => Some "calg_name"
  | InvertCmap _ => Some "invert_cmap"
  | RotateCmap _ => Some "rotate_cmap"
  | ContrastSet _ => Some "contrast"
  | BrightnessSet _ => Some "brightness"
  | CopyFromViewer => None
  end.

(** The value of a property of the stage (the getters of [rgbmap.py]). *)
Definition property (key : string) (ps : Params) : option param :=
  if decide (key = "cmap_name") then Some (PStr (_cmap_name ps))
  else if decide (key = "imap_name") then Some (PStr (_imap_name ps))
  else if decide (key = "calg_name") then Some (PStr (_calg_name ps))
  else if decide (key = "invert_cmap") then Some (PBool (_invert_cmap ps))
  else if decide (key = "rotate_cmap") then Some (PNum (_rotate_cmap_pct ps))
  else if decide (key = "contrast") then Some (PNum (_contrast ps))
  else if decide (key = "brightness") then Some (PNum (_brightness ps))
  else None.
End RGBMapStage.

(** ** Running and persisting the stage ([rgbmap.py], continued) *)

(** [RGBMap.run]: the stage of the interactive pipeline maps through its
    own mapper [self.rgbmap] ([None] until [build_gui] has run) in the
    channel order [self.order], which [__init__] sets to ['RGB']. *)
Section InteractiveRun.
Context {E : Type} `{!NumpyElem E, !ColorLibs E}.

Definition RGBMap_order : string := "RGB".

Definition RGBMapStage_run (mapper : option RGBMapper) (bypass : bool)
    (self : nat) (prev_stage : option nat) (w : World E) (p : Pipeline)
    : outcome (World E * Pipeline) :=
  data ← get_data p prev_stage;
  _ ← verify_2d w data;
  if bypass || is_None data then Ok (w, send p self data)
  else
    arr ← as_array w data;
    let arr := if negb (is_uint (nd_dtype arr)) then astype uint64 arr else arr in
    (* get RGB mapped array *)
    match mapper with
    | Some rgbmap =>
        let res_np := get_rgb_array rgbmap arr RGBMap_order in
        let '(l, w) := alloc w res_np in
        Ok (w, send p self (VArr l))
    | None => Raise (PyError "AttributeError")
    end.
End InteractiveRun.

Module RGBMapIO.
Import RGBMapStage.

(** The parameters [__init__] gives a new stage. *)
Definition init_params : Params :=
  mkParams "linear" "gray" "ramp" false 0 (1 # 2) (1 # 2).

Definition _get_state (s : RGBMap) : gmap string param :=
  <["imap_name" := PStr (_imap_name (params s))]>
    (<["cmap_name" := PStr (_cmap_name (params s))]>
       {["calg_name" := PStr (_calg_name (params s))]}).

(** [d[key]] *)
Definition dict_item (d : gmap string param) (key : string) : outcome param :=
  match d !! key with
  | Some x => Ok x
  | None => Raise (PyError "KeyError")
  end.

(** [stage.<key> = x]: an assignment to a property of the stage runs the
    setter of that property.  The parameters are typed here, so a value
    of another type than the property holds is refused. *)
Definition set_property (key : string) (x : param) (s : RGBMap) : outcome RGBMap :=
  match x with
  | PStr val =>
      if decide (key = "calg_name") then set_calg_name val s
      else if decide (key = "cmap_name") then set_cmap_name val s
      else if decide (key = "imap_name") then set_imap_name val s
      else Raise (PyError "TypeError")
  | PBool tf =>
      if decide (key = "invert_cmap") then set_invert_cmap tf s
      else Raise (PyError "TypeError")
  | PNum pct =>
      if decide (key = "rotate_cmap") then set_rotate_cmap pct s
      else if decide (key = "contrast") then set_contrast pct s
      else if decide (key = "brightness") then set_brightness pct s
      else Raise (PyError "TypeError")
  end.

Section Base.
(** [Stage.export_as_dict] and [Stage.import_from_dict] of
    [stages/base.py], which the stage calls through [super()], are not
    among the sources: they are taken as given. *)
Variable base_export : RGBMap → gmap string param.
Variable base_import : gmap string param → RGBMap → outcome RGBMap.

(** [d.update(self._get_state())]: the stage's entries replace entries
    of the same name. *)
Definition export_as_dict (s : RGBMap) : gmap string param :=
  _get_state s ∪ base_export s.

Definition import_from_dict (d : gmap string param) (s : RGBMap) : outcome RGBMap :=
  s ← base_import d s;
  calg ← dict_item d "calg_name";
  s ← set_property "calg_name" calg s;
  cmap ← dict_item d "cmap_name";
  s ← set_property "cmap_name" cmap s;
  imap ← dict_item d "imap_name";
  set_property "imap_name" imap s.
End Base.

End RGBMapIO.

(** * Notions the properties are stated with *)

(** The array has [rows] rows and [cols] columns. *)
Definition dims_are {E} (a : ndarray E) (rows cols : Z) : Prop :=
  ∃ ht wd rest, nd_shape a = ht :: wd :: rest ∧
                Z.of_nat ht = rows ∧ Z.of_nat wd = cols.

(** The side of the canvas as the specification words it:
    [ceil(sqrt(win_w² + win_h²)) + 20]. *)
Definition ceil_sqrt (n : Z) : Z :=
  let s := Z.sqrt n in
  if s * s =? n then s else s + 1.

Definition spec_canvas_side (win_wd win_ht : Z) : Z :=
  ceil_sqrt (win_wd ^ 2 + win_ht ^ 2) + 20.

(** The kinds of the stages of a pipeline, in order. *)
Definition stage_kinds (p : Pipeline) : list StageKind := kind <$> p_stages p.

(** Every buffer of [w] is still there, unchanged, in [w']. *)
Definition heap_extends {E} (w w' : World E) : Prop :=
  ∀ l a, heap w !! l = Some a → heap w' !! l = Some a.

(** No published result of the pipeline is the buffer [l]. *)
Definition results_avoid (p : Pipeline) (l : loc) : Prop :=
  ∀ i, p_result p !! i ≠ Some (VArr l).

(** No published result of a cached mini-pipeline is the buffer [l]. *)
Definition caches_avoid {E} (w : World E) (l : loc) : Prop :=
  ∀ id c pipe, caches w !! id = Some c → minipipe c = Some pipe →
               results_avoid pipe l.

(** What a stage of the mini-pipeline other than Merge may do: allocate
    buffers, publish, set context keys other than the destination. *)
Definition mini_effect {E} (self : nat) (w w' : World E) (p p' : Pipeline) : Prop :=
  heap_extends w w' ∧
  p_ctx p' !! "dstarr" = p_ctx p !! "dstarr" ∧
  (∀ l a, heap w !! l = Some a → results_avoid p l → results_avoid p' l) ∧
  (∀ l, caches_avoid w l → caches_avoid w' l).

(** The buffer [l] holds [a] and is neither a published result nor the
    shared destination. *)
Definition clean {E} (l : loc) (a : ndarray E) (w : World E) (p : Pipeline) : Prop :=
  heap w !! l = Some a ∧ results_avoid p l ∧
  p_ctx p !! "dstarr" ≠ Some (VArr l) ∧ caches_avoid w l.

(** The stages of the standard pipeline renderer, in the order the
    module docstring of [render.py] gives. *)
Definition standard_pipeline : list Stage :=
  [mkStage KCreateBg false;  (* 0 *)
   mkStage KOverlays false;  (* 1 *)
   mkStage KICCProf false;   (* 2 *)
   mkStage KFlipSwap false;  (* 3 *)
   mkStage KRotate false;    (* 4 *)
   mkStage KOutput false].   (* 5 *)

(** The canvas holds no image-bearing object, at any depth. *)
Fixpoint no_image_objects (canvas : CanvasObj) : bool :=
  match canvas with
  | ImageObj _ _ => false
  | CompoundObj objs =>
      (fix all (objs : list CanvasObj) : bool :=
         match objs with
         | [] => true
         | obj :: rest => no_image_objects obj && all rest
         end) objs
  | DrawObj => true
  end.

(** What a stage leaves of its pipeline: the stage list, and every
    published result but its own. *)
Definition keeps_others (self : nat) (p p' : Pipeline) : Prop :=
  p_stages p' = p_stages p ∧
  ∀ j, j ≠ self → p_result p' !! j = p_result p !! j.

(** The stages that honour their bypass flag by handing their input on. *)
Definition passes_through (k : StageKind) : bool :=
  match k with
  | KICCProf | KFlipSwap | KRotate | KOutput => true
  | _ => false
  end.

(** * Concrete collaborators and inputs

    The theorems below hold for every element type and every instance of
    the collaborator classes.  To run the stages on concrete inputs the
    classes are instantiated here at integer elements, with simple
    stand-ins for the helpers whose code is not among the sources. *)

Module Sample.

Definition int_max (dt : dtype) : option Z :=
  match dt with
  | uint8 => Some 255
  | uint16 => Some 65535
  | uint64 => Some (2 ^ 64 - 1)
  | _ => None
  end.

#[export] Instance Z_elem : NumpyElem Z := {|
  iinfo_max := int_max;
  scale_color dt c := (λ m, py_int (inject_Z m * c)) <$> int_max dt;
  elem_zero := 0;
  elem_cast dt z := match int_max dt with Some m => z `mod` (m + 1) | None => z end
|}.

(** The clip of the rectangle [q1..q2] of an image placed at [dst]
    against the window [p1..p2]. *)
Definition merge_clip (p1 p2 dst q1 q2 : Q * Q) : (Q * Q) * (Q * Q) * (Q * Q) :=
  let clip1 (lo hi d a1 a2 : Q) : Q * Q * Q :=
    let wd := (a2 - a1)%Q in
    let '(d, a1, wd) :=
      if Qle_bool lo d then (d, a1, wd)
      else (lo, (a1 + (lo - d))%Q, (wd - (lo - d))%Q) in
    let ex := (d + wd - hi)%Q in
    (d, a1, if Qle_bool ex 0 then a2 else (a2 - ex)%Q) in
  let '(dx, a1, a2) := clip1 p1.1 p2.1 dst.1 q1.1 q2.1 in
  let '(dy, b1, b2) := clip1 p1.2 p2.2 dst.2 q1.2 q2.2 in
  ((dx, dy), (a1, b1), (a2, b2)).

(** An opaque paste of [src] into [dst] at [pos], clipped to [dst]. *)
Definition paste (dst : ndarray Z) (pos : Z * Z) (src : ndarray Z) : ndarray Z :=
  NDArray (nd_dtype dst) (nd_shape dst)
    (imap (λ y row,
             imap (λ x px,
                     let sy := Z.of_nat y - pos.2 in
                     let sx := Z.of_nat x - pos.1 in
                     if (0 <=? sy) && (0 <=? sx) then
                       default px (nd_px src !! Z.to_nat sy ≫= (.!! Z.to_nat sx))
                     else px)
                  row)
          (nd_px dst)).

#[export] Instance trcalc : Trcalc Z := {|
  transform a flip_x flip_y swap_xy :=
    let rows := if flip_y then reverse (nd_px a) else nd_px a in
    NDArray (nd_dtype a) (nd_shape a)
            (if flip_x then reverse <$> rows else rows);
  rotate_clip a theta :=
    NDArray (nd_dtype a) (nd_shape a) (reverse (reverse <$> nd_px a));
  calc_image_merge_clip := merge_clip;
  interpolation_methods := ["basic"; "nearest"];
  get_scaled_cutout_basic a x1 y1 x2 y2 sx sy interp :=
    NDArray (nd_dtype a)
      (match nd_shape a with
       | _ :: _ :: rest =>
           Z.to_nat (Qfloor (y2 - y1) + 1) :: Z.to_nat (Qfloor (x2 - x1) + 1) :: rest
       | sh => sh
       end)
      ((λ row : list (list Z),
          take (Z.to_nat (Qfloor (x2 - x1) + 1)) (drop (Z.to_nat (Qfloor x1)) row))
         <$> take (Z.to_nat (Qfloor (y2 - y1) + 1))
                  (drop (Z.to_nat (Qfloor y1)) (nd_px a)));
  array_convert a dt := NDArray dt (nd_shape a) (nd_px a);
  overlay_image dst pos src dst_order src_order alpha := paste dst pos src
|}.

#[export] Instance colorlibs : ColorLibs Z := {|
  cut_levels autocuts a loval hival vmin vmax :=
    NDArray (nd_dtype a) (nd_shape a)
      ((λ row : list (list Z),
          (λ px : list Z, (λ x, Z.max vmin (Z.min vmax x)) <$> px) <$> row)
         <$> nd_px a);
  get_rgb_array rgbmap a ord :=
    NDArray uint8
      (match nd_shape a with
       | ht :: wd :: _ => [ht; wd; String.length ord]
       | sh => sh
       end)
      ((λ row : list (list Z),
          (λ px : list Z,
             (λ c, if decide (c = chr_A) then 255 else default 0 (px !! 0%nat))
               <$> list_ascii_of_string ord) <$> row)
         <$> nd_px a);
  convert_profile_fromto a working output intent proof proof_intent bpc := Some a
|}.

Definition viewer : Viewer := {|
  get_private_canvas := CompoundObj [];
  get_bg := (0%Q, 1 # 2, 1%Q);
  get_rotation := 0%Q;
  _invert_y := false;
  get_transforms := (false, false, false);
  renderer_rgb_order := "BGRA";
  get_draw_rect := [(0%Q, 0%Q); (10%Q, 0%Q); (10%Q, 10%Q); (0%Q, 10%Q)];
  get_scale_xy := (1%Q, 1%Q);
  get_pan := (5%Q, 5%Q);
  data_off := (1 # 2);
  settings_interpolation := None;
  get_rgbmap := mkRGBMapper 0 256;
  viewer_autocuts := 0%nat;
  viewer_cuts := (0%Q, 255%Q);
  have_cms := false;
  working_profile := None;
  icc_output_profile := None;
  icc_output_intent := None;
  icc_proof_profile := None;
  icc_proof_intent := None;
  icc_black_point_compensation := None
|}.

(** A raster of [ht] rows and [wd] columns whose pixel at row [y] and
    column [x] has the bands [10 * y + x + c] for [c = 0, .., dp - 1]. *)
Definition raster (ht wd dp : nat) : ndarray Z :=
  NDArray uint8 [ht; wd; dp]
    ((λ y, (λ x, (λ c, Z.of_nat (10 * y + x + c)) <$> seq 0 dp) <$> seq 0 wd)
       <$> seq 0 ht).

Definition state (win : Z * Z) (ord : string) : State := mkState win ord (0, 0).

(** A world holding the given buffers at the handles [0, 1, ..]. *)
Definition world_of (bufs : list (ndarray Z)) : World Z :=
  mkWorld (list_to_map (zip (seq 0 (length bufs)) bufs)) ∅.

(** The stages of the standard pipeline renderer. *)
Definition standard_stages : list Stage :=
  [mkStage KCreateBg false;  (* 0 *)
   mkStage KOverlays false;  (* 1 *)
   mkStage KICCProf false;   (* 2 *)
   mkStage KFlipSwap false;  (* 3 *)
   mkStage KRotate false;    (* 4 *)
   mkStage KOutput false].   (* 5 *)

(** A pipeline with the given context and published results. *)
Definition pipe_with (stages : list Stage) (ctx : list (string * pyval))
    (results : list (nat * pyval)) : Pipeline :=
  mkPipeline stages (list_to_map ctx) (list_to_map results) false.

(** Output about to run: the viewer state and the anchor are in the
    context, Rotate has published the buffer at handle 0. *)
Definition output_pipe (win : Z * Z) (ord : string) (dst : Z * Z) : Pipeline :=
  pipe_with standard_stages
    [("state", VState (state win ord)); ("dst", VPair dst.1 dst.2)]
    [(4%nat, VArr 0%nat)].

(** Rotate about to run: the viewer state and the offset are in the
    context, FlipSwap has published the buffer at handle 0. *)
Definition rotate_pipe (win : Z * Z) (ord : string) (off : Z * Z) : Pipeline :=
  pipe_with standard_stages
    [("state", VState (state win ord)); ("off", VPair off.1 off.2)]
    [(3%nat, VArr 0%nat)].

(** A canvas image object [id] holding [img] at data position [pos]. *)
Definition canvas_image (id : nat) (img : option Image) (pos : Q * Q)
    : CanvasImage :=
  mkCanvasImage id img pos (1%Q, 1%Q) None false 1%Q None None None.

(** A value-mapped image's mini-pipeline with its context set and the
    given results published. *)
Definition mini_pipe (ci : CanvasImage) (ord : string)
    (extra : list (string * pyval)) (results : list (nat * pyval)) : Pipeline :=
  pipe_with norm_image_stages
    ([("cvs_img", VImg ci); ("state", VState (state (4, 4) ord))] ++ extra)
    results.

(** The context of the Overlays stage during a walk: the viewer state
    and the destination buffer. *)
Definition outer_pipe (ord : string) (dstarr : loc) : Pipeline :=
  pipe_with standard_stages
    [("state", VState (state (4, 4) ord)); ("dstarr", VArr dstarr)] [].


(** A 2-D band of one pixel. *)
Definition band (x : Z) : ndarray Z := NDArray uint8 [1; 1]%nat [[[x]]].

(** An interactive RGBMap stage after [build_gui], with the viewer's
    mapper set to another colour map, and an empty undo log. *)
Definition stage : RGBMapStage.RGBMap :=
  RGBMapStage.mkRGBMap 0 ["linear"; "log"] ["gray"; "rainbow"] ["ramp"; "equa"]
    (RGBMapStage.mkParams "linear" "gray" "ramp" false 0 (1 # 2) (1 # 2))
    true ∅
    (Some (list_to_map [("color_map", RGBMapStage.PStr "gray");
                        ("intensity_map", RGBMapStage.PStr "ramp")]))
    (Some (list_to_map [("color_map", RGBMapStage.PStr "rainbow");
                        ("intensity_map", RGBMapStage.PStr "ramp")]))
    ["color_map"; "intensity_map"].

Definition undo_log : RGBMapStage.Pipeline := RGBMapStage.mkPipeline [] 0 [].

Definition float_str (q : Q) : string := "<float>".

(** The context CreateBg reads: the viewer state. *)
Definition state_pipe (win : Z * Z) (ord : string) : Pipeline :=
  pipe_with standard_stages [("state", VState (state win ord))] [].

(** An RGBA colour image on a canvas, its raster at handle 0. *)
Definition rgba_image : CanvasImage :=
  canvas_image 7 (Some (mkImage 0%nat "RGBA" true)) (0%Q, 0%Q).

(** Merge about to composite the four-band raster RGBMap published
    (handle 0), with a split-off alpha band (handle 1), into the
    destination (handle 2). *)
Definition merge_world : World Z := world_of [raster 1 1 4; band 200; raster 2 2 4].
Definition merge_pipe : Pipeline :=
  mini_pipe rgba_image "RGBA"
    [("offset", VQPair 0 0); ("dstarr", VArr 2%nat); ("alpha", VArr 1%nat)]
    [(3%nat, VArr 0%nat)].

(** A value-mapped overlay whose mini-pipeline is already built. *)
Definition entry_image : CanvasImage :=
  canvas_image 7 (Some (mkImage 0%nat "M" false)) (0%Q, 0%Q).

(** An image placed far outside the viewer's draw rectangle. *)
Definition far_image : CanvasImage :=
  canvas_image 7 (Some (mkImage 0%nat "RGB" true)) (100%Q, 100%Q).
Definition far_world : World Z := world_of [raster 2 2 3; raster 8 8 4].

(** A canvas image object without an image. *)
Definition imageless : CanvasImage := canvas_image 7 None (0%Q, 0%Q).

Definition with_rotation (v : Viewer) (rot_deg : Q) (invert_y : bool) : Viewer :=
  mkViewer (get_private_canvas v) (get_bg v) rot_deg invert_y
    (get_transforms v) (renderer_rgb_order v) (get_draw_rect v)
    (get_scale_xy v) (get_pan v) (data_off v) (settings_interpolation v)
    (get_rgbmap v) (viewer_autocuts v) (viewer_cuts v) (have_cms v)
    (working_profile v) (icc_output_profile v) (icc_output_intent v)
    (icc_proof_profile v) (icc_proof_intent v) (icc_black_point_compensation v).

(** The viewer with colour management on and the given profiles. *)
Definition with_profiles (v : Viewer) (working output : option string) : Viewer :=
  mkViewer (get_private_canvas v) (get_bg v) (get_rotation v) (_invert_y v)
    (get_transforms v) (renderer_rgb_order v) (get_draw_rect v)
    (get_scale_xy v) (get_pan v) (data_off v) (settings_interpolation v)
    (get_rgbmap v) (viewer_autocuts v) (viewer_cuts v) true
    working output (icc_output_intent v)
    (icc_proof_profile v) (icc_proof_intent v) (icc_black_point_compensation v).

(** A colour image inside the viewer's draw rectangle, its raster at
    handle 0. *)
Definition near_image : CanvasImage :=
  canvas_image 7 (Some (mkImage 0%nat "RGB" true)) (0%Q, 0%Q).

(** A plain image's mini-pipeline with its context set and the given
    results published. *)
Definition image_pipe (ci : CanvasImage) (ord : string)
    (extra : list (string * pyval)) (results : list (nat * pyval)) : Pipeline :=
  pipe_with image_stages
    ([("cvs_img", VImg ci); ("state", VState (state (4, 4) ord))] ++ extra)
    results.

(** The interactive stage with every parameter changed from what
    [__init__] set. *)
Definition rainbow_stage : RGBMapStage.RGBMap :=
  RGBMapStage.with_params stage
    (RGBMapStage.mkParams "log" "rainbow" "equa" true (1 # 4) (3 # 4) (1 # 4)).

End Sample.

(** * Properties of the stages *)

(** ** Slicing and reordering *)

Section ArrayFacts.
Context {E : Type} `{!NumpyElem E}.

Lemma slice_len_fits (n : nat) (lo len : Z) :
  0 ≤ lo → 0 ≤ len → lo + len ≤ Z.of_nat n →
  slice_len n lo (lo + len) = Z.to_nat len.
Proof.
  intros Hlo Hlen Hfit. unfold slice_len, slice_bound.
  destruct (Z.ltb_spec (lo + len) 0), (Z.ltb_spec lo 0); lia.
Qed.

Lemma py_slice_length {A} (lo hi : Z) (l : list A) :
  length (py_slice lo hi l) = slice_len (length l) lo hi.
Proof.
  unfold py_slice. rewrite length_take, length_drop.
  unfold slice_len, slice_bound.
  destruct (Z.ltb_spec hi 0), (Z.ltb_spec lo 0); lia.
Qed.

Lemma py_slice_Forall {A} (P : A → Prop) lo hi (l : list A) :
  Forall P l → Forall P (py_slice lo hi l).
Proof. intros HP. unfold py_slice. by apply Forall_take, Forall_drop. Qed.

Lemma list_ascii_length s :
  length (list_ascii_of_string s) = String.length s.
Proof. induction s as [|c s IH]; simpl; congruence. Qed.

Lemma reorder_pixel_length dst src o (px px' : list E) :
  reorder_pixel dst src o px = Some px' → length px' = String.length dst.
Proof.
  unfold reorder_pixel. intros Hm. apply length_mapM in Hm.
  rewrite <- Hm. apply list_ascii_length.
Qed.

Lemma slice2_wf y1 y2 x1 x2 (a cut : ndarray E) :
  slice2 y1 y2 x1 x2 a = Ok cut → wf_array a → wf_array cut.
Proof.
  unfold slice2, wf_array.
  destruct (nd_shape a) as [|ht [|wd rest]] eqn:Hs; try discriminate.
  intros [= <-] [Hlen Hrows]. simpl. split.
  - rewrite length_fmap, py_slice_length. by rewrite Hlen.
  - apply Forall_fmap. apply py_slice_Forall.
    eapply Forall_impl; [exact Hrows|]. simpl.
    intros row [Hrl Hpx]. split.
    + rewrite py_slice_length. by rewrite Hrl.
    + apply py_slice_Forall. destruct rest as [|? [|]]; exact Hpx.
Qed.

Lemma reorder_image_shape dst src (a out : ndarray E) :
  reorder_image dst a src = Ok out →
  ∃ ht wd dp, nd_shape a = [ht; wd; dp] ∧ dp = String.length src ∧
              nd_shape out = [ht; wd; String.length dst].
Proof.
  unfold reorder_image.
  destruct (nd_shape a) as [|ht [|wd [|dp [|]]]] eqn:Hs; try discriminate.
  case_bool_decide as Hdp; [|discriminate].
  case_bool_decide as Heq.
  - intros [= <-]. exists ht, wd, dp. split; [done|]. rewrite Hs. by subst.
  - destruct (mapM _ _); [|discriminate]. intros [= <-]. by exists ht, wd, dp.
Qed.

Lemma reorder_image_wf dst src (a out : ndarray E) :
  reorder_image dst a src = Ok out → wf_array a → wf_array out.
Proof.
  unfold reorder_image.
  destruct (nd_shape a) as [|ht [|wd [|dp [|]]]] eqn:Hs; try discriminate.
  case_bool_decide as Hdp; [|discriminate].
  case_bool_decide as Heq; [by intros [= <-]|].
  destruct (mapM _ _) as [px|] eqn:Hm; [|discriminate]. intros [= <-].
  unfold wf_array. rewrite Hs. simpl. intros [Hlen Hrows].
  apply mapM_Some in Hm. split.
  - rewrite <- Hlen. symmetry. by eapply Forall2_length.
  - clear Hlen. induction Hm as [|row row' rows rows' Hrow _ IH]; [constructor|].
    apply Forall_cons in Hrows as [[Hrl Hpx] Hrows]. constructor; [|by apply IH].
    apply mapM_Some in Hrow. split.
    + rewrite <- Hrl. symmetry. by eapply Forall2_length.
    + clear Hrl Hpx. induction Hrow as [|x y ? ? Hxy _ IH']; constructor; [|done].
      by eapply reorder_pixel_length.
Qed.

(** The helpers of the stages raise Python exceptions, never a
    [StageError]. *)
Lemma reorder_image_not_stage_error dst (a : ndarray E) src :
  is_stage_error (reorder_image dst a src) = false.
Proof. unfold reorder_image. repeat (case_match; try reflexivity). Qed.

Lemma slice2_not_stage_error y1 y2 x1 x2 (a : ndarray E) :
  is_stage_error (slice2 y1 y2 x1 x2 a) = false.
Proof. unfold slice2. repeat (case_match; try reflexivity). Qed.

Lemma get_pair_not_stage_error p k :
  is_stage_error (get_pair p k) = false.
Proof.
  unfold get_pair, pipe_get. destruct (p_ctx p !! k) as [[]|]; reflexivity.
Qed.

End ArrayFacts.

(** ** The store *)

Section StoreFacts.
Context {E : Type}.
Implicit Types w : World E.

Lemma alloc_spec w w1 a l :
  alloc w a = (l, w1) →
  heap w !! l = None ∧ heap w1 = <[l := a]> (heap w) ∧ caches w1 = caches w.
Proof.
  unfold alloc. intros [= <- <-]. cbn. split; [|done].
  apply not_elem_of_dom, is_fresh.
Qed.

Lemma alloc_lookup_new w w1 a l :
  alloc w a = (l, w1) → heap w1 !! l = Some a.
Proof. intros (_ & -> & _)%alloc_spec. apply lookup_insert_eq. Qed.

Lemma heap_extends_refl w : heap_extends w w.
Proof. by intros l a. Qed.

Lemma heap_extends_trans w1 w2 w3 :
  heap_extends w1 w2 → heap_extends w2 w3 → heap_extends w1 w3.
Proof. intros H12 H23 l a Hl. by apply H23, H12. Qed.

Lemma alloc_extends w w1 a l : alloc w a = (l, w1) → heap_extends w w1.
Proof.
  intros (Hf & Hh & _)%alloc_spec l0 a0 Hl0. rewrite Hh.
  rewrite lookup_insert_ne; [done|]. congruence.
Qed.

Lemma alloc_lookup_old w w1 a l l0 a0 :
  alloc w a = (l, w1) → heap w !! l0 = Some a0 → heap w1 !! l0 = Some a0.
Proof. intros Ha. by apply (alloc_extends _ _ _ _ Ha). Qed.

Lemma alloc_store_extends w w1 a b l :
  alloc w a = (l, w1) → heap_extends w (store w1 l b).
Proof.
  intros (Hf & Hh & _)%alloc_spec l0 a0 Hl0. unfold store. cbn.
  rewrite lookup_insert_ne by congruence. rewrite Hh.
  rewrite lookup_insert_ne; [done|]. congruence.
Qed.

Lemma same_heap_extends w w' : heap w' = heap w → heap_extends w w'.
Proof. intros Hh l a. by rewrite Hh. Qed.

End StoreFacts.

(** ** Output *)

Section OutputFacts.
Context {E : Type} `{!NumpyElem E, !Trcalc E, !ColorLibs E}.

(** C1 (as amended).  A run of Output that is not bypassed and completes
    publishes a raster of exactly [win_ht] rows by [win_wd] columns, in
    the renderer's channel order, provided the window placed at the
    anchor lies inside the input raster: [|dst_x| + win_wd <= wd] and
    [|dst_y| + win_ht <= ht].  The published raster is the window cut
    out at the anchor, reordered for the renderer. *)
Theorem Output_run_window v self prev (w w' : World E) p p' l a st dst_x dst_y
    ht wd rest :
  get_data p prev = Ok (VArr l) →
  heap w !! l = Some a →
  nd_shape a = ht :: wd :: rest →
  get_state p = Ok st →
  get_pair p "dst" = Ok (dst_x, dst_y) →
  0 ≤ (win_dim st).1 → 0 ≤ (win_dim st).2 →
  Z.abs dst_x + (win_dim st).1 ≤ Z.of_nat wd →
  Z.abs dst_y + (win_dim st).2 ≤ Z.of_nat ht →
  Output_run v false self prev w p = Ok (w', p') →
  ∃ cut out,
    published w' p' self = Some out ∧
    dims_are out (win_dim st).2 (win_dim st).1 ∧
    p_ctx p' !! "out_order" = Some (VStr (renderer_rgb_order v)) ∧
    slice2 (Z.abs dst_y) (Z.abs dst_y + (win_dim st).2)
           (Z.abs dst_x) (Z.abs dst_x + (win_dim st).1) a = Ok cut ∧
    reorder_image (renderer_rgb_order v) cut (order st) = Ok out ∧
    nd_shape out = [Z.to_nat (win_dim st).2; Z.to_nat (win_dim st).1;
                    String.length (renderer_rgb_order v)] ∧
    (wf_array a → wf_array out).
Proof.
  intros Hd Hl Hs Hst Hdst Hw0 Hh0 Hfx Hfy. unfold Output_run.
  rewrite Hd. cbn. rewrite Hl, Hs. cbn.
  rewrite Hst. unfold shape2. rewrite Hs. cbn.
  destruct (win_dim st) as [win_wd win_ht]. cbn in *.
  destruct (_ || _); [discriminate|]. rewrite Hdst. cbn.
  destruct (_ || _); [discriminate|].
  destruct (slice2 _ _ _ _ a) as [cut|] eqn:Hcut; [|discriminate]. cbn.
  destruct (reorder_image _ cut _) as [out|] eqn:Hout; [|discriminate]. cbn.
  intros [= <- <-]. exists cut, out.
  assert (nd_shape cut = Z.to_nat win_ht :: Z.to_nat win_wd :: rest) as Hcs.
  { unfold slice2 in Hcut. rewrite Hs in Hcut. injection Hcut as <-. simpl.
    rewrite !slice_len_fits by lia. done. }
  destruct (reorder_image_shape _ _ _ _ Hout) as (h & w0 & dp & Hc & _ & Ho).
  rewrite Hcs in Hc. injection Hc as <- <- ->.
  unfold published. cbn. rewrite lookup_insert_eq. cbn. rewrite lookup_insert_eq.
  repeat split; try done.
  - exists (Z.to_nat win_ht), (Z.to_nat win_wd), [String.length (renderer_rgb_order v)].
    split; [done|]. lia.
  - apply lookup_insert_eq.
  - intros Hwf. eapply reorder_image_wf; [done|]. by eapply slice2_wf.
Qed.

(** C2.  On an input raster (a buffer of at least two dimensions), with
    the viewer state in the context, Output when not bypassed raises a
    [StageError] exactly when the raster is narrower or lower than the
    window, or the destination anchor in the context has a positive
    component. *)
Theorem Output_stage_error_iff v self prev (w : World E) p l a ht wd rest st :
  get_data p prev = Ok (VArr l) →
  heap w !! l = Some a →
  nd_shape a = ht :: wd :: rest →
  get_state p = Ok st →
  is_stage_error (Output_run v false self prev w p) = true ↔
    (Z.of_nat wd < (win_dim st).1 ∨ Z.of_nat ht < (win_dim st).2 ∨
     ∃ dst_x dst_y, get_pair p "dst" = Ok (dst_x, dst_y) ∧
                    (0 < dst_x ∨ 0 < dst_y)).
Proof.
  intros Hd Hl Hs Hst. unfold Output_run.
  rewrite Hd. cbn. rewrite Hl, Hs. cbn.
  rewrite Hst. unfold shape2. rewrite Hs. cbn.
  destruct (win_dim st) as [win_wd win_ht]. cbn.
  destruct (Z.ltb_spec (Z.of_nat wd) win_wd) as [Hw|Hw]; cbn.
  { split; [intros _; lia | reflexivity]. }
  destruct (Z.ltb_spec (Z.of_nat ht) win_ht) as [Hh|Hh]; cbn.
  { split; [intros _; lia | reflexivity]. }
  pose proof (get_pair_not_stage_error p "dst") as Hg.
  destruct (get_pair p "dst") as [[dx dy]|e] eqn:Hdst; cbn.
  2:{ destruct e; [discriminate Hg|]. cbn. split; [discriminate|].
      intros [?|[?|(? & ? & ? & ?)]]; try lia; discriminate. }
  destruct (Z.ltb_spec 0 dx) as [Hx|Hx]; cbn.
  { split; [intros _|reflexivity]. right; right. exists dx, dy. split; [done|lia]. }
  destruct (Z.ltb_spec 0 dy) as [Hy|Hy]; cbn.
  { split; [intros _|reflexivity]. right; right. exists dx, dy. split; [done|lia]. }
  split.
  - intros Hse. exfalso.
    pose proof (slice2_not_stage_error (Z.abs dy) (Z.abs dy + win_ht)
                  (Z.abs dx) (Z.abs dx + win_wd) a) as H1.
    destruct (slice2 _ _ _ _ a) as [cut|e1]; cbn in Hse.
    2:{ destruct e1; [discriminate H1|discriminate Hse]. }
    pose proof (reorder_image_not_stage_error (renderer_rgb_order v) cut
                  (order st)) as H2.
    destruct (reorder_image _ cut _) as [out|e2]; cbn in Hse.
    2:{ destruct e2; [discriminate H2|discriminate Hse]. }
    discriminate.
  - intros [?|[?|(dx' & dy' & Heq & Hpos)]]; try lia.
    injection Heq as <- <-. lia.
Qed.

End OutputFacts.

(** ** CreateBg *)

Section CreateBgFacts.
Context {E : Type} `{!NumpyElem E, !Trcalc E, !ColorLibs E}.

(** C4 (as amended).  CreateBg, run first and not bypassed, publishes a
    square canvas whose side is [floor(sqrt(win_w² + win_h²)) + 20]
    ([int] truncates the square root), with one band per tag of the
    declared channel order and every pixel holding the background
    colour's component for each tag, in that order. *)
Theorem CreateBg_run_canvas v self (w : World E) p st px :
  get_state p = Ok st →
  mapM (bg_component CreateBg_dtype (get_bg v).1.1 (get_bg v).1.2
                     (get_bg v).2 1%Q)
       (list_ascii_of_string (order st)) = Some px →
  let n := (win_dim st).1 ^ 2 + (win_dim st).2 ^ 2 in
  let side := CreateBg_side (win_dim st).1 (win_dim st).2 in
  ∃ w' p',
    CreateBg_run v false self None w p = Ok (w', p') ∧
    published w' p' self =
      Some (NDArray CreateBg_dtype
              [Z.to_nat side; Z.to_nat side; String.length (order st)]
              (replicate (Z.to_nat side) (replicate (Z.to_nat side) px))) ∧
    length px = String.length (order st) ∧
    (∀ i c, list_ascii_of_string (order st) !! i = Some c →
            px !! i = bg_component CreateBg_dtype (get_bg v).1.1
                        (get_bg v).1.2 (get_bg v).2 1%Q c) ∧
    (side - 20) * (side - 20) ≤ n < (side - 20 + 1) * (side - 20 + 1) ∧
    20 ≤ side.
Proof.
  intros Hst Hpx n side. unfold CreateBg_run.
  rewrite bool_decide_false by (intros H; by apply H).
  rewrite Hst. cbn.
  destruct (win_dim st) as [win_wd win_ht] eqn:Hwin.
  destruct (get_bg v) as [[r g] b] eqn:Hbg. cbn in *.
  unfold make_filled_array. rewrite Hpx.
  pose proof (length_mapM _ _ _ Hpx) as Hlen. rewrite list_ascii_length in Hlen.
  rewrite bool_decide_true by done. cbn.
  eexists _, _. split; [reflexivity|].
  unfold published. cbn. rewrite lookup_insert_eq. cbn. rewrite lookup_insert_eq.
  split; [done|]. split; [done|]. split.
  - intros i c Hi. apply mapM_Some in Hpx.
    destruct (Forall2_lookup_l _ _ _ _ _ Hpx Hi) as (y & Hy & Hc). congruence.
  - assert (0 ≤ n) as Hn by (subst n; nia).
    pose proof (Z.sqrt_spec n Hn) as Hsq. pose proof (Z.sqrt_nonneg n).
    subst side n. unfold CreateBg_side. cbn in *.
    replace (Z.sqrt (win_wd ^ 2 + win_ht ^ 2) + 20 - 20)
      with (Z.sqrt (win_wd ^ 2 + win_ht ^ 2)) by lia.
    lia.
Qed.

(** The side the specification words and the side the code computes
    agree exactly on the windows whose squared diagonal is a perfect
    square. *)
Lemma CreateBg_side_vs_spec win_wd win_ht :
  spec_canvas_side win_wd win_ht =
    CreateBg_side win_wd win_ht +
    (if Z.sqrt (win_wd ^ 2 + win_ht ^ 2) * Z.sqrt (win_wd ^ 2 + win_ht ^ 2)
        =? win_wd ^ 2 + win_ht ^ 2 then 0 else 1).
Proof.
  unfold spec_canvas_side, ceil_sqrt, CreateBg_side. cbn zeta.
  destruct (_ =? _); lia.
Qed.

End CreateBgFacts.

(** ** Rotate *)

Section RotateFacts.
Context {E : Type} `{!NumpyElem E, !Trcalc E, !ColorLibs E}.

(** C5 (as amended).  When the requested rotation is within numpy's
    closeness tolerance of 0, Rotate publishes its input unchanged (the
    very same buffer) if the stage is bypassed or the viewer's Y
    inversion is off; with the Y inversion on it publishes the input
    flipped vertically. *)
Theorem Rotate_zero_identity v bypass self prev (w : World E) p l a
    ht wd rest xoff yoff st :
  isclose_zero (get_rotation v) = true →
  get_data p prev = Ok (VArr l) →
  heap w !! l = Some a →
  nd_shape a = ht :: wd :: rest →
  get_pair p "off" = Ok (xoff, yoff) →
  get_state p = Ok st →
  ∃ w' p',
    Rotate_run v bypass self prev w p = Ok (w', p') ∧
    published w' p' self =
      Some (if negb bypass && _invert_y v then flipud a else a) ∧
    (negb bypass && _invert_y v = false →
       w' = w ∧ p_result p' !! self = Some (VArr l)).
Proof.
  intros Hrot Hd Hl Hs Hoff Hst. unfold Rotate_run.
  rewrite Hd. cbn. rewrite Hl, Hs. cbn. rewrite Hrot. cbn.
  destruct bypass, (_invert_y v); cbn.
  all: try (rewrite Hl; cbn; unfold shape2; rewrite Hs; cbn;
            rewrite Hoff; cbn; rewrite Hst; cbn;
            destruct (ctr st) as [ctr_x ctr_y];
            eexists _, _; split; [reflexivity|];
            unfold published; cbn; rewrite lookup_insert_eq;
            split; [done|]; intros _; split; [done|]; done).
  rewrite Hl. cbn. rewrite lookup_insert_eq. cbn.
  unfold shape2, flipud. cbn. rewrite Hs. cbn.
  rewrite Hoff. cbn. rewrite Hst. cbn.
  destruct (ctr st) as [ctr_x ctr_y].
  eexists _, _. split; [reflexivity|].
  unfold published. cbn. rewrite !lookup_insert_eq.
  split; [done|]. discriminate.
Qed.

End RotateFacts.

(** ** The mini-pipeline *)

Section MiniFacts.
Context {E : Type} `{!NumpyElem E, !Trcalc E, !ColorLibs E}.
#[local] Arguments alloc : simpl never.

Lemma get_data_send_eq p i x : get_data (send p i x) (Some i) = Ok x.
Proof. unfold get_data, send. cbn. by rewrite lookup_insert_eq. Qed.

Lemma run_mini_stage_kind v s self prev (w : World E) p :
  run_mini_stage v s self prev w p =
    match kind s with
    | KScale => Scale_run v (_bypass s) self prev w p
    | KReorder => Reorder_run v (_bypass s) self prev w p
    | KCuts => Cuts_run v (_bypass s) self prev w p
    | KRGBMap => RGBMap_run v (_bypass s) self prev w p
    | KMerge => Merge_run v (_bypass s) self prev w p
    | _ => Raise (PyError "NotImplementedError")
    end.
Proof. reflexivity. Qed.

(** A failure of a stage propagates to the caller of the run. *)
Lemma run_from_propagates run1 v idx (w : World E) p s e :
  p_stages p !! idx = Some s →
  run1 v s idx (prev_of idx) w (clear_stop p) = Raise e →
  run_from_with run1 v idx w p = Raise e.
Proof.
  intros Hs Hraise. unfold run_from_with.
  rewrite bool_decide_true by (by eapply lookup_lt_Some).
  rewrite (drop_S _ _ _ Hs). cbn. by rewrite Hraise.
Qed.

(** *** A stage that receives [None] *)

Lemma Reorder_run_None v b self prev (w : World E) p :
  get_data p prev = Ok VNone →
  Reorder_run v b self prev w p = Ok (w, send p self VNone).
Proof. intros Hd. unfold Reorder_run. by rewrite Hd. Qed.

Lemma Cuts_run_None v b self prev (w : World E) p :
  get_data p prev = Ok VNone →
  Cuts_run v b self prev w p = Ok (w, send p self VNone).
Proof. intros Hd. unfold Cuts_run. by rewrite Hd. Qed.

Lemma RGBMap_run_None v b self prev (w : World E) p :
  get_data p prev = Ok VNone →
  RGBMap_run v b self prev w p = Ok (w, send p self VNone).
Proof. intros Hd. unfold RGBMap_run. by rewrite Hd. Qed.

Lemma Merge_run_None v b self prev (w : World E) p :
  get_data p prev = Ok VNone → Merge_run v b self prev w p = Ok (w, p).
Proof. intros Hd. unfold Merge_run. by rewrite Hd. Qed.

Lemma Scale_run_imageless v b self prev (w : World E) p cvs_img :
  get_cvs_img p = Ok cvs_img → ci_image cvs_img = None →
  Scale_run v b self prev w p = Ok (w, send p self VNone).
Proof. intros Hc Hi. unfold Scale_run. rewrite Hc. cbn. by rewrite Hi. Qed.

Lemma norm_pipe_imageless v (w : World E) pipe cvs_img :
  stage_kinds pipe = [KScale; KReorder; KCuts; KRGBMap; KMerge] →
  get_cvs_img pipe = Ok cvs_img → ci_image cvs_img = None →
  mini_run_from v 0 w pipe =
    Ok (w, send (send (send (send (clear_stop pipe) 0 VNone) 1 VNone)
                      2 VNone) 3 VNone).
Proof.
  intros Hk Hc Hi. unfold stage_kinds in Hk.
  destruct (p_stages pipe) as [|s0 [|s1 [|s2 [|s3 [|s4 [|]]]]]] eqn:Hs;
    try discriminate.
  injection Hk as K0 K1 K2 K3 K4.
  unfold mini_run_from, run_from_with. rewrite Hs.
  rewrite bool_decide_true by (cbn; lia).
  cbn [drop run_stages clear_stop p_stop prev_of].
  rewrite run_mini_stage_kind, K0.
  erewrite Scale_run_imageless; [|exact Hc|exact Hi].
  cbn [mbind outcome_bind send p_stop].
  rewrite run_mini_stage_kind, K1.
  rewrite Reorder_run_None by apply get_data_send_eq.
  cbn [mbind outcome_bind send p_stop].
  rewrite run_mini_stage_kind, K2.
  rewrite Cuts_run_None by apply get_data_send_eq.
  cbn [mbind outcome_bind send p_stop].
  rewrite run_mini_stage_kind, K3.
  rewrite RGBMap_run_None by apply get_data_send_eq.
  cbn [mbind outcome_bind send p_stop].
  rewrite run_mini_stage_kind, K4.
  rewrite Merge_run_None by apply get_data_send_eq.
  reflexivity.
Qed.

Lemma image_pipe_imageless v (w : World E) pipe cvs_img :
  stage_kinds pipe = [KScale; KReorder; KMerge] →
  get_cvs_img pipe = Ok cvs_img → ci_image cvs_img = None →
  mini_run_from v 0 w pipe =
    Ok (w, send (send (clear_stop pipe) 0 VNone) 1 VNone).
Proof.
  intros Hk Hc Hi. unfold stage_kinds in Hk.
  destruct (p_stages pipe) as [|s0 [|s1 [|s2 [|]]]] eqn:Hs; try discriminate.
  injection Hk as K0 K1 K2.
  unfold mini_run_from, run_from_with. rewrite Hs.
  rewrite bool_decide_true by (cbn; lia).
  cbn [drop run_stages clear_stop p_stop prev_of].
  rewrite run_mini_stage_kind, K0.
  erewrite Scale_run_imageless; [|exact Hc|exact Hi].
  cbn [mbind outcome_bind send p_stop].
  rewrite run_mini_stage_kind, K1.
  rewrite Reorder_run_None by apply get_data_send_eq.
  cbn [mbind outcome_bind send p_stop].
  rewrite run_mini_stage_kind, K2.
  rewrite Merge_run_None by apply get_data_send_eq.
  reflexivity.
Qed.

Lemma minipipe_setup_spec stages outer cvs_img whence (w : World E) pipe :
  minipipe_setup stages outer cvs_img whence w = Ok pipe →
  get_cvs_img pipe = Ok cvs_img ∧
  p_stages pipe =
    p_stages (default (new_pipeline stages) (minipipe (get_cache w cvs_img))) ∧
  p_result pipe =
    p_result (default (new_pipeline stages) (minipipe (get_cache w cvs_img))) ∧
  p_ctx pipe !! "dstarr" = p_ctx outer !! "dstarr".
Proof.
  unfold minipipe_setup, pipe_get.
  destruct (p_ctx outer !! "state"); [|discriminate]. cbn.
  destruct (p_ctx outer !! "dstarr"); [|discriminate]. cbn.
  intros [= <-]. split; [|split; [done|split; [done|]]].
  - unfold get_cvs_img, pipe_get. cbn.
    rewrite lookup_insert_ne by done. rewrite lookup_insert_ne by done.
    by rewrite lookup_insert_eq.
  - cbn. by rewrite lookup_insert_eq.
Qed.

(** C10.  A mini-pipeline stage that receives [None] from its
    predecessor raises nothing: Reorder, Cuts and RGBMap publish [None]
    and touch nothing else, Merge returns with the world (so the shared
    destination buffer) and the pipeline unchanged.  Hence an imageless
    overlay runs through the whole mini-pipeline, plain or value-mapped,
    without error and without altering any buffer, and an overlay
    cached as invisible is skipped with the buffers unchanged. *)
Theorem None_flows_through_minipipe v (w : World E) :
  (∀ b self prev p,
     get_data p prev = Ok VNone →
     Reorder_run v b self prev w p = Ok (w, send p self VNone) ∧
     Cuts_run v b self prev w p = Ok (w, send p self VNone) ∧
     RGBMap_run v b self prev w p = Ok (w, send p self VNone) ∧
     Merge_run v b self prev w p = Ok (w, p)) ∧
  (∀ pipe cvs_img,
     stage_kinds pipe = stage_kinds (new_pipeline norm_image_stages) ∨
     stage_kinds pipe = stage_kinds (new_pipeline image_stages) →
     get_cvs_img pipe = Ok cvs_img → ci_image cvs_img = None →
     ∃ pipe', mini_run_from v 0 w pipe = Ok (w, pipe') ∧
              p_ctx pipe' = p_ctx pipe) ∧
  (∀ outer cvs_img (norm : bool) whence pipe,
     (0 < whence)%Q →
     visible (get_cache w cvs_img) = false →
     minipipe_setup (if norm then norm_image_stages else image_stages)
                    outer cvs_img whence w = Ok pipe →
     prepare_image v outer cvs_img norm whence w = Ok (commit w cvs_img pipe) ∧
     heap (commit w cvs_img pipe) = heap w).
Proof.
  split; [|split].
  - intros b self prev p Hd.
    by rewrite Reorder_run_None, Cuts_run_None, RGBMap_run_None, Merge_run_None.
  - intros pipe cvs_img [Hk|Hk] Hc Hi.
    + erewrite norm_pipe_imageless by done. by eexists.
    + erewrite image_pipe_imageless by done. by eexists.
  - intros outer cvs_img norm whence pipe Hwh Hvis Hsetup.
    assert (Qle_bool whence 0 = false) as Hgt.
    { destruct (Qle_bool whence 0) eqn:Hle; [|done].
      apply Qle_bool_iff in Hle. exfalso. by eapply Qlt_not_le. }
    split; [|done]. unfold prepare_image. destruct norm.
    + unfold _prepare_norm_image. rewrite Hsetup. cbn. by rewrite Hgt, Hvis.
    + unfold _prepare_image. rewrite Hsetup. cbn. by rewrite Hgt, Hvis.
Qed.

(** *** Scale on an empty intersection *)

Lemma Scale_clip_2d v img (arr : ndarray E) clip :
  Scale_clip v img arr = Ok clip → ¬ (length (nd_shape arr) < 2)%nat.
Proof.
  unfold Scale_clip.
  repeat (match goal with
          | |- context [np_min ?l] => destruct (np_min l); [cbn|discriminate]
          | |- context [np_max ?l] => destruct (np_max l); [cbn|discriminate]
          end).
  destruct (ci_pos img). unfold shape2.
  destruct (nd_shape arr) as [|? [|? ?]]; try discriminate. cbn. lia.
Qed.

Lemma Scale_run_off_screen v bypass self prev (w : World E) p cvs_img image arr
    dst a1 b1 a2 b2 :
  get_cvs_img p = Ok cvs_img →
  ci_image cvs_img = Some image →
  heap w !! img_data image = Some arr →
  Scale_clip v cvs_img arr = Ok (dst, (a1, b1), (a2, b2)) →
  (a2 - a1 <= 0 ∨ b2 - b1 <= 0)%Q →
  Scale_run v bypass self prev w p =
    Ok (set_visible w cvs_img false, stop (send p self VNone)).
Proof.
  intros Hc Hi Hl Hclip Hempty. unfold Scale_run.
  rewrite Hc. cbn. rewrite Hi. cbn. rewrite Hl.
  pose proof (Scale_clip_2d _ _ _ _ Hclip) as H2d.
  destruct (bool_decide_reflect (length (nd_shape arr) < 2)%nat); [done|]. cbn.
  rewrite Hclip. cbn. destruct dst as [dx dy].
  assert (Qle_bool (a2 - a1) 0 || Qle_bool (b2 - b1) 0 = true) as ->; [|done].
  apply orb_true_iff. destruct Hempty as [?|?]; [left|right]; by apply Qle_bool_iff.
Qed.

(** C8.  When the clip of the viewport against the data rectangle of an
    overlay is empty, the Scale stage marks the cache of the object
    invisible, publishes [None] and stops the run of the object's
    mini-pipeline, raising nothing; no later stage of that mini-pipeline
    runs, no buffer changes, and the walk over the canvas goes on with
    the objects that remain. *)
Theorem Scale_empty_intersection v outer cvs_img (norm : bool) whence
    (w : World E) pipe image arr dst a1 b1 a2 b2 s0 later :
  (whence <= 0)%Q →
  minipipe_setup (if norm then norm_image_stages else image_stages)
                 outer cvs_img whence w = Ok pipe →
  p_stages pipe = s0 :: later → kind s0 = KScale →
  ci_image cvs_img = Some image →
  heap w !! img_data image = Some arr →
  Scale_clip v cvs_img arr = Ok (dst, (a1, b1), (a2, b2)) →
  (a2 - a1 <= 0 ∨ b2 - b1 <= 0)%Q →
  let p1 := stop (send (clear_stop pipe) 0 VNone) in
  let w1 := commit (set_visible w cvs_img false) cvs_img p1 in
  Scale_run v (_bypass s0) 0 None w (clear_stop pipe) =
    Ok (set_visible w cvs_img false, p1) ∧
  mini_run_from v 0 w pipe = Ok (set_visible w cvs_img false, p1) ∧
  prepare_image v outer cvs_img norm whence w = Ok w1 ∧
  visible (get_cache w1 cvs_img) = false ∧
  p_result p1 !! 0%nat = Some VNone ∧
  p_stop p1 = true ∧
  heap w1 = heap w ∧
  (∀ objs, _overlay_images v outer whence
             (CompoundObj (ImageObj cvs_img norm :: objs)) w =
           _overlay_images v outer whence (CompoundObj objs) w1).
Proof.
  intros Hwh Hsetup Hst K0 Hi Hl Hclip Hempty p1 w1.
  destruct (minipipe_setup_spec _ _ _ _ _ _ Hsetup) as [Hc _].
  assert (Scale_run v (_bypass s0) 0 None w (clear_stop pipe) =
            Ok (set_visible w cvs_img false, p1)) as HScale.
  { eapply Scale_run_off_screen; eauto. }
  assert (mini_run_from v 0 w pipe = Ok (set_visible w cvs_img false, p1)) as Hrun.
  { unfold mini_run_from, run_from_with. rewrite Hst.
    rewrite bool_decide_true by (cbn; lia).
    cbn [drop run_stages clear_stop p_stop prev_of].
    rewrite run_mini_stage_kind, K0, HScale.
    cbn [mbind outcome_bind]. destruct later; reflexivity. }
  assert (prepare_image v outer cvs_img norm whence w = Ok w1) as Hprep.
  { apply Qle_bool_iff in Hwh.
    unfold prepare_image. destruct norm.
    - unfold _prepare_norm_image. rewrite Hsetup. cbn. rewrite Hwh.
      unfold run_cached. by rewrite Hrun.
    - unfold _prepare_image. rewrite Hsetup. cbn. rewrite Hwh.
      unfold run_cached. by rewrite Hrun. }
  split; [done|]. split; [done|]. split; [done|].
  split. { subst w1. unfold commit, get_cache, put_cache, set_visible. cbn.
           rewrite lookup_insert_eq. cbn. by rewrite lookup_insert_eq. }
  split. { subst p1. cbn. apply lookup_insert_eq. }
  split; [done|]. split; [done|].
  intros objs. cbn. rewrite Hprep. reflexivity.
Qed.

(** *** The entry point of a partial re-run *)


(** What [run_cached] at an index runs: the stages from that index on,
    in order, each with the one before it as predecessor. *)
Lemma run_cached_unfold v cvs_img idx (w : World E) pipe :
  (idx < length (p_stages pipe))%nat →
  run_cached v cvs_img idx w pipe =
    ('(w, pipe) ← run_stages run_mini_stage v (drop idx (p_stages pipe)) idx w
                             (clear_stop pipe);
     Ok (commit w cvs_img pipe)).
Proof.
  intros Hlt. unfold run_cached, mini_run_from, run_from_with.
  by rewrite bool_decide_true.
Qed.

(** *** Reorder *)



End MiniFacts.

(** ** The parameter mutators of the interactive RGBMap stage *)

Section MutatorFacts.
Import RGBMapStage.
Variables (cmap_get_names imap_get_names : list string).
Variable float_str : Q → string.

Lemma appended_two pl a e1 e2 tr :
  tr = (trace pl ++ [e1]) ++ [e2] →
  appended pl (mkPipeline a (S (length (take (cursor pl) (actions pl)))) tr)
    = [e1; e2].
Proof.
  intros ->. unfold appended. cbn. rewrite <- app_assoc. by rewrite drop_app_length.
Qed.

Lemma gui_update_keeps s wdg x key val s' :
  gui_update s wdg x key val = Ok s' →
  stage_id s' = stage_id s ∧ params s' = params s.
Proof.
  unfold gui_update. destruct (rgbmap s); [|discriminate]. by intros [= <-].
Qed.

Ltac setter_tac H :=
  cbn in H;
  match type of H with
  | (if gui_up ?s then _ else _) = Ok _ =>
      destruct (gui_up s);
      [ repeat match type of H with
               | (list_index ?v ?l ≫= _) = _ =>
                   destruct (list_index v l); [cbn in H|discriminate H]
               end;
        apply gui_update_keeps in H as [? ?]; cbn in *; split; congruence
      | injection H as <-; split; reflexivity ]
  end.

Lemma set_cmap_name_spec val s s' :
  set_cmap_name val s = Ok s' →
  stage_id s' = stage_id s ∧
  params s' = mkParams (_calg_name (params s)) val (_imap_name (params s))
                (_invert_cmap (params s)) (_rotate_cmap_pct (params s))
                (_contrast (params s)) (_brightness (params s)).
Proof. unfold set_cmap_name. intros Hs. setter_tac Hs. Qed.

Lemma set_imap_name_spec val s s' :
  set_imap_name val s = Ok s' →
  stage_id s' = stage_id s ∧
  params s' = mkParams (_calg_name (params s)) (_cmap_name (params s)) val
                (_invert_cmap (params s)) (_rotate_cmap_pct (params s))
                (_contrast (params s)) (_brightness (params s)).
Proof. unfold set_imap_name. intros Hs. setter_tac Hs. Qed.

Lemma set_calg_name_spec val s s' :
  set_calg_name val s = Ok s' →
  stage_id s' = stage_id s ∧
  params s' = mkParams val (_cmap_name (params s)) (_imap_name (params s))
                (_invert_cmap (params s)) (_rotate_cmap_pct (params s))
                (_contrast (params s)) (_brightness (params s)).
Proof. unfold set_calg_name. intros Hs. setter_tac Hs. Qed.

Lemma set_invert_cmap_spec val s s' :
  set_invert_cmap val s = Ok s' →
  stage_id s' = stage_id s ∧
  params s' = mkParams (_calg_name (params s)) (_cmap_name (params s))
                (_imap_name (params s)) val (_rotate_cmap_pct (params s))
                (_contrast (params s)) (_brightness (params s)).
Proof. unfold set_invert_cmap. intros Hs. setter_tac Hs. Qed.

Lemma set_rotate_cmap_spec val s s' :
  set_rotate_cmap val s = Ok s' →
  stage_id s' = stage_id s ∧
  params s' = mkParams (_calg_name (params s)) (_cmap_name (params s))
                (_imap_name (params s)) (_invert_cmap (params s)) val
                (_contrast (params s)) (_brightness (params s)).
Proof. unfold set_rotate_cmap. intros Hs. setter_tac Hs. Qed.

Lemma set_contrast_spec val s s' :
  set_contrast val s = Ok s' →
  stage_id s' = stage_id s ∧
  params s' = mkParams (_calg_name (params s)) (_cmap_name (params s))
                (_imap_name (params s)) (_invert_cmap (params s))
                (_rotate_cmap_pct (params s)) val (_brightness (params s)).
Proof. unfold set_contrast. intros Hs. setter_tac Hs. Qed.

Lemma set_brightness_spec val s s' :
  set_brightness val s = Ok s' →
  stage_id s' = stage_id s ∧
  params s' = mkParams (_calg_name (params s)) (_cmap_name (params s))
                (_imap_name (params s)) (_invert_cmap (params s))
                (_rotate_cmap_pct (params s)) (_contrast (params s)) val.
Proof. unfold set_brightness. intros Hs. setter_tac Hs. Qed.

Ltac finish_cb Hid Hps :=
  intros [= <- <-]; rewrite Hid, Hps; unfold property; cbn;
  do 3 eexists; split; [reflexivity|]; split; [reflexivity|];
  split; [reflexivity|]; split; [by apply appended_two|reflexivity].

(** Every mutator that changes a property of the stage pushes exactly
    one action, which records the stage, the old and the new value of
    the property and a description, and then re-runs the pipeline from
    the stage. *)
Lemma mutator_pushes_one_action m s pl s' pl' key :
  mutated_key m = Some key →
  invoke cmap_get_names imap_get_names float_str m s pl = Ok (s', pl') →
  ∃ old new descr,
    property key (params s) = Some old ∧
    property key (params s') = Some new ∧
    stage_id s' = stage_id s ∧
    let act := mkStageAction (stage_id s) {[key := old]} {[key := new]} descr in
    appended pl pl' = [EvPush act; EvRunFrom (stage_id s)] ∧
    actions pl' = take (cursor pl) (actions pl) ++ [act].
Proof.
  destruct m; intros [= <-]; cbn [invoke].
  - unfold set_cmap_cb. destruct (list_item _ _) as [name|]; [|discriminate]. cbn.
    destruct (set_cmap_name name s) as [s1|] eqn:Hs1; [|discriminate]. cbn.
    apply set_cmap_name_spec in Hs1 as [Hid Hps]. finish_cb Hid Hps.
  - unfold set_imap_cb. destruct (list_item _ _) as [name|]; [|discriminate]. cbn.
    destruct (set_imap_name name s) as [s1|] eqn:Hs1; [|discriminate]. cbn.
    apply set_imap_name_spec in Hs1 as [Hid Hps]. finish_cb Hid Hps.
  - unfold set_calg_cb. destruct (list_item _ _) as [name|]; [|discriminate]. cbn.
    destruct (set_calg_name name s) as [s1|] eqn:Hs1; [|discriminate]. cbn.
    apply set_calg_name_spec in Hs1 as [Hid Hps]. finish_cb Hid Hps.
  - unfold invert_cmap_cb.
    destruct (set_invert_cmap tf s) as [s1|] eqn:Hs1; [|discriminate]. cbn.
    apply set_invert_cmap_spec in Hs1 as [Hid Hps]. finish_cb Hid Hps.
  - unfold rotate_cmap_cb.
    destruct (set_rotate_cmap _ s) as [s1|] eqn:Hs1; [|discriminate]. cbn.
    apply set_rotate_cmap_spec in Hs1 as [Hid Hps]. finish_cb Hid Hps.
  - unfold contrast_set_cb.
    destruct (set_contrast _ s) as [s1|] eqn:Hs1; [|discriminate]. cbn.
    apply set_contrast_spec in Hs1 as [Hid Hps]. finish_cb Hid Hps.
  - unfold brightness_set_cb.
    destruct (set_brightness _ s) as [s1|] eqn:Hs1; [|discriminate]. cbn.
    apply set_brightness_spec in Hs1 as [Hid Hps]. finish_cb Hid Hps.
Qed.

(** [copy_from_viewer_cb] changes the mapper's settings and re-runs the
    pipeline, and pushes no action. *)
Lemma copy_from_viewer_cb_trace s pl s' pl' :
  copy_from_viewer_cb s pl = Ok (s', pl') →
  actions pl' = actions pl ∧ cursor pl' = cursor pl ∧
  appended pl pl' = [EvRunFrom (stage_id s)] ∧
  params s' = params s.
Proof.
  unfold copy_from_viewer_cb.
  destruct (viewer s), (rgbmap s); try discriminate. intros [= <- <-].
  repeat split. unfold appended. cbn. by rewrite drop_app_length.
Qed.

End MutatorFacts.

(** ** What a stage does to the buffers it did not allocate *)

(** One step through the body of a stage that ran to completion: the
    head of the computation in [H] is split into its cases, the ones
    that raise are discharged. *)
Ltac step H :=
  match type of H with
  | Ok _ = Ok _ => injection H as <- <-
  | mbind _ ?m = Ok _ => destruct m as [?|] eqn:?; [cbn in H | discriminate H]
  | (let '(_, _) := ?x in _) = Ok _ => destruct x as [? ?] eqn:?; cbn in H
  | (if ?b then _ else _) = Ok _ => destruct b eqn:?; try discriminate H; cbn in H
  | match ?x with _ => _ end = Ok _ => destruct x eqn:?; try discriminate H; cbn in H
  end.

Ltac steps :=
  repeat match goal with
         | H : _ = Ok (_, _) |- _ => step H
         | H : _ = Ok (_, _, _) |- _ => step H
         | H : _ = Ok (_, _, _, _) |- _ => step H
         end.

(** Follow the allocations back from the final world to the initial one. *)
Ltac chain :=
  repeat match goal with
  | |- heap_extends ?w ?w => apply heap_extends_refl
  | H : alloc ?w0 _ = (_, ?w1) |- heap_extends _ ?w1 =>
      apply (heap_extends_trans _ w0); [|exact (alloc_extends _ _ _ _ H)]
  | H : alloc ?w0 _ = (?l, ?w1) |- heap_extends _ (store ?w1 ?l _) =>
      apply (heap_extends_trans _ w0);
      [|exact (alloc_store_extends _ _ _ _ _ H)]
  | |- heap_extends _ (set_visible ?w0 _ _) =>
      apply (heap_extends_trans _ w0); [|by apply same_heap_extends]
  end.

Section FrameFacts.
Context {E : Type} `{!NumpyElem E, !Trcalc E, !ColorLibs E}.
#[local] Arguments alloc : simpl never.
#[local] Arguments store : simpl never.
#[local] Arguments as_array : simpl never.
#[local] Arguments verify_2d : simpl never.
#[local] Arguments get_data : simpl never.
#[local] Arguments get_state : simpl never.
#[local] Arguments get_pair : simpl never.
#[local] Arguments get_qpair : simpl never.
#[local] Arguments get_cvs_img : simpl never.
#[local] Arguments get_arr_handle : simpl never.
#[local] Arguments pipe_get : simpl never.
#[local] Arguments reorder_image : simpl never.
#[local] Arguments make_filled_array : simpl never.
#[local] Arguments slice2 : simpl never.
#[local] Arguments shape2 : simpl never.
#[local] Arguments shape3 : simpl never.
#[local] Arguments take_band : simpl never.
#[local] Arguments bands_upto : simpl never.
#[local] Arguments insert_zero_band : simpl never.
#[local] Arguments assign_band : simpl never.
#[local] Arguments Scale_clip : simpl never.
#[local] Arguments set_visible : simpl never.
#[local] Arguments set_drawn : simpl never.
#[local] Arguments send : simpl never.
#[local] Arguments pipe_set : simpl never.
#[local] Arguments stop : simpl never.

Lemma CreateBg_run_frame v b self prev (w w' : World E) p p' :
  CreateBg_run v b self prev w p = Ok (w', p') → heap_extends w w'.
Proof. unfold CreateBg_run. intros Hrun. steps; chain. Qed.

Lemma FlipSwap_run_frame v b self prev (w w' : World E) p p' :
  FlipSwap_run v b self prev w p = Ok (w', p') → heap_extends w w'.
Proof. unfold FlipSwap_run. intros Hrun. steps; chain. Qed.

Lemma Rotate_run_frame v b self prev (w w' : World E) p p' :
  Rotate_run v b self prev w p = Ok (w', p') → heap_extends w w'.
Proof. unfold Rotate_run. intros Hrun. steps; chain. Qed.

Lemma Output_run_frame v b self prev (w w' : World E) p p' :
  Output_run v b self prev w p = Ok (w', p') → heap_extends w w'.
Proof. unfold Output_run. intros Hrun. steps; chain. Qed.

Lemma ICCProf_run_frame v b self prev (w w' : World E) p p' :
  ICCProf_run v b self prev w p = Ok (w', p') → heap_extends w w'.
Proof.
  unfold ICCProf_run. intros Hrun. steps; chain.
  match goal with H : _ = (?w0, _) |- _ => rename H into Hc end.
  destruct (as_array w _); [|injection Hc as <- <-; chain].
  destruct (convert_profile_fromto _ _ _ _ _ _ _); [|injection Hc as <- <-; chain].
  destruct (alloc w _) eqn:?. injection Hc as <- <-. chain.
Qed.

(** Effects of the mini stages *)
Lemma results_avoid_send p i x l :
  x ≠ VArr l → results_avoid p l → results_avoid (send p i x) l.
Proof.
  intros Hx Hp j. unfold send. cbn.
  destruct (decide (i = j)) as [->|Hne].
  - rewrite lookup_insert_eq. congruence.
  - rewrite lookup_insert_ne by done. apply Hp.
Qed.

Lemma results_avoid_get_data p prev x l :
  results_avoid p l → get_data p prev = Ok x → x ≠ VArr l.
Proof.
  intros Hp. unfold get_data. destruct prev as [i|]; [|discriminate].
  intros [= <-]. specialize (Hp i). destruct (p_result p !! i); cbn; congruence.
Qed.

Lemma alloc_handle_ne (w w1 : World E) x l1 l a :
  alloc w x = (l1, w1) → heap w !! l = Some a → VArr l1 ≠ VArr l.
Proof. intros (Hf & _)%alloc_spec Hl [= ->]. congruence. Qed.

Lemma caches_avoid_same (w w1 : World E) l :
  caches w1 = caches w → caches_avoid w l → caches_avoid w1 l.
Proof. intros Hc Hw id c pipe. rewrite Hc. apply Hw. Qed.

Lemma caches_avoid_set_visible (w : World E) c b l :
  caches_avoid w l → caches_avoid (set_visible w c b) l.
Proof.
  intros Hw id c' pipe. unfold set_visible, put_cache, get_cache. cbn.
  destruct (decide (ci_id c = id)) as [<-|Hne].
  - rewrite lookup_insert_eq. intros [= <-]. cbn.
    destruct (caches w !! ci_id c) as [c0|] eqn:Hc0; cbn; [|discriminate].
    intros Hm. exact (Hw _ _ _ Hc0 Hm).
  - rewrite lookup_insert_ne by done. apply Hw.
Qed.

Lemma caches_avoid_set_drawn (w : World E) c b l :
  caches_avoid w l → caches_avoid (set_drawn w c b) l.
Proof.
  intros Hw id c' pipe. unfold set_drawn, put_cache, get_cache. cbn.
  destruct (decide (ci_id c = id)) as [<-|Hne].
  - rewrite lookup_insert_eq. intros [= <-]. cbn.
    destruct (caches w !! ci_id c) as [c0|] eqn:Hc0; cbn; [|discriminate].
    intros Hm. exact (Hw _ _ _ Hc0 Hm).
  - rewrite lookup_insert_ne by done. apply Hw.
Qed.

Lemma caches_avoid_commit (w : World E) c pipe l :
  results_avoid pipe l → caches_avoid w l → caches_avoid (commit w c pipe) l.
Proof.
  intros Hp Hw id c' pipe'. unfold commit, put_cache, get_cache. cbn.
  destruct (decide (ci_id c = id)) as [<-|Hne].
  - rewrite lookup_insert_eq. intros [= <-]. cbn. by intros [= <-].
  - rewrite lookup_insert_ne by done. apply Hw.
Qed.


Lemma get_arr_handle_ctx p key d :
  get_arr_handle p key = Ok d → p_ctx p !! key = Some (VArr d).
Proof.
  unfold get_arr_handle, pipe_get. destruct (p_ctx p !! key) as [[]|]; cbn; try discriminate.
  by intros [= ->].
Qed.

Lemma pipe_get_ctx p key x : pipe_get p key = Ok x → p_ctx p !! key = Some x.
Proof. unfold pipe_get. destruct (p_ctx p !! key); [|discriminate]. by intros [= ->]. Qed.

Lemma as_array_VArr (w : World E) l a :
  as_array w (VArr l) = Ok a → heap w !! l = Some a.
Proof. unfold as_array. destruct (heap w !! l); [|discriminate]. by intros [= ->]. Qed.

Lemma as_array_inv (w : World E) x a :
  as_array w x = Ok a → ∃ l, x = VArr l ∧ heap w !! l = Some a.
Proof.
  destruct x; try discriminate. intros Ha. eexists. split; [done|]. by apply as_array_VArr.
Qed.

Lemma store_lookup_ne (w : World E) l l0 x :
  l0 ≠ l → heap (store w l0 x) !! l = heap w !! l.
Proof. intros Hne. unfold store. cbn. by rewrite lookup_insert_ne. Qed.

Lemma store_lookup_eq (w : World E) l x :
  heap (store w l x) !! l = Some x.
Proof. unfold store. cbn. by rewrite lookup_insert_eq. Qed.

Lemma Merge_run_heap v b self prev (w w' : World E) p p' l a :
  Merge_run v b self prev w p = Ok (w', p') →
  heap w !! l = Some a →
  p_ctx p !! "dstarr" ≠ Some (VArr l) →
  p' = p ∧
  (∀ l', caches_avoid w l' → caches_avoid w' l') ∧
  (heap w' !! l = Some a ∨
   (get_data p prev = Ok (VArr l) ∧
    ∃ st a_idx la al new ht wd,
      get_state p = Ok st ∧
      str_index chr_A (order st) = Some a_idx ∧
      nd_shape a = [ht; wd; 4%nat] ∧
      p_ctx p !! "alpha" = Some (VArr la) ∧
      heap w !! la = Some al ∧
      assign_band a_idx (array_convert al (nd_dtype a)) a = Ok new ∧
      heap w' !! l = Some new)).
Proof.
  unfold Merge_run. intros Hrun Hl Hdst.
  destruct (get_data p prev) as [rgbarr|] eqn:Hd; [cbn in Hrun|discriminate].
  destruct (is_None rgbarr) eqn:Hn.
  { injection Hrun as <- <-. split; [done|]. split; [done|]. by left. }
  destruct (verify_2d w rgbarr); [cbn in Hrun|discriminate].
  destruct (as_array w rgbarr) as [rgb|] eqn:Hrgb; [cbn in Hrun|discriminate].
  destruct (nd_shape rgb) as [|h0 [|w0 [|depth [|]]]] eqn:Hshape; try discriminate.
  case_bool_decide as Hdepth; [discriminate|].
  destruct (get_cvs_img p) as [cvs_img|]; [cbn in Hrun|discriminate].
  destruct (get_qpair p "offset") as [[off_x off_y]|]; [cbn in Hrun|discriminate].
  destruct (get_arr_handle p "dstarr") as [d|] eqn:Hdh; [cbn in Hrun|discriminate].
  destruct (get_state p) as [st|] eqn:Hst; [cbn in Hrun|discriminate].
  destruct (as_array w (VArr d)) as [dst|]; [cbn in Hrun|discriminate].
  destruct (shape3 dst) as [[[ht wd] dp]|]; [cbn in Hrun|discriminate].
  destruct (pipe_get p "alpha") as [alpha|] eqn:Halpha; [cbn in Hrun|discriminate].
  assert (d ≠ l) as Hdl.
  { intros ->. apply Hdst. by apply get_arr_handle_ctx. }
  match type of Hrun with
  | mbind _ ?blk = _ => destruct blk as [[w1 rgbarr1]|] eqn:Hblk; [cbn in Hrun|discriminate]
  end.
  destruct (as_array w1 rgbarr1) as [rgb1|]; [cbn in Hrun|discriminate].
  destruct (as_array w1 (VArr d)) as [dst1|]; [cbn in Hrun|discriminate].
  injection Hrun as <- <-. split; [done|].
  assert (caches w1 = caches w ∧
          (heap w1 !! l = Some a ∨
           (rgbarr = VArr l ∧
            ∃ a_idx la al new,
              str_index chr_A (order st) = Some a_idx ∧
              depth = 4%nat ∧
              alpha = VArr la ∧ heap w !! la = Some al ∧
              assign_band a_idx (array_convert al (nd_dtype a)) a = Ok new ∧
              heap w1 !! l = Some new))) as [Hc Hheap].
  { destruct (str_index chr_A (order st)) as [a_idx|] eqn:HA;
      [|injection Hblk as <- <-; split; [done|by left]].
    destruct (is_None alpha) eqn:Hna; cbn in Hblk;
      [injection Hblk as <- <-; split; [done|by left]|].
    case_bool_decide as Hd4; cbn in Hblk.
    - destruct (insert_zero_band a_idx rgb) as [ins|]; [cbn in Hblk|discriminate].
      destruct (alloc w ins) as [l2 w2] eqn:Hal. cbn in Hblk.
      destruct (as_array w2 (VArr l2)) as [rgb2|]; [cbn in Hblk|discriminate].
      destruct (as_array w2 alpha) as [al|]; [cbn in Hblk|discriminate].
      destruct (assign_band _ _ rgb2) as [new|]; [cbn in Hblk|discriminate].
      injection Hblk as <- <-. split.
      + apply alloc_spec in Hal as (_ & _ & Hc). done.
      + left. by apply (alloc_store_extends _ _ _ _ _ Hal).
    - rewrite Hrgb in Hblk. cbn in Hblk.
      destruct (as_array w alpha) as [al|] eqn:Hal; [cbn in Hblk|discriminate].
      destruct (assign_band _ _ rgb) as [new|] eqn:Hnew; [cbn in Hblk|discriminate].
      destruct rgbarr as [|lr| | | | | |]; try discriminate.
      injection Hblk as <- <-. split; [done|].
      apply as_array_VArr in Hrgb.
      destruct (decide (lr = l)) as [->|Hne].
      + right. split; [done|].
        assert (rgb = a) as -> by congruence.
        apply as_array_inv in Hal as (la & -> & Hla).
        exists a_idx, la, al, new. repeat split; try done.
        * apply store_lookup_eq.
      + left. by rewrite store_lookup_ne. }
  split.
  - intros l' Hw. apply caches_avoid_set_drawn.
    eapply caches_avoid_same; [|exact Hw]. by rewrite <- Hc.
  - assert (∀ x, heap (set_drawn (store w1 d x) cvs_img true) !! l = heap w1 !! l)
      as Hfin by (intros x; unfold set_drawn; cbn; by apply store_lookup_ne).
    destruct Hheap as [Hh|(-> & a_idx & la & al & new & HA & -> & -> & Hla & Hnew & Hh)].
    + left. by rewrite Hfin.
    + right. split; [done|]. exists st, a_idx, la, al, new, h0, w0.
      apply as_array_VArr in Hrgb. assert (rgb = a) as -> by congruence.
      repeat split; try done.
      * by apply pipe_get_ctx.
      * by rewrite Hfin.
Qed.

Lemma results_avoid_pipe_set p k x l :
  results_avoid p l → results_avoid (pipe_set p k x) l.
Proof. done. Qed.

Lemma results_avoid_stop p l : results_avoid p l → results_avoid (stop p) l.
Proof. done. Qed.

Lemma caches_avoid_alloc (w w1 : World E) x l1 l :
  alloc w x = (l1, w1) → caches_avoid w l → caches_avoid w1 l.
Proof. intros (_ & _ & Hc)%alloc_spec. by apply caches_avoid_same. Qed.

Lemma ctx_send p i x k : p_ctx (send p i x) !! k = p_ctx p !! k.
Proof. done. Qed.

Lemma ctx_stop p k : p_ctx (stop p) !! k = p_ctx p !! k.
Proof. done. Qed.

Lemma ctx_pipe_set_ne p k0 x k :
  k0 ≠ k → p_ctx (pipe_set p k0 x) !! k = p_ctx p !! k.
Proof. intros Hne. unfold pipe_set. cbn. by rewrite lookup_insert_ne. Qed.

(** A published value is not the buffer to keep: it is [None], or what
    the predecessor published, or a buffer allocated by the stage. *)
Ltac avoid_side Hl Hp :=
  first
    [ discriminate
    | eapply results_avoid_get_data; [exact Hp|eassumption]
    | eapply alloc_handle_ne; [eassumption|];
      match goal with
      | |- heap ?w0 !! _ = Some _ =>
          refine ((_ : heap_extends _ w0) _ _ Hl); chain
      end ].

(** The four parts of [mini_effect], for a stage that was stepped
    through. *)
Ltac effect_tac :=
  split; [chain|];
  split;
  [ repeat first [rewrite ctx_send | rewrite ctx_stop
                 | rewrite ctx_pipe_set_ne by done]; reflexivity |];
  split;
  [ let l := fresh "l" in let a := fresh "a" in
    let Hl := fresh "Hl" in let Hp := fresh "Hp" in
    intros l a Hl Hp;
    repeat match goal with
           | |- results_avoid (send _ _ _) _ =>
               apply results_avoid_send; [avoid_side Hl Hp|]
           | |- results_avoid (stop _) _ => apply results_avoid_stop
           | |- results_avoid (pipe_set _ _ _) _ => apply results_avoid_pipe_set
           | |- _ => exact Hp
           end
  | let l := fresh "l" in let Hc := fresh "Hc" in
    intros l Hc;
    repeat match goal with
           | |- caches_avoid (set_visible _ _ _) _ => apply caches_avoid_set_visible
           | H : alloc _ _ = (_, ?w1) |- caches_avoid ?w1 _ =>
               apply (caches_avoid_alloc _ _ _ _ _ H)
           | |- _ => exact Hc
           end ].

Lemma Cuts_run_effect v b self prev (w w' : World E) p p' :
  Cuts_run v b self prev w p = Ok (w', p') → mini_effect self w w' p p'.
Proof. unfold Cuts_run, mini_effect. intros Hrun. steps; effect_tac. Qed.

Lemma RGBMap_run_effect v b self prev (w w' : World E) p p' :
  RGBMap_run v b self prev w p = Ok (w', p') → mini_effect self w w' p p'.
Proof. unfold RGBMap_run, mini_effect. intros Hrun. steps; effect_tac. Qed.

Lemma Scale_run_effect v b self prev (w w' : World E) p p' :
  Scale_run v b self prev w p = Ok (w', p') → mini_effect self w w' p p'.
Proof. unfold Scale_run, mini_effect. intros Hrun. steps; effect_tac. Qed.

Lemma Reorder_run_effect v b self prev (w w' : World E) p p' :
  Reorder_run v b self prev w p = Ok (w', p') → mini_effect self w w' p p'.
Proof. unfold Reorder_run, mini_effect. intros Hrun. steps; effect_tac. Qed.

Lemma mini_effect_clean self (w w' : World E) p p' l a :
  mini_effect self w w' p p' → clean l a w p → clean l a w' p'.
Proof.
  intros (Hh & Hctx & Hres & Hca) (Hl & Hp & Hd & Hc).
  split; [by apply Hh|]. split; [by eapply Hres|].
  split; [by rewrite Hctx|]. by apply Hca.
Qed.

Lemma run_mini_stage_clean v s self prev (w w' : World E) p p' l a :
  run_mini_stage v s self prev w p = Ok (w', p') →
  clean l a w p → clean l a w' p'.
Proof.
  rewrite run_mini_stage_kind. intros Hrun Hclean.
  destruct (kind s); try discriminate.
  - eapply mini_effect_clean; [|done]. by eapply Scale_run_effect.
  - eapply mini_effect_clean; [|done]. by eapply Reorder_run_effect.
  - destruct Hclean as (Hl & Hp & Hd & Hc).
    destruct (Merge_run_heap _ _ _ _ _ _ _ _ _ _ Hrun Hl Hd)
      as (-> & Hca & [Hh|[Hgd _]]).
    + split; [done|]. split; [done|]. split; [done|]. by apply Hca.
    + exfalso. by eapply results_avoid_get_data.
  - eapply mini_effect_clean; [|done]. by eapply Cuts_run_effect.
  - eapply mini_effect_clean; [|done]. by eapply RGBMap_run_effect.
Qed.

Lemma run_stages_clean v stages idx (w w' : World E) p p' l a :
  run_stages run_mini_stage v stages idx w p = Ok (w', p') →
  clean l a w p → clean l a w' p'.
Proof.
  revert idx w p. induction stages as [|s stages IH]; intros idx w p; cbn.
  - by intros [= <- <-].
  - destruct (p_stop p); [by intros [= <- <-]|].
    destruct (run_mini_stage v s idx (prev_of idx) w p) as [[w1 p1]|] eqn:Hs;
      [cbn|discriminate].
    intros Hrest Hclean. eapply IH; [exact Hrest|].
    by eapply run_mini_stage_clean.
Qed.

Lemma run_cached_clean v cvs_img idx (w w' : World E) pipe l a :
  run_cached v cvs_img idx w pipe = Ok w' →
  clean l a w pipe →
  heap w' !! l = Some a ∧ caches_avoid w' l.
Proof.
  unfold run_cached, mini_run_from, run_from_with.
  case_bool_decide; [|discriminate].
  destruct (run_stages _ _ _ _ _ _) as [[w1 p1]|] eqn:Hrun; [cbn|discriminate].
  intros [= <-] Hclean.
  apply run_stages_clean with (l := l) (a := a) in Hrun as (Hl & Hp & _ & Hc);
    [|exact Hclean].
  split; [done|]. by apply caches_avoid_commit.
Qed.

Lemma minipipe_setup_clean stages outer cvs_img whence (w : World E) pipe l a :
  minipipe_setup stages outer cvs_img whence w = Ok pipe →
  heap w !! l = Some a →
  p_ctx outer !! "dstarr" ≠ Some (VArr l) →
  caches_avoid w l →
  clean l a w pipe.
Proof.
  intros (_ & _ & Hres & Hctx)%minipipe_setup_spec Hl Hd Hc.
  split; [done|]. split; [|split; [by rewrite Hctx|done]].
  intros i. rewrite Hres. unfold get_cache.
  destruct (caches w !! ci_id cvs_img) as [c|] eqn:Hcache; cbn.
  - destruct (minipipe c) as [pp|] eqn:Hpp; cbn.
    + by apply (Hc _ _ _ Hcache Hpp).
    + by rewrite lookup_empty.
  - by rewrite lookup_empty.
Qed.

Lemma prepare_image_clean v outer cvs_img (norm : bool) whence
    (w w' : World E) l a :
  prepare_image v outer cvs_img norm whence w = Ok w' →
  heap w !! l = Some a →
  p_ctx outer !! "dstarr" ≠ Some (VArr l) →
  caches_avoid w l →
  heap w' !! l = Some a ∧ caches_avoid w' l.
Proof.
  intros Hprep Hl Hd Hc. unfold prepare_image in Hprep.
  destruct norm.
  - unfold _prepare_norm_image in Hprep.
    destruct (minipipe_setup _ _ _ _ _) as [pipe|] eqn:Hsetup; [cbn in Hprep|discriminate].
    pose proof (minipipe_setup_clean _ _ _ _ _ _ _ _ Hsetup Hl Hd Hc) as Hclean.
    repeat match type of Hprep with
           | (if ?b then _ else _) = _ => destruct b
           end;
      try (by eapply run_cached_clean).
    injection Hprep as <-. split; [done|].
    apply caches_avoid_commit; [|done]. apply Hclean.
  - unfold _prepare_image in Hprep.
    destruct (minipipe_setup _ _ _ _ _) as [pipe|] eqn:Hsetup; [cbn in Hprep|discriminate].
    pose proof (minipipe_setup_clean _ _ _ _ _ _ _ _ Hsetup Hl Hd Hc) as Hclean.
    repeat match type of Hprep with
           | (if ?b then _ else _) = _ => destruct b
           end;
      try (by eapply run_cached_clean).
    injection Hprep as <-. split; [done|].
    apply caches_avoid_commit; [|done]. apply Hclean.
Qed.

Lemma CanvasObj_nested_ind (P : CanvasObj → Prop) :
  (∀ cvs_img norm, P (ImageObj cvs_img norm)) →
  (∀ objs, Forall P objs → P (CompoundObj objs)) →
  P DrawObj →
  ∀ canvas, P canvas.
Proof.
  intros Himg Hcomp Hdraw.
  exact (fix rec (canvas : CanvasObj) : P canvas :=
           match canvas with
           | ImageObj cvs_img norm => Himg cvs_img norm
           | CompoundObj objs =>
               Hcomp objs
                 ((fix all (l : list CanvasObj) : Forall P l :=
                     match l with
                     | [] => @List.Forall_nil _ P
                     | obj :: rest => @List.Forall_cons _ P obj rest (rec obj) (all rest)
                     end) objs)
           | DrawObj => Hdraw
           end).
Qed.

Lemma overlay_images_clean v outer whence canvas (w w' : World E) l a :
  _overlay_images v outer whence canvas w = Ok w' →
  heap w !! l = Some a →
  p_ctx outer !! "dstarr" ≠ Some (VArr l) →
  caches_avoid w l →
  heap w' !! l = Some a ∧ caches_avoid w' l.
Proof.
  intros Hrun Hl Hd Hc. revert w w' Hrun Hl Hc.
  induction canvas as [cvs_img norm|objs IH|] using CanvasObj_nested_ind;
    intros w w'; cbn.
  - intros [= <-]. done.
  - revert w. induction IH as [|obj objs Hobj _ IHobjs]; intros w.
    + intros [= <-]. done.
    + destruct obj as [cvs_img norm|sub|].
      * destruct (prepare_image _ _ _ _ _ _) as [w1|] eqn:Hprep; [cbn|discriminate].
        intros Hrest Hl Hc.
        destruct (prepare_image_clean _ _ _ _ _ _ _ _ _ Hprep Hl Hd Hc).
        by eapply IHobjs.
      * destruct (_overlay_images v outer whence (CompoundObj sub) w) as [w1|] eqn:Hsub;
          [cbn|discriminate].
        intros Hrest Hl Hc.
        destruct (Hobj _ _ Hsub Hl Hc). by eapply IHobjs.
      * cbn. apply IHobjs.
  - intros [= <-]. done.
Qed.

Lemma Overlays_run_frame v b self prev (w w' : World E) p p' l a :
  Overlays_run v b self prev w p = Ok (w', p') →
  heap w !! l = Some a →
  caches_avoid w l →
  heap w' !! l = Some a.
Proof.
  unfold Overlays_run. intros Hrun Hl Hc.
  destruct (get_num p "whence") as [whence|]; [cbn in Hrun|discriminate].
  destruct (get_data p (Some self)) as [dstarr|]; [cbn in Hrun|discriminate].
  destruct (_ && _); [by injection Hrun as <- <-|].
  destruct (get_data p prev) as [bgarr|]; [cbn in Hrun|discriminate].
  destruct (verify_2d w bgarr); [cbn in Hrun|discriminate].
  destruct (np_copy w bgarr) as [copy|]; [cbn in Hrun|discriminate].
  destruct (alloc w copy) as [l1 w1] eqn:Hal.
  destruct (_overlay_images _ _ _ _ _) as [w2|] eqn:Hov; [cbn in Hrun|discriminate].
  injection Hrun as <- <-.
  eapply overlay_images_clean in Hov as [Hl2 _]; [done|..].
  - by eapply alloc_lookup_old.
  - unfold pipe_set. cbn. rewrite lookup_insert_eq. intros [= <-].
    apply alloc_spec in Hal as (Hf & _). congruence.
  - by eapply caches_avoid_alloc.
Qed.

Lemma run_mini_stage_input v s self prev (w w' : World E) p p' l a :
  kind s ≠ KMerge →
  run_mini_stage v s self prev w p = Ok (w', p') →
  heap w !! l = Some a → heap w' !! l = Some a.
Proof.
  rewrite run_mini_stage_kind. intros Hk Hrun Hl.
  destruct (kind s); try discriminate; try done.
  - by apply (Scale_run_effect _ _ _ _ _ _ _ _ Hrun).
  - by apply (Reorder_run_effect _ _ _ _ _ _ _ _ Hrun).
  - by apply (Cuts_run_effect _ _ _ _ _ _ _ _ Hrun).
  - by apply (RGBMap_run_effect _ _ _ _ _ _ _ _ Hrun).
Qed.

(** C3 (as amended).  Running a stage leaves the buffer it received from
    its predecessor unchanged, whatever the stage (Rotate copies before
    it rotates in place, Overlays composites into a private copy), with
    one exception: when Merge re-attaches a split-off alpha band to a
    raster that already has four bands, it overwrites band [a_idx] of
    the received raster in place.  Nothing is asked of the other stages;
    for Merge the shared destination is taken to be a buffer other than
    the raster it receives, and for Overlays no result cached by the
    mini-pipeline of an overlay is taken to be the background it
    receives. *)
Theorem stage_input_unchanged v s self prev (w w' : World E) p p' l a :
  get_data p prev = Ok (VArr l) →
  heap w !! l = Some a →
  (kind s = KMerge → p_ctx p !! "dstarr" ≠ Some (VArr l)) →
  (kind s = KOverlays → caches_avoid w l) →
  run_stage v s self prev w p = Ok (w', p') →
  heap w' !! l = Some a ∨
  (kind s = KMerge ∧
   ∃ st a_idx la al new ht wd,
     get_state p = Ok st ∧
     str_index chr_A (order st) = Some a_idx ∧
     nd_shape a = [ht; wd; 4%nat] ∧
     p_ctx p !! "alpha" = Some (VArr la) ∧
     heap w !! la = Some al ∧
     assign_band a_idx (array_convert al (nd_dtype a)) a = Ok new ∧
     heap w' !! l = Some new).
Proof.
  intros Hd Hl Hdst Hc. unfold run_stage.
  destruct (kind s) eqn:Hk; intros Hrun.
  - left. by apply (CreateBg_run_frame _ _ _ _ _ _ _ _ Hrun).
  - left. eapply Overlays_run_frame; [done..|]. by apply Hc.
  - left. by apply (ICCProf_run_frame _ _ _ _ _ _ _ _ Hrun).
  - left. by apply (FlipSwap_run_frame _ _ _ _ _ _ _ _ Hrun).
  - left. by apply (Rotate_run_frame _ _ _ _ _ _ _ _ Hrun).
  - left. by apply (Output_run_frame _ _ _ _ _ _ _ _ Hrun).
  - left. eapply run_mini_stage_input; [|done..]. congruence.
  - left. eapply run_mini_stage_input; [|done..]. congruence.
  - rewrite run_mini_stage_kind, Hk in Hrun.
    destruct (Merge_run_heap _ _ _ _ _ _ _ _ _ _ Hrun Hl (Hdst eq_refl))
      as (_ & _ & [Hh|[_ Hin]]); [by left|]. right. done.
  - left. eapply run_mini_stage_input; [|done..]. congruence.
  - left. eapply run_mini_stage_input; [|done..]. congruence.
Qed.
End FrameFacts.

(** ** The stages of the standard pipeline, one at a time *)

Section PipelineFacts.
Context {E : Type} `{!NumpyElem E, !Trcalc E, !ColorLibs E}.
#[local] Arguments alloc : simpl never.

Lemma verify_2d_raster (w : World E) l a :
  heap w !! l = Some a → (2 ≤ length (nd_shape a))%nat →
  verify_2d w (VArr l) = Ok ().
Proof.
  intros Hl Hr. unfold verify_2d. rewrite Hl.
  rewrite bool_decide_false by lia. done.
Qed.

(** The side of the canvas against the window: the truncated diagonal
    is at least either dimension, and its successor exceeds the
    diagonal. *)
Lemma CreateBg_side_bounds win_wd win_ht :
  let side := CreateBg_side win_wd win_ht in
  win_wd + 20 ≤ side ∧ win_ht + 20 ≤ side ∧
  win_wd ^ 2 + win_ht ^ 2 < (side - 19) ^ 2.
Proof.
  unfold CreateBg_side. cbn zeta. rewrite !Z.pow_2_r.
  set (n := win_wd * win_wd + win_ht * win_ht).
  assert (0 ≤ n) as Hn by (subst n; nia).
  pose proof (Z.sqrt_spec n Hn) as Hsq. pose proof (Z.sqrt_nonneg n) as H0.
  unfold Z.succ in Hsq.
  assert (win_wd ≤ Z.sqrt n) as Hw.
  { destruct (Z.le_gt_cases win_wd (Z.sqrt n)) as [|Hgt]; [done|].
    assert ((Z.sqrt n + 1) * (Z.sqrt n + 1) ≤ win_wd * win_wd) by nia.
    subst n. nia. }
  assert (win_ht ≤ Z.sqrt n) as Hh.
  { destruct (Z.le_gt_cases win_ht (Z.sqrt n)) as [|Hgt]; [done|].
    assert ((Z.sqrt n + 1) * (Z.sqrt n + 1) ≤ win_ht * win_ht) by nia.
    subst n. nia. }
  split; [lia|]. split; [lia|].
  replace (Z.sqrt n + 20 - 19) with (Z.sqrt n + 1) by lia. lia.
Qed.

(** What CreateBg does when it runs first, in full. *)
Lemma CreateBg_run_ok v self (w : World E) p st px :
  get_state p = Ok st →
  mapM (bg_component CreateBg_dtype (get_bg v).1.1 (get_bg v).1.2
                     (get_bg v).2 1%Q)
       (list_ascii_of_string (order st)) = Some px →
  let side := CreateBg_side (win_dim st).1 (win_dim st).2 in
  let canvas :=
    NDArray CreateBg_dtype
      [Z.to_nat side; Z.to_nat side; String.length (order st)]
      (replicate (Z.to_nat side) (replicate (Z.to_nat side) px)) in
  ∃ l w1,
    alloc w canvas = (l, w1) ∧
    CreateBg_run v false self None w p =
      Ok (w1, send (pipe_set (pipe_set p "org_dim" (VPair side side))
                             "org_off" (VPair (side `div` 2) (side `div` 2)))
                   self (VArr l)).
Proof.
  intros Hst Hpx side canvas. unfold CreateBg_run.
  rewrite bool_decide_false by (intros Hn; by apply Hn).
  rewrite Hst. cbn.
  destruct (win_dim st) as [win_wd win_ht] eqn:Hwin.
  destruct (get_bg v) as [[r g] b] eqn:Hbg. cbn in *.
  unfold make_filled_array. rewrite Hpx.
  pose proof (length_mapM _ _ _ Hpx) as Hlen. rewrite list_ascii_length in Hlen.
  rewrite bool_decide_true by done. cbn.
  fold side. fold canvas.
  destruct (alloc w canvas) as [l w1] eqn:Ha.
  by exists l, w1.
Qed.

(** X1.  The canvas CreateBg publishes covers the window with room to
    rotate: it is a new square buffer whose side is at least 20 pixels
    more than either window dimension and, less 19, still exceeds the
    window's diagonal; the context records its dimensions as [org_dim]
    and its centre [(side // 2, side // 2)] as [org_off]. *)
Theorem CreateBg_canvas_covers_window v self (w w' : World E) p p' st :
  get_state p = Ok st →
  CreateBg_run v false self None w p = Ok (w', p') →
  ∃ l a side,
    p_result p' !! self = Some (VArr l) ∧
    heap w !! l = None ∧ heap w' !! l = Some a ∧
    nd_shape a = [Z.to_nat side; Z.to_nat side; String.length (order st)] ∧
    (win_dim st).1 + 20 ≤ side ∧ (win_dim st).2 + 20 ≤ side ∧
    (win_dim st).1 ^ 2 + (win_dim st).2 ^ 2 < (side - 19) ^ 2 ∧
    get_pair p' "org_dim" = Ok (side, side) ∧
    get_pair p' "org_off" = Ok (side `div` 2, side `div` 2).
Proof.
  intros Hst Hrun.
  destruct (mapM (bg_component CreateBg_dtype (get_bg v).1.1 (get_bg v).1.2
                     (get_bg v).2 1%Q)
       (list_ascii_of_string (order st))) as [px|] eqn:Hpx.
  2:{ exfalso. unfold CreateBg_run in Hrun.
      rewrite bool_decide_false in Hrun by (intros Hn; by apply Hn).
      rewrite Hst in Hrun. cbn in Hrun.
      destruct (win_dim st) as [win_wd win_ht].
      destruct (get_bg v) as [[r g] b]. cbn in *.
      unfold make_filled_array in Hrun. by rewrite Hpx in Hrun. }
  destruct (CreateBg_run_ok v self w p st px Hst Hpx) as (l & w1 & Ha & Hok).
  rewrite Hok in Hrun. injection Hrun as <- <-.
  pose proof (CreateBg_side_bounds (win_dim st).1 (win_dim st).2)
    as (Hb1 & Hb2 & Hb3).
  destruct (alloc_spec _ _ _ _ Ha) as (Hfresh & _).
  eexists l, _, (CreateBg_side (win_dim st).1 (win_dim st).2).
  split. { cbn. by rewrite lookup_insert_eq. }
  split; [done|]. split; [exact (alloc_lookup_new _ _ _ _ Ha)|].
  split; [done|]. split; [done|]. split; [done|]. split; [done|].
  split.
  - unfold get_pair, pipe_get. cbn.
    rewrite lookup_insert_ne by done. by rewrite lookup_insert_eq.
  - unfold get_pair, pipe_get. cbn. by rewrite lookup_insert_eq.
Qed.

(** What FlipSwap does to a raster when it is not bypassed, in full. *)
Lemma FlipSwap_run_ok v self prev (w : World E) p l a ht wd rest xoff yoff :
  get_data p prev = Ok (VArr l) →
  heap w !! l = Some a →
  nd_shape a = ht :: wd :: rest →
  get_pair p "org_off" = Ok (xoff, yoff) →
  let '(flip_x, flip_y, swap_xy) := get_transforms v in
  let yoff1 := if flip_y then Z.of_nat ht - yoff else yoff in
  let xoff1 := if flip_x then Z.of_nat wd - xoff else xoff in
  ∃ l1 w1,
    alloc w (transform a flip_x flip_y swap_xy) = (l1, w1) ∧
    FlipSwap_run v false self prev w p =
      Ok (w1, send (pipe_set p "off"
                      (if swap_xy then VPair yoff1 xoff1 else VPair xoff1 yoff1))
                   self (VArr l1)).
Proof.
  intros Hd Hl Hs Hoff. unfold FlipSwap_run.
  rewrite Hd. cbn. rewrite Hl, Hs. cbn. rewrite Hoff. cbn.
  destruct (get_transforms v) as [[flip_x flip_y] swap_xy]. cbn.
  unfold shape2. rewrite Hs. cbn.
  destruct (alloc w _) as [l1 w1] eqn:Ha.
  exists l1, w1. split; [done|].
  by destruct swap_xy.
Qed.

(** X2.  On a raster, with the canvas offset [org_off] in the context,
    FlipSwap completes, and the offset it records as [off] stays inside
    the raster it publishes: an offset within [0..wd] x [0..ht] of the
    input is mirrored by the flips and exchanged by the swap, so it lies
    within the extent of the transformed raster.  Bypassed, or with no
    transform requested, the offset is handed on as it is. *)
Theorem FlipSwap_offset_in_bounds v bypass self prev (w : World E) p l a
    ht wd rest xoff yoff :
  get_data p prev = Ok (VArr l) →
  heap w !! l = Some a →
  nd_shape a = ht :: wd :: rest →
  get_pair p "org_off" = Ok (xoff, yoff) →
  0 ≤ xoff ≤ Z.of_nat wd →
  0 ≤ yoff ≤ Z.of_nat ht →
  ∃ w' p' xoff' yoff',
    FlipSwap_run v bypass self prev w p = Ok (w', p') ∧
    get_pair p' "off" = Ok (xoff', yoff') ∧
    let swapped := negb bypass && (get_transforms v).2 in
    0 ≤ xoff' ≤ Z.of_nat (if swapped then ht else wd) ∧
    0 ≤ yoff' ≤ Z.of_nat (if swapped then wd else ht) ∧
    (bypass = true ∨ get_transforms v = (false, false, false) →
       (xoff', yoff') = (xoff, yoff)).
Proof.
  intros Hd Hl Hs Hoff Hx Hy. destruct bypass.
  - unfold FlipSwap_run. rewrite Hd. cbn. rewrite Hl, Hs. cbn. rewrite Hoff. cbn.
    eexists _, _, xoff, yoff. split; [reflexivity|].
    split. { unfold get_pair, pipe_get. cbn. by rewrite lookup_insert_eq. }
    cbn. done.
  - pose proof (FlipSwap_run_ok v self prev w p l a ht wd rest xoff yoff
                  Hd Hl Hs Hoff) as Hok.
    destruct (get_transforms v) as [[flip_x flip_y] swap_xy].
    destruct Hok as (l1 & w1 & _ & ->).
    destruct swap_xy, flip_x, flip_y; cbn;
      eexists _, _, _, _; (split; [reflexivity|]);
      (split; [unfold get_pair, pipe_get; cbn; by rewrite lookup_insert_eq|]);
      (split; [lia|]); (split; [lia|]);
      intros [?|?]; congruence.
Qed.

(** X3.  ICCProf, FlipSwap, Rotate and Output honour their bypass flag:
    a bypassed stage that completes publishes the very value it received
    from its predecessor (the same buffer, not a copy), and changes no
    buffer, no cache, the stage list or the stop flag. *)
Theorem bypassed_stage_passes_through v s self prev (w w' : World E) p p' :
  passes_through (kind s) = true →
  _bypass s = true →
  run_stage v s self prev w p = Ok (w', p') →
  ∃ x, get_data p prev = Ok x ∧
       p_result p' !! self = Some x ∧
       w' = w ∧ p_stages p' = p_stages p ∧ p_stop p' = p_stop p.
Proof.
  intros Hk Hb. unfold run_stage. rewrite Hb.
  destruct (kind s); try discriminate Hk; clear Hk.
  - unfold ICCProf_run. intros Hrun.
    destruct (get_data p prev) as [x|] eqn:Hd; [cbn in Hrun|discriminate].
    destruct (verify_2d w x); [cbn in Hrun|discriminate].
    exists x. split; [done|].
    destruct (working_profile v), (icc_output_profile v); cbn in Hrun;
      injection Hrun as <- <-; cbn; by rewrite lookup_insert_eq.
  - unfold FlipSwap_run. intros Hrun.
    destruct (get_data p prev) as [x|] eqn:Hd; [cbn in Hrun|discriminate].
    destruct (verify_2d w x); [cbn in Hrun|discriminate].
    destruct (get_pair p "org_off") as [[xo yo]|]; [cbn in Hrun|discriminate].
    injection Hrun as <- <-. exists x. cbn. by rewrite lookup_insert_eq.
  - unfold Rotate_run. intros Hrun.
    destruct (get_data p prev) as [x|] eqn:Hd; [cbn in Hrun|discriminate].
    destruct (verify_2d w x); [cbn in Hrun|discriminate].
    destruct (as_array w x); [cbn in Hrun|discriminate].
    destruct (shape2 _) as [[ht wd]|]; [cbn in Hrun|discriminate].
    destruct (get_pair p "off") as [[xo yo]|]; [cbn in Hrun|discriminate].
    destruct (get_state p) as [st|]; [cbn in Hrun|discriminate].
    destruct (ctr st). injection Hrun as <- <-.
    exists x. cbn. by rewrite lookup_insert_eq.
  - unfold Output_run. intros Hrun.
    destruct (get_data p prev) as [x|] eqn:Hd; [cbn in Hrun|discriminate].
    destruct (verify_2d w x); [cbn in Hrun|discriminate].
    destruct (get_state p) as [st|]; [cbn in Hrun|discriminate].
    injection Hrun as <- <-. exists x. cbn. by rewrite lookup_insert_eq.
Qed.

End PipelineFacts.

(** ** Overlays without images, and on an overplot-only re-run *)

Section OverlaysFacts.
Context {E : Type} `{!NumpyElem E, !Trcalc E, !ColorLibs E}.
#[local] Arguments alloc : simpl never.
#[local] Arguments get_data : simpl never.
#[local] Arguments verify_2d : simpl never.
#[local] Arguments as_array : simpl never.

(** The walk passes over a canvas that holds no image. *)
Lemma overlay_images_no_images v outer whence canvas (w : World E) :
  no_image_objects canvas = true →
  _overlay_images v outer whence canvas w = Ok w.
Proof.
  revert w. induction canvas as [ci norm|objs IH|] using CanvasObj_nested_ind;
    intros w Hn; [discriminate|cbn|done].
  cbn in Hn. induction IH as [|obj rest Hobj _ IHrest]; [done|].
  apply andb_prop in Hn as [Ho Hr].
  destruct obj as [ci norm|objs'|]; [discriminate| |by apply IHrest].
  rewrite (Hobj w Ho). cbn. by apply IHrest.
Qed.

Lemma Overlays_run_no_images v b self prev (w : World E) p whence l a :
  get_num p "whence" = Ok whence →
  Qle_bool 3 whence = false ∨ get_data p (Some self) = Ok VNone →
  get_data p prev = Ok (VArr l) →
  heap w !! l = Some a →
  (2 ≤ length (nd_shape a))%nat →
  no_image_objects (get_private_canvas v) = true →
  ∃ l1 w1,
    alloc w a = (l1, w1) ∧
    Overlays_run v b self prev w p =
      Ok (w1, send (pipe_set p "dstarr" (VArr l1)) self (VArr l1)).
Proof.
  intros Hw Hq Hd Hl Hr Hn. unfold Overlays_run. rewrite Hw. cbn.
  assert (∃ x, get_data p (Some self) = Ok x ∧
               Qle_bool 3 whence && negb (is_None x) = false) as (x & -> & Hc).
  { destruct Hq as [Hq|Hq].
    - eexists. split; [reflexivity|]. by rewrite Hq.
    - exists VNone. split; [done|]. cbn. by rewrite andb_false_r. }
  cbn. rewrite Hc, Hd. cbn. rewrite (verify_2d_raster w l a Hl Hr). cbn.
  unfold as_array. rewrite Hl. cbn.
  destruct (alloc w a) as [l1 w1] eqn:Ha.
  rewrite overlay_images_no_images by done. cbn.
  by exists l1, w1.
Qed.

(** X4.  After a run of Overlays that completed, a re-run at an
    overplot-only level ([whence >= 3]) changes nothing at all: it
    publishes the composite of the earlier run again, walks no canvas,
    and leaves every buffer, every cache and the rest of the pipeline as
    they were, whatever its predecessor holds by then. *)
Theorem Overlays_overplot_rerun v b b' self prev prev' (w w1 : World E) p p1 q :
  Overlays_run v b self prev w p = Ok (w1, p1) →
  (3 <= q)%Q →
  let p2 := pipe_set p1 "whence" (VNum q) in
  Overlays_run v b' self prev' w1 p2 = Ok (w1, p2).
Proof.
  intros Hrun Hq p2.
  assert (∃ x, p_result p1 !! self = Some x ∧ is_None x = false) as (x & Hx & Hnn).
  { unfold Overlays_run, get_data in Hrun.
    destruct (get_num p "whence") as [wh|]; [cbn in Hrun|discriminate].
    destruct (Qle_bool 3 wh && negb (is_None (default VNone (p_result p !! self))))
      eqn:Hc.
    - injection Hrun as <- <-. eexists. cbn. rewrite lookup_insert_eq.
      split; [done|]. apply andb_prop in Hc as [_ Hc]. by apply negb_true_iff.
    - fold (get_data p prev) in Hrun.
      destruct (get_data p prev) as [bg|]; [cbn in Hrun|discriminate].
      destruct (verify_2d w bg); [cbn in Hrun|discriminate].
      destruct (np_copy w bg) as [cp|]; [cbn in Hrun|discriminate].
      destruct (alloc w cp) as [l0 w0].
      destruct (_overlay_images _ _ _ _ _); [cbn in Hrun|discriminate].
      injection Hrun as <- <-. eexists. cbn. rewrite lookup_insert_eq. done. }
  unfold Overlays_run, get_num, pipe_get, get_data. subst p2. cbn.
  rewrite lookup_insert_eq. cbn. rewrite Hx. cbn.
  apply Qle_bool_iff in Hq. rewrite Hq, Hnn. cbn.
  unfold send, pipe_set. cbn. by rewrite (insert_id _ _ _ Hx).
Qed.

(** X5.  On a full re-render ([whence < 3]) of a canvas that holds no
    image, Overlays completes and publishes a copy of the background: a
    buffer that did not exist before, with the contents of the
    background, recorded as [dstarr] in the context; the background
    buffer itself and the caches are untouched. *)
Theorem Overlays_copies_background v bypass self prev (w : World E) p whence l a :
  get_num p "whence" = Ok whence →
  (whence < 3)%Q →
  get_data p prev = Ok (VArr l) →
  heap w !! l = Some a →
  (2 ≤ length (nd_shape a))%nat →
  no_image_objects (get_private_canvas v) = true →
  ∃ w' l',
    Overlays_run v bypass self prev w p =
      Ok (w', send (pipe_set p "dstarr" (VArr l')) self (VArr l')) ∧
    l' ≠ l ∧ heap w !! l' = None ∧
    heap w' !! l' = Some a ∧ heap w' !! l = Some a ∧
    caches w' = caches w.
Proof.
  intros Hw Hlt Hd Hl Hr Hn.
  assert (Qle_bool 3 whence = false) as Hq.
  { destruct (Qle_bool 3 whence) eqn:Hq; [|done].
    apply Qle_bool_iff in Hq. destruct (Qlt_not_le _ _ Hlt Hq). }
  destruct (Overlays_run_no_images v bypass self prev w p whence l a
              Hw (or_introl Hq) Hd Hl Hr Hn) as (l1 & w1 & Ha & Hrun).
  exists w1, l1. split; [done|].
  destruct (alloc_spec _ _ _ _ Ha) as (Hfresh & _ & Hc).
  split; [congruence|]. split; [done|].
  split; [exact (alloc_lookup_new _ _ _ _ Ha)|].
  split; [exact (alloc_lookup_old _ _ _ _ _ _ Ha Hl)|done].
Qed.

End OverlaysFacts.

(** ** The standard pipeline from end to end *)

Section StandardPipeline.
Context {E : Type} `{!NumpyElem E, !Trcalc E, !ColorLibs E}.
#[local] Arguments alloc : simpl never.

(** X6.  On a raster ICCProf always completes.  Bypassed, without
    colour management or without one of the two profiles it hands the
    very buffer on and records the working profile.  Otherwise it
    records the output profile, and publishes the converted raster in a
    new buffer when the conversion succeeds; when the conversion fails
    the input buffer is handed on unconverted, though the output profile
    is still what the context records.  The input buffer is never
    changed. *)
Theorem ICCProf_run_total v bypass self prev (w : World E) p l a :
  get_data p prev = Ok (VArr l) →
  heap w !! l = Some a →
  (2 ≤ length (nd_shape a))%nat →
  ∃ w' l' profile,
    ICCProf_run v bypass self prev w p =
      Ok (w', send (pipe_set p "icc_output_profile" profile) self (VArr l')) ∧
    heap w' !! l = Some a ∧
    match working_profile v, icc_output_profile v with
    | Some working, Some output =>
        if bypass || negb (have_cms v)
        then l' = l ∧ w' = w ∧ profile = VStr working
        else
          profile = VStr output ∧
          match convert_profile_fromto a working output
                  (default "perceptual" (icc_output_intent v))
                  (icc_proof_profile v)
                  (default "perceptual" (icc_proof_intent v))
                  (default false (icc_black_point_compensation v)) with
          | Some out => heap w' !! l' = Some out ∧ heap w !! l' = None
          | None => l' = l ∧ w' = w
          end
    | working, _ => l' = l ∧ w' = w ∧ profile = opt_str working
    end.
Proof.
  intros Hd Hl Hr. unfold ICCProf_run. rewrite Hd. cbn.
  rewrite Hl. rewrite bool_decide_false by lia. cbn.
  destruct (working_profile v) as [working|], (icc_output_profile v) as [output|];
    try (by eexists w, l, _).
  destruct (bypass || negb (have_cms v)); [by eexists w, l, _|].
  destruct (convert_profile_fromto _ _ _ _ _ _ _) as [out|]; [|by eexists w, l, _].
  destruct (alloc w out) as [l1 w1] eqn:Ha.
  eexists w1, l1, _. split; [done|].
  split; [exact (alloc_lookup_old _ _ _ _ _ _ Ha Hl)|].
  split; [done|]. split; [exact (alloc_lookup_new _ _ _ _ Ha)|].
  by destruct (alloc_spec _ _ _ _ Ha).
Qed.

Lemma ICCProf_run_no_cms v b self prev (w : World E) p l a :
  have_cms v = false →
  get_data p prev = Ok (VArr l) →
  heap w !! l = Some a →
  (2 ≤ length (nd_shape a))%nat →
  ICCProf_run v b self prev w p =
    Ok (w, send (pipe_set p "icc_output_profile" (opt_str (working_profile v)))
                self (VArr l)).
Proof.
  intros Hc Hd Hl Hr. unfold ICCProf_run. rewrite Hd. cbn.
  rewrite Hl. rewrite bool_decide_false by lia. cbn. rewrite Hc, orb_true_r.
  by destruct (working_profile v), (icc_output_profile v).
Qed.

(** What Rotate does to a raster when it is not bypassed, provided the
    rotation keeps the shape. *)
Lemma Rotate_run_ok v self prev (w : World E) p l a ht wd rest xoff yoff st :
  get_data p prev = Ok (VArr l) →
  heap w !! l = Some a →
  nd_shape a = ht :: wd :: rest →
  get_pair p "off" = Ok (xoff, yoff) →
  get_state p = Ok st →
  nd_shape (rotate_clip a (Qopp (get_rotation v))) = nd_shape a →
  ∃ l1 w1 a1,
    Rotate_run v false self prev w p =
      Ok (w1, send (pipe_set p "dst"
                      (VPair ((ctr st).1 - xoff)
                             ((ctr st).2 - (Z.of_nat ht - yoff))))
                   self (VArr l1)) ∧
    heap w1 !! l1 = Some a1 ∧ nd_shape a1 = nd_shape a.
Proof.
  intros Hd Hl Hs Hoff Hst Hrot. unfold Rotate_run.
  rewrite Hd. cbn. rewrite Hl, Hs. cbn.
  destruct (ctr st) as [ctr_x ctr_y] eqn:Hctr.
  destruct (isclose_zero (get_rotation v)); cbn.
  - destruct (_invert_y v); cbn.
    + rewrite Hl. cbn. destruct (alloc w (flipud a)) as [l1 w1] eqn:Ha. cbn.
      rewrite (alloc_lookup_new _ _ _ _ Ha). cbn. unfold shape2. cbn.
      rewrite Hs. cbn. rewrite Hoff. cbn. rewrite Hst. cbn. rewrite Hctr.
      exists l1, w1, (flipud a). split; [done|]. split; [|done].
      exact (alloc_lookup_new _ _ _ _ Ha).
    + rewrite Hl. cbn. unfold shape2. rewrite Hs. cbn. rewrite Hoff. cbn.
      rewrite Hst. cbn. rewrite Hctr. by exists l, w, a.
  - rewrite Hs in Hrot.
    destruct (alloc w a) as [l1 w1] eqn:Ha. cbn.
    destruct (_invert_y v); cbn.
    + rewrite lookup_insert_eq. cbn.
      destruct (alloc _ (flipud _)) as [l2 w2] eqn:Ha2. cbn.
      rewrite (alloc_lookup_new _ _ _ _ Ha2). cbn. unfold shape2. cbn.
      rewrite Hrot. cbn. rewrite Hoff. cbn. rewrite Hst. cbn. rewrite Hctr.
      eexists l2, w2, _. split; [done|]. split.
      * exact (alloc_lookup_new _ _ _ _ Ha2).
      * exact Hrot.
    + rewrite lookup_insert_eq. cbn. unfold shape2. rewrite Hrot. cbn.
      rewrite Hoff. cbn. rewrite Hst. cbn. rewrite Hctr.
      eexists l1, _, _. split; [done|]. split.
      * unfold store. cbn. by rewrite lookup_insert_eq.
      * exact Hrot.
Qed.

(** Output on a raster the window fits into at the anchor. *)
Lemma Output_run_fits v self prev (w : World E) p l a st dst_x dst_y ht wd rest :
  get_data p prev = Ok (VArr l) →
  heap w !! l = Some a →
  nd_shape a = ht :: wd :: rest →
  get_state p = Ok st →
  get_pair p "dst" = Ok (dst_x, dst_y) →
  0 ≤ (win_dim st).1 → 0 ≤ (win_dim st).2 →
  dst_x ≤ 0 → dst_y ≤ 0 →
  Z.abs dst_x + (win_dim st).1 ≤ Z.of_nat wd →
  Z.abs dst_y + (win_dim st).2 ≤ Z.of_nat ht →
  is_stage_error (Output_run v false self prev w p) = false ∧
  ∀ w' p', Output_run v false self prev w p = Ok (w', p') →
    ∃ out,
      published w' p' self = Some out ∧
      nd_shape out = [Z.to_nat (win_dim st).2; Z.to_nat (win_dim st).1;
                      String.length (renderer_rgb_order v)] ∧
      p_ctx p' !! "out_order" = Some (VStr (renderer_rgb_order v)).
Proof.
  intros Hd Hl Hs Hst Hdst Hw0 Hh0 Hx Hy Hfx Hfy. unfold Output_run.
  rewrite Hd. cbn. rewrite Hl, Hs. cbn.
  rewrite Hst. unfold shape2. rewrite Hs. cbn.
  destruct (win_dim st) as [win_wd win_ht]. cbn in *.
  destruct (Z.ltb_spec (Z.of_nat wd) win_wd); [lia|].
  destruct (Z.ltb_spec (Z.of_nat ht) win_ht); [lia|]. cbn.
  rewrite Hdst. cbn.
  destruct (Z.ltb_spec 0 dst_x); [lia|].
  destruct (Z.ltb_spec 0 dst_y); [lia|]. cbn.
  pose proof (slice2_not_stage_error (Z.abs dst_y) (Z.abs dst_y + win_ht)
                (Z.abs dst_x) (Z.abs dst_x + win_wd) a) as Hse1.
  destruct (slice2 _ _ _ _ a) as [cut|e1] eqn:Hcut; cbn.
  2:{ destruct e1; [discriminate Hse1|]. split; [done|discriminate]. }
  pose proof (reorder_image_not_stage_error (renderer_rgb_order v) cut
                (order st)) as Hse2.
  destruct (reorder_image _ cut _) as [out|e2] eqn:Hout; cbn.
  2:{ destruct e2; [discriminate Hse2|]. split; [done|discriminate]. }
  destruct (alloc w out) as [l1 w1] eqn:Ha. cbn.
  split; [done|]. intros w' p' [= <- <-]. exists out.
  assert (nd_shape cut = Z.to_nat win_ht :: Z.to_nat win_wd :: rest) as Hcs.
  { unfold slice2 in Hcut. rewrite Hs in Hcut. injection Hcut as <-. simpl.
    rewrite !slice_len_fits by lia. done. }
  destruct (reorder_image_shape _ _ _ _ Hout) as (h & w0 & dp & Hc & _ & Ho).
  rewrite Hcs in Hc. injection Hc as <- <- ->.
  unfold published. cbn. rewrite lookup_insert_eq.
  split; [exact (alloc_lookup_new _ _ _ _ Ha)|]. split; [done|].
  apply lookup_insert_eq.
Qed.

Lemma run_stages_cons run1 v s rest idx (w : World E) p :
  run_stages run1 v (s :: rest) idx w p =
    if p_stop p then Ok (w, p)
    else '(w, p) ← run1 v s idx (prev_of idx) w p;
         run_stages run1 v rest (S idx) w p.
Proof. reflexivity. Qed.

(** X7.  The standard pipeline, run from its first stage on a canvas
    without images and without colour management, never raises a
    [StageError], and when it completes Output has published a raster of
    exactly [win_ht] rows by [win_wd] columns in the renderer's channel
    order.  This holds for every flip, swap and rotation the viewer
    requests, provided the transforms keep the shape of the square
    canvas and the centre [ctr] lies within half a canvas side of both
    edges of the window (as the centre of the window does). *)
Theorem standard_pipeline_window v (w : World E) p st px whence :
  p_stages p = standard_pipeline →
  get_state p = Ok st →
  get_num p "whence" = Ok whence →
  (whence < 3)%Q →
  no_image_objects (get_private_canvas v) = true →
  have_cms v = false →
  mapM (bg_component CreateBg_dtype (get_bg v).1.1 (get_bg v).1.2
                     (get_bg v).2 1%Q)
       (list_ascii_of_string (order st)) = Some px →
  let side := CreateBg_side (win_dim st).1 (win_dim st).2 in
  (∀ (a : ndarray E) flip_x flip_y swap_xy,
     nd_shape a = [Z.to_nat side; Z.to_nat side; String.length (order st)] →
     nd_shape (transform a flip_x flip_y swap_xy) = nd_shape a) →
  (∀ (a : ndarray E) theta,
     nd_shape a = [Z.to_nat side; Z.to_nat side; String.length (order st)] →
     nd_shape (rotate_clip a theta) = nd_shape a) →
  0 ≤ (win_dim st).1 → 0 ≤ (win_dim st).2 →
  (ctr st).1 ≤ side `div` 2 → (win_dim st).1 - (ctr st).1 ≤ side `div` 2 →
  (ctr st).2 ≤ side `div` 2 → (win_dim st).2 - (ctr st).2 ≤ side `div` 2 →
  is_stage_error (run_from v 0 w p) = false ∧
  ∀ w' p', run_from v 0 w p = Ok (w', p') →
    ∃ out,
      published w' p' 5 = Some out ∧
      nd_shape out = [Z.to_nat (win_dim st).2; Z.to_nat (win_dim st).1;
                      String.length (renderer_rgb_order v)] ∧
      p_ctx p' !! "out_order" = Some (VStr (renderer_rgb_order v)).
Proof.
  intros Hstages Hst Hwh Hlt Hcanvas Hcms Hpx side Htr Hrot Hw0 Hh0 Hcx1 Hcx2 Hcy1 Hcy2.
  assert (Qle_bool 3 whence = false) as Hq.
  { destruct (Qle_bool 3 whence) eqn:Hq; [|done].
    apply Qle_bool_iff in Hq. exfalso. by eapply Qlt_not_le. }
  pose proof (CreateBg_side_bounds (win_dim st).1 (win_dim st).2) as (Hb1 & Hb2 & _).
  fold side in Hb1, Hb2.
  assert (Z.of_nat (Z.to_nat side) = side) as Hside by lia.
  unfold run_from, run_from_with. rewrite Hstages. unfold standard_pipeline.
  rewrite bool_decide_true by (cbn; lia). cbn [drop].
  set (p0 := clear_stop p).
  assert (get_state p0 = Ok st) as Hst0 by exact Hst.
  (* CreateBg *)
  rewrite run_stages_cons. cbn [p_stop p0 clear_stop].
  change (run_stage v (mkStage KCreateBg false) 0 (prev_of 0) w p0)
    with (CreateBg_run v false 0 None w p0).
  destruct (CreateBg_run_ok v 0 w p0 st px Hst0 Hpx) as (l0 & w0 & Ha0 & ->).
  fold side in Ha0 |- *.
  set (canvas := NDArray _ _ _) in Ha0.
  pose proof (alloc_lookup_new _ _ _ _ Ha0) as Hl0.
  set (p1 := send _ 0%nat (VArr l0)). cbn [mbind outcome_bind].
  (* Overlays *)
  rewrite run_stages_cons. cbn [p_stop p1 send pipe_set].
  change (run_stage v (mkStage KOverlays false) 1 (prev_of 1) w0 p1)
    with (Overlays_run v false 1 (Some 0%nat) w0 p1).
  assert (get_num p1 "whence" = Ok whence) as Hwh1.
  { unfold get_num, pipe_get. cbn. rewrite !lookup_insert_ne by done. exact Hwh. }
  assert (2 ≤ length (nd_shape canvas))%nat as Hrank by (cbn; lia).
  destruct (Overlays_run_no_images v false 1 (Some 0%nat) w0 p1 whence l0 canvas
              Hwh1 (or_introl Hq) (get_data_send_eq _ _ _) Hl0 Hrank Hcanvas)
    as (l1 & w1 & Ha1 & ->).
  pose proof (alloc_lookup_new _ _ _ _ Ha1) as Hl1.
  set (p2 := send _ 1%nat (VArr l1)). cbn [mbind outcome_bind].
  (* ICCProf *)
  rewrite run_stages_cons. cbn [p_stop p2 send pipe_set].
  change (run_stage v (mkStage KICCProf false) 2 (prev_of 2) w1 p2)
    with (ICCProf_run v false 2 (Some 1%nat) w1 p2).
  rewrite (ICCProf_run_no_cms v false 2 (Some 1%nat) w1 p2 l1 canvas Hcms
             (get_data_send_eq _ _ _) Hl1 Hrank).
  set (p3 := send _ 2%nat (VArr l1)). cbn [mbind outcome_bind].
  (* FlipSwap *)
  rewrite run_stages_cons. cbn [p_stop p3 send pipe_set].
  change (run_stage v (mkStage KFlipSwap false) 3 (prev_of 3) w1 p3)
    with (FlipSwap_run v false 3 (Some 2%nat) w1 p3).
  assert (get_pair p3 "org_off" = Ok (side `div` 2, side `div` 2)) as Hoo.
  { unfold get_pair, pipe_get. cbn.
    rewrite !lookup_insert_ne by done. by rewrite lookup_insert_eq. }
  pose proof (FlipSwap_run_ok v 3 (Some 2%nat) w1 p3 l1 canvas _ _ _ _ _
                (get_data_send_eq _ _ _) Hl1 eq_refl Hoo) as Hfs.
  destruct (get_transforms v) as [[flip_x flip_y] swap_xy].
  destruct Hfs as (l3 & w3 & Ha3 & ->).
  pose proof (alloc_lookup_new _ _ _ _ Ha3) as Hl3.
  set (off := if swap_xy then _ else _).
  assert (∃ xoff yoff, off = VPair xoff yoff ∧
            side `div` 2 ≤ xoff ≤ side - side `div` 2 ∧
            side `div` 2 ≤ yoff ≤ side - side `div` 2) as (xoff & yoff & -> & Hxo & Hyo).
  { subst off. rewrite Hside.
    assert (side `div` 2 ≤ side - side `div` 2) as Hhalf.
    { pose proof (Z.div_mod side 2). pose proof (Z.mod_pos_bound side 2). lia. }
    destruct swap_xy, flip_x, flip_y; eexists _, _; (split; [reflexivity|]); lia. }
  set (p4 := send _ 3%nat (VArr l3)). cbn [mbind outcome_bind].
  (* Rotate *)
  rewrite run_stages_cons. cbn [p_stop p4 send pipe_set].
  change (run_stage v (mkStage KRotate false) 4 (prev_of 4) w3 p4)
    with (Rotate_run v false 4 (Some 3%nat) w3 p4).
  assert (get_state p4 = Ok st) as Hst4.
  { unfold get_state, pipe_get. cbn. rewrite !lookup_insert_ne by done. exact Hst. }
  destruct (Rotate_run_ok v 4 (Some 3%nat) w3 p4 l3 _ (Z.to_nat side) (Z.to_nat side)
              [String.length (order st)] xoff yoff st
              (get_data_send_eq _ _ _) Hl3)
    as (l4 & w4 & a4 & -> & Hl4 & Hs4).
  { by apply Htr. }
  { unfold get_pair, pipe_get. cbn. by rewrite lookup_insert_eq. }
  { exact Hst4. }
  { apply Hrot. by apply Htr. }
  rewrite Htr in Hs4 by done. cbn [nd_shape canvas] in Hs4.
  set (p5 := send _ 4%nat (VArr l4)). cbn [mbind outcome_bind].
  (* Output *)
  rewrite run_stages_cons. cbn [p_stop p5 send pipe_set].
  change (run_stage v (mkStage KOutput false) 5 (prev_of 5) w4 p5)
    with (Output_run v false 5 (Some 4%nat) w4 p5).
  assert (get_state p5 = Ok st) as Hst5.
  { unfold get_state, pipe_get. cbn. rewrite !lookup_insert_ne by done. exact Hst. }
  destruct (Output_run_fits v 5 (Some 4%nat) w4 p5 l4 a4 st
              ((ctr st).1 - xoff) ((ctr st).2 - (Z.of_nat (Z.to_nat side) - yoff))
              _ _ _ (get_data_send_eq _ _ _) Hl4 Hs4 Hst5) as [Hnse Hok];
    try lia.
  { unfold get_pair, pipe_get. cbn. by rewrite lookup_insert_eq. }
  destruct (Output_run v false 5 (Some 4%nat) w4 p5) as [[w6 p6]|e] eqn:Hout;
    cbn [mbind outcome_bind].
  - cbn. split; [done|]. intros w' p' [= <- <-]. by apply Hok.
  - split; [exact Hnse|discriminate].
Qed.

End StandardPipeline.

(** ** What a run leaves of the pipeline *)

Section RunFacts.
Context {E : Type} `{!NumpyElem E, !Trcalc E, !ColorLibs E}.
#[local] Arguments alloc : simpl never.
#[local] Arguments store : simpl never.
#[local] Arguments as_array : simpl never.
#[local] Arguments verify_2d : simpl never.
#[local] Arguments get_data : simpl never.
#[local] Arguments get_state : simpl never.
#[local] Arguments get_pair : simpl never.
#[local] Arguments get_qpair : simpl never.
#[local] Arguments get_cvs_img : simpl never.
#[local] Arguments get_arr_handle : simpl never.
#[local] Arguments get_num : simpl never.
#[local] Arguments pipe_get : simpl never.
#[local] Arguments reorder_image : simpl never.
#[local] Arguments make_filled_array : simpl never.
#[local] Arguments slice2 : simpl never.
#[local] Arguments shape2 : simpl never.
#[local] Arguments shape3 : simpl never.
#[local] Arguments take_band : simpl never.
#[local] Arguments bands_upto : simpl never.
#[local] Arguments insert_zero_band : simpl never.
#[local] Arguments assign_band : simpl never.
#[local] Arguments Scale_clip : simpl never.
#[local] Arguments set_visible : simpl never.
#[local] Arguments set_drawn : simpl never.
#[local] Arguments np_copy : simpl never.
#[local] Arguments _overlay_images : simpl never.

Ltac keeps_tac :=
  split; [reflexivity|];
  intros j Hj; cbn; rewrite ?lookup_insert_ne by done; reflexivity.

Lemma run_mini_stage_keeps v s self prev (w w' : World E) p p' :
  run_mini_stage v s self prev w p = Ok (w', p') → keeps_others self p p'.
Proof.
  rewrite run_mini_stage_kind. destruct (kind s); try discriminate; intros Hrun.
  - unfold Scale_run in Hrun. steps; keeps_tac.
  - unfold Reorder_run in Hrun. steps; keeps_tac.
  - unfold Merge_run in Hrun. steps; keeps_tac.
  - unfold Cuts_run in Hrun. steps; keeps_tac.
  - unfold RGBMap_run in Hrun. steps; keeps_tac.
Qed.

Lemma run_stage_keeps v s self prev (w w' : World E) p p' :
  run_stage v s self prev w p = Ok (w', p') → keeps_others self p p'.
Proof.
  unfold run_stage.
  destruct (kind s) eqn:Hk; intros Hrun;
    try (by eapply run_mini_stage_keeps).
  - unfold CreateBg_run in Hrun. steps; keeps_tac.
  - unfold Overlays_run in Hrun. steps; keeps_tac.
  - unfold ICCProf_run in Hrun. steps; keeps_tac.
  - unfold FlipSwap_run in Hrun. steps; keeps_tac.
  - unfold Rotate_run in Hrun. steps; keeps_tac.
  - unfold Output_run in Hrun. steps; keeps_tac.
Qed.

Lemma run_stages_keeps run1 v stages idx (w w' : World E) p p' :
  (∀ s self prev w w' p p',
     run1 v s self prev w p = Ok (w', p') → keeps_others self p p') →
  run_stages run1 v stages idx w p = Ok (w', p') →
  p_stages p' = p_stages p ∧
  ∀ j, (j < idx)%nat → p_result p' !! j = p_result p !! j.
Proof.
  intros H1. revert idx w p.
  induction stages as [|s rest IH]; intros idx w p; cbn.
  { by intros [= <- <-]. }
  destruct (p_stop p); [by intros [= <- <-]|].
  destruct (run1 v s idx (prev_of idx) w p) as [[w1 p1]|] eqn:Hs; [|discriminate].
  cbn. intros Hrest.
  destruct (H1 _ _ _ _ _ _ _ Hs) as [Hst Hres].
  destruct (IH _ _ _ Hrest) as [Hst' Hres'].
  split; [congruence|].
  intros j Hj. rewrite Hres' by lia. apply Hres. lia.
Qed.

(** X8.  A run from stage [idx] that completes leaves the stage list as
    it was and republishes nothing upstream: what the stages before
    [idx] published is still what the pipeline holds for them.  (A stage
    publishes under its own position only.) *)
Theorem run_from_keeps_upstream v idx (w w' : World E) p p' :
  run_from v idx w p = Ok (w', p') →
  p_stages p' = p_stages p ∧
  ∀ j, (j < idx)%nat → p_result p' !! j = p_result p !! j.
Proof.
  unfold run_from, run_from_with. case_bool_decide; [|discriminate].
  intros Hrun.
  by apply (run_stages_keeps run_stage v _ idx w w' (clear_stop p) p'
              (run_stage_keeps v)) in Hrun.
Qed.

Lemma get_cache_commit (w : World E) cvs_img pipe :
  minipipe (get_cache (commit w cvs_img pipe) cvs_img) = Some pipe.
Proof. unfold get_cache, commit, put_cache. cbn. by rewrite lookup_insert_eq. Qed.

Lemma run_cached_stages v cvs_img idx (w w' : World E) pipe :
  run_cached v cvs_img idx w pipe = Ok w' →
  ∃ pipe', minipipe (get_cache w' cvs_img) = Some pipe' ∧
           p_stages pipe' = p_stages pipe ∧
           ∀ j, (j < idx)%nat → p_result pipe' !! j = p_result pipe !! j.
Proof.
  unfold run_cached, mini_run_from, run_from_with.
  case_bool_decide; [|discriminate].
  destruct (run_stages _ _ _ _ _ _) as [[w1 pipe1]|] eqn:Hrun; [|discriminate].
  cbn. intros [= <-]. exists pipe1. split; [apply get_cache_commit|].
  by apply (run_stages_keeps run_mini_stage v _ idx w w1 (clear_stop pipe) pipe1
              (run_mini_stage_keeps v)) in Hrun.
Qed.

(** X9.  The mini-pipeline of a canvas image is built once and kept:
    after [prepare_image] has completed, the cache of the object holds a
    pipeline whose stage list is the one the cache held before, or, if
    it held none, [Scale, Reorder, Merge] for a plain image and
    [Scale, Reorder, Cuts, RGBMap, Merge] for a value-mapped one. *)
Theorem prepare_image_keeps_pipeline v outer cvs_img (norm : bool) whence
    (w w' : World E) :
  prepare_image v outer cvs_img norm whence w = Ok w' →
  ∃ pipe',
    minipipe (get_cache w' cvs_img) = Some pipe' ∧
    p_stages pipe' =
      match minipipe (get_cache w cvs_img) with
      | Some pipe => p_stages pipe
      | None => if norm then norm_image_stages else image_stages
      end.
Proof.
  assert (∀ stages,
            p_stages (default (new_pipeline stages) (minipipe (get_cache w cvs_img)))
            = match minipipe (get_cache w cvs_img) with
              | Some pipe => p_stages pipe
              | None => stages
              end) as Hdef.
  { intros stages. by destruct (minipipe _). }
  unfold prepare_image. destruct norm.
  - unfold _prepare_norm_image.
    destruct (minipipe_setup _ _ _ _ _) as [pipe|] eqn:Hsetup; [cbn|discriminate].
    apply minipipe_setup_spec in Hsetup as (_ & Hst & _). rewrite Hdef in Hst.
    rewrite <- Hst.
    repeat match goal with
           | |- (if ?c then _ else _) = Ok _ → _ => destruct c
           end;
      intros Hrun;
      first [ apply run_cached_stages in Hrun as (pipe' & ? & ? & _); by exists pipe'
            | injection Hrun as <-; exists pipe; split;
              [apply get_cache_commit|done] ].
  - unfold _prepare_image.
    destruct (minipipe_setup _ _ _ _ _) as [pipe|] eqn:Hsetup; [cbn|discriminate].
    apply minipipe_setup_spec in Hsetup as (_ & Hst & _). rewrite Hdef in Hst.
    rewrite <- Hst.
    repeat match goal with
           | |- (if ?c then _ else _) = Ok _ → _ => destruct c
           end;
      intros Hrun;
      first [ apply run_cached_stages in Hrun as (pipe' & ? & ? & _); by exists pipe'
            | injection Hrun as <-; exists pipe; split;
              [apply get_cache_commit|done] ].
Qed.

End RunFacts.

(** ** The stages of the mini-pipeline on a raster *)

Section MiniStageFacts.
Context {E : Type} `{!NumpyElem E, !Trcalc E, !ColorLibs E}.
#[local] Arguments alloc : simpl never.


(** X11.  On a raster Cuts completes and what it publishes, in a new
    buffer, always has the unsigned index type: the cut of the input
    between the levels of the object (or else of the viewer) onto
    [0 .. hash_size - 1] of the object's (or else the viewer's) colour
    mapper, published as it is when the cut is of that type already and
    cast to it, with the same shape, otherwise.  The input buffer is
    unchanged. *)
Theorem Cuts_run_publishes_uint v bypass self prev (w : World E) p l a cvs_img :
  get_data p prev = Ok (VArr l) →
  heap w !! l = Some a →
  (2 ≤ length (nd_shape a))%nat →
  get_cvs_img p = Ok cvs_img →
  let rgbmap := default (get_rgbmap v) (ci_rgbmap cvs_img) in
  let autocuts := default (viewer_autocuts v) (ci_autocuts cvs_img) in
  let levels := default (viewer_cuts v) (ci_cuts cvs_img) in
  let cut := cut_levels autocuts a levels.1 levels.2 0 (hash_size rgbmap - 1) in
  ∃ w' l' out,
    Cuts_run v bypass self prev w p = Ok (w', send p self (VArr l')) ∧
    heap w' !! l' = Some out ∧
    nd_dtype out = uint64 ∧
    nd_shape out = nd_shape cut ∧
    (nd_dtype cut = uint64 → out = cut) ∧
    heap w !! l' = None ∧
    heap w' !! l = Some a.
Proof.
  intros Hd Hl Hr Hc rgbmap autocuts levels cut. unfold Cuts_run.
  rewrite Hd. cbn. rewrite Hl. rewrite bool_decide_false by lia. cbn.
  rewrite Hc. cbn. fold rgbmap autocuts levels.
  destruct levels as [loval hival] eqn:Hlev. cbn in cut. fold cut.
  destruct (alloc w _) as [l' w'] eqn:Hal.
  eexists w', l', _. split; [done|].
  split; [exact (alloc_lookup_new _ _ _ _ Hal)|].
  destruct (alloc_spec _ _ _ _ Hal) as (Hfresh & _).
  unfold is_uint. case_bool_decide as Hu; cbn.
  - repeat split; try done. exact (alloc_lookup_old _ _ _ _ _ _ Hal Hl).
  - repeat split; try done. exact (alloc_lookup_old _ _ _ _ _ _ Hal Hl).
Qed.

(** The helpers Merge calls raise Python errors only. *)
Lemma pipe_get_pyerr p k msg : pipe_get p k ≠ Raise (StageError msg).
Proof. unfold pipe_get. by destruct (p_ctx p !! k). Qed.

Lemma get_cvs_img_pyerr p msg : get_cvs_img p ≠ Raise (StageError msg).
Proof.
  unfold get_cvs_img, pipe_get. destruct (p_ctx p !! "cvs_img") as [[]|]; by cbn.
Qed.

Lemma get_qpair_pyerr p k msg : get_qpair p k ≠ Raise (StageError msg).
Proof. unfold get_qpair, pipe_get. destruct (p_ctx p !! k) as [[]|]; by cbn. Qed.

Lemma get_arr_handle_pyerr p k msg : get_arr_handle p k ≠ Raise (StageError msg).
Proof. unfold get_arr_handle, pipe_get. destruct (p_ctx p !! k) as [[]|]; by cbn. Qed.

Lemma get_state_pyerr p msg : get_state p ≠ Raise (StageError msg).
Proof. unfold get_state, pipe_get. destruct (p_ctx p !! "state") as [[]|]; by cbn. Qed.

Lemma as_array_pyerr (w : World E) x msg : as_array w x ≠ Raise (StageError msg).
Proof. unfold as_array. destruct x; try done. by destruct (heap w !! l). Qed.

Lemma shape3_pyerr (a : ndarray E) msg : shape3 a ≠ Raise (StageError msg).
Proof. unfold shape3. by destruct (nd_shape a) as [|? [|? [|? [|]]]]. Qed.

Lemma insert_zero_band_pyerr idx (a : ndarray E) msg :
  insert_zero_band idx a ≠ Raise (StageError msg).
Proof.
  unfold insert_zero_band. destruct (nd_shape a) as [|? [|? [|? [|]]]]; try done.
  by case_bool_decide.
Qed.

Lemma assign_band_pyerr idx (al a : ndarray E) msg :
  assign_band idx al a ≠ Raise (StageError msg).
Proof.
  unfold assign_band. destruct (nd_shape a) as [|? [|? [|? [|]]]]; try done.
  destruct (nd_shape al) as [|? [|? [|]]]; try done.
  case_bool_decide; [|done]. by destruct (_ ≫= _).
Qed.

(** X12.  On a raster Merge raises a [StageError] exactly when the
    raster is not three-dimensional with at least three bands; whatever
    else goes wrong in it (a missing context key, a band that cannot be
    assigned) is another exception. *)
Theorem Merge_stage_error_iff v bypass self prev (w : World E) p l a :
  get_data p prev = Ok (VArr l) →
  heap w !! l = Some a →
  (2 ≤ length (nd_shape a))%nat →
  is_stage_error (Merge_run v bypass self prev w p) = true ↔
    ¬ ∃ ht wd dp, nd_shape a = [ht; wd; dp] ∧ (3 ≤ dp)%nat.
Proof.
  intros Hd Hl Hr. unfold Merge_run. rewrite Hd. cbn.
  rewrite Hl. rewrite bool_decide_false by lia. cbn.
  destruct (nd_shape a) as [|ht [|wd [|dp [|]]]] eqn:Hs; cbn in Hr; try lia.
  - split; [|done]. intros _ (? & ? & ? & [=] & _).
  - case_bool_decide as Hdp.
    + split; [|done]. intros _ (? & ? & ? & [= <- <- <-] & ?). lia.
    + split.
      2:{ intros Hn. exfalso. apply Hn. exists ht, wd, dp. split; [done|lia]. }
      intros Hse. exfalso. revert Hse.
      match goal with |- ?x = true → False =>
        enough (x = false) as ->; [discriminate|] end.
      destruct (get_cvs_img p) as [ci|[msg|k]] eqn:H1; cbn; [|by destruct (get_cvs_img_pyerr _ _ H1)|done].
      destruct (get_qpair p "offset") as [[ox oy]|[msg|k]] eqn:H2; cbn; [|by destruct (get_qpair_pyerr _ _ _ H2)|done].
      destruct (get_arr_handle p "dstarr") as [d|[msg|k]] eqn:H3; cbn; [|by destruct (get_arr_handle_pyerr _ _ _ H3)|done].
      destruct (get_state p) as [st|[msg|k]] eqn:H4; cbn; [|by destruct (get_state_pyerr _ _ H4)|done].
      destruct (heap w !! d) as [dst|] eqn:H5; cbn; [|done].
      destruct (shape3 dst) as [[[h1 w1] d1]|[msg|k]] eqn:H6; cbn; [|by destruct (shape3_pyerr _ _ H6)|done].
      destruct (pipe_get p "alpha") as [alpha|[msg|k]] eqn:H7; cbn; [|by destruct (pipe_get_pyerr _ _ _ H7)|done].
      match goal with
      | |- is_stage_error (mbind _ ?m) = false =>
          assert (∀ msg, m ≠ Raise (StageError msg)) as Hm;
            [|destruct m as [[w2 rgbarr]|[msg|k]]; cbn;
              [|by destruct (Hm msg)|done]]
      end.
      { intros msg. destruct (str_index chr_A (order st)) as [a_idx|]; [|done].
        destruct (negb (is_None alpha)); [|done].
        case_bool_decide.
        - destruct (insert_zero_band a_idx a) as [ins|[m1|k1]] eqn:H8; cbn;
            [|by destruct (insert_zero_band_pyerr _ _ _ H8)|done].
          destruct (alloc w ins) as [l2 w2] eqn:Hal. cbn.
          rewrite (alloc_lookup_new _ _ _ _ Hal). cbn.
          destruct (as_array _ alpha) as [al|[m2|k2]] eqn:H9; cbn;
            [|by destruct (as_array_pyerr _ _ _ H9)|done].
          destruct (assign_band _ _ _) as [new|[m3|k3]] eqn:H10; cbn;
            [done|by destruct (assign_band_pyerr _ _ _ _ H10)|done].
        - cbn. rewrite Hl. cbn.
          destruct (as_array _ alpha) as [al|[m2|k2]] eqn:H9; cbn;
            [|by destruct (as_array_pyerr _ _ _ H9)|done].
          destruct (assign_band _ _ _) as [new|[m3|k3]] eqn:H10; cbn;
            [done|by destruct (assign_band_pyerr _ _ _ _ H10)|done]. }
      destruct (as_array w2 rgbarr) as [rgb|[m2|k2]] eqn:H9; cbn;
        [|by destruct (as_array_pyerr _ _ _ H9)|done].
      destruct (heap w2 !! d); cbn; done.
  - split; [|done]. intros _ (? & ? & ? & [=] & _).
Qed.

End MiniStageFacts.

(** ** The alpha band from Reorder to Merge *)

Section BandFacts.
Context {E : Type} `{!NumpyElem E, !Trcalc E, !ColorLibs E}.
#[local] Arguments alloc : simpl never.
#[local] Arguments broadcast : simpl never.

Lemma broadcast_same {A} n (l : list A) : length l = n → broadcast n l = Some l.
Proof. intros Hl. unfold broadcast. by rewrite bool_decide_true. Qed.

Lemma last_band_pixel idx (px : list E) :
  length px = S idx → (λ x, [x]) <$> px !! idx = Some (drop idx px).
Proof.
  intros Hlen. destruct (lookup_lt_is_Some_2 px idx) as [x Hx]; [lia|].
  rewrite Hx. cbn. rewrite (drop_S _ _ _ Hx). by rewrite drop_ge by lia.
Qed.

Lemma take_band_rows idx (rows : list (list (list E))) :
  Forall (Forall (λ px, length px = S idx)) rows →
  mapM (mapM (λ px : list E, (λ x, [x]) <$> px !! idx)) rows
    = Some ((λ row : list (list E), drop idx <$> row) <$> rows).
Proof.
  intros Hrows. apply mapM_Some, Forall2_fmap_r, Forall_Forall2_diag.
  eapply Forall_impl; [exact Hrows|]. intros row Hrow. cbn.
  apply mapM_Some, Forall2_fmap_r, Forall_Forall2_diag.
  eapply Forall_impl; [exact Hrow|]. intros px Hpx. cbn.
  by apply last_band_pixel.
Qed.

Lemma reattach_pixel idx (px : list E) :
  length px = S idx →
  (λ x, <[idx := x]> (take idx (take idx px) ++ elem_zero :: drop idx (take idx px)))
    <$> drop idx px !! 0%nat = Some px.
Proof.
  intros Hlen. destruct (lookup_lt_is_Some_2 px idx) as [x Hx]; [lia|].
  rewrite (drop_S _ _ _ Hx). cbn. f_equal.
  rewrite take_take, Nat.min_id.
  rewrite (drop_ge (take idx px)) by (rewrite length_take; lia).
  rewrite insert_app_r_alt by (rewrite length_take; lia).
  rewrite length_take. replace (idx - idx `min` length px)%nat with 0%nat by lia.
  cbn. rewrite <- (take_drop idx px) at 2.
  rewrite (drop_S _ _ _ Hx). by rewrite (drop_ge px (S idx)) by lia.
Qed.

Lemma reattach_row idx (row : list (list E)) :
  Forall (λ px, length px = S idx) row →
  mapM (λ '(apx, px), (λ x : E, <[idx := x]> px) <$> (apx : list E) !! 0%nat)
       (zip (drop idx <$> row)
            ((λ px : list E, take idx px ++ elem_zero :: drop idx px)
               <$> (take idx <$> row)))
    = Some row.
Proof.
  induction 1 as [|px row Hpx _ IH]; [done|].
  cbn. rewrite (reattach_pixel idx px Hpx). cbn. rewrite IH. done.
Qed.

Lemma reattach_rows idx wd (rows : list (list (list E))) :
  Forall (λ row, length row = wd ∧ Forall (λ px, length px = S idx) row) rows →
  mapM (λ '(arow, row),
          arow ← broadcast wd arow;
          mapM (λ '(apx, px), (λ x : E, <[idx := x]> px) <$> (apx : list E) !! 0%nat)
               (zip arow row))
       (zip ((λ row : list (list E), drop idx <$> row) <$> rows)
            ((λ row : list (list E),
                (λ px : list E, take idx px ++ elem_zero :: drop idx px) <$> row)
               <$> ((λ row : list (list E), take idx <$> row) <$> rows)))
    = Some rows.
Proof.
  induction 1 as [|row rows [Hlen Hrow] _ IH]; [done|].
  cbn. rewrite broadcast_same by (by rewrite length_fmap).
  cbn. rewrite (reattach_row idx row Hrow). cbn. rewrite IH. done.
Qed.

(** Splitting the last band off and attaching it again, step by step. *)
Lemma alpha_split_parts (a : ndarray E) ht wd a_idx :
  wf_array a →
  nd_shape a = [ht; wd; S a_idx] →
  ∃ al rgb ins,
    take_band a_idx a = Ok al ∧
    bands_upto a_idx a = Ok rgb ∧
    nd_shape rgb = [ht; wd; a_idx] ∧
    insert_zero_band a_idx rgb = Ok ins ∧
    nd_dtype al = nd_dtype ins ∧
    assign_band a_idx al ins = Ok a.
Proof.
  intros Hwf Hs. destruct a as [dt sh rows]. cbn in Hs. subst sh.
  unfold wf_array in Hwf. cbn in Hwf. destruct Hwf as [Hht Hrows].
  assert (Forall (Forall (λ px : list E, length px = S a_idx)) rows) as Hpx.
  { eapply Forall_impl; [exact Hrows|]. by intros row [_ ?]. }
  eexists _, _, _.
  split. { unfold take_band. cbn. rewrite bool_decide_true by lia.
           by rewrite (take_band_rows a_idx rows Hpx). }
  split. { unfold bands_upto. cbn. reflexivity. }
  split. { cbn. f_equal. f_equal. f_equal. lia. }
  split. { unfold insert_zero_band. cbn. rewrite bool_decide_true by lia.
           reflexivity. }
  split; [reflexivity|].
  unfold assign_band. cbn.
  replace (a_idx `min` S a_idx)%nat with a_idx by lia.
  rewrite bool_decide_true by lia.
  rewrite broadcast_same by (by rewrite length_fmap).
  cbn. by rewrite (reattach_rows a_idx wd rows Hrows).
Qed.

(** X13.  Splitting the alpha band off and attaching it again gives the
    raster back.  For a well-formed raster whose last band is the alpha
    band, the band taken as Reorder takes it ([data[..., a_idx]]),
    assigned as Merge assigns it ([rgbarr[..., a_idx] = alpha]) into the
    remaining bands ([data[..., 0:a_idx]]) with an empty band inserted
    at [a_idx], yields the raster itself, contents, shape and dtype. *)
Theorem alpha_split_reattach (a : ndarray E) ht wd a_idx :
  wf_array a →
  nd_shape a = [ht; wd; S a_idx] →
  ∃ al rgb ins,
    take_band a_idx a = Ok al ∧
    bands_upto a_idx a = Ok rgb ∧
    nd_shape rgb = [ht; wd; a_idx] ∧
    insert_zero_band a_idx rgb = Ok ins ∧
    assign_band a_idx al ins = Ok a.
Proof.
  intros Hwf Hs.
  destruct (alpha_split_parts a ht wd a_idx Hwf Hs)
    as (al & rgb & ins & Hal & Hrgb & Hsh & Hins & _ & Hre).
  by exists al, rgb, ins.
Qed.

(** Reorder on a four-band raster whose alpha band is the last one. *)
Lemma Reorder_run_splits v bypass self prev (w : World E) p l a ht wd ci image st
    al rgb :
  get_data p prev = Ok (VArr l) →
  heap w !! l = Some a →
  nd_shape a = [ht; wd; 4%nat] →
  get_cvs_img p = Ok ci →
  ci_image ci = Some image →
  get_state p = Ok st →
  img_order image = order st →
  str_index chr_A (order st) = Some 3%nat →
  take_band 3 a = Ok al →
  bands_upto 3 a = Ok rgb →
  nd_shape rgb = [ht; wd; 3%nat] →
  ∃ la w1 ld w2,
    alloc w al = (la, w1) ∧ alloc w1 rgb = (ld, w2) ∧
    Reorder_run v bypass self prev w p =
      Ok (w2, send (pipe_set p "alpha" (VArr la)) self (VArr ld)).
Proof.
  intros Hd Hl Hs Hci Him Hst Hord HA Hal Hrgb Hrs.
  unfold Reorder_run. rewrite Hd. cbn. rewrite Hl, Hs. cbn.
  rewrite Hci. cbn. rewrite Hst. cbn. rewrite Him. cbn.
  rewrite Hord.
  rewrite (bool_decide_false (order st ≠ order st)) by (intros Hn; by apply Hn).
  rewrite andb_false_r. cbn. rewrite HA. cbn. rewrite Hl. cbn.
  rewrite Hal. cbn.
  destruct (alloc w al) as [la w1] eqn:Hala.
  rewrite Hrgb. cbn. rewrite Hrs.
  replace (NDArray (nd_dtype rgb) [ht; wd; 3%nat] (nd_px rgb)) with rgb
    by (destruct rgb; cbn in *; by subst).
  destruct (alloc w1 rgb) as [ld w2] eqn:Hald.
  by exists la, w1, ld, w2.
Qed.

(** Merge on the three bands Reorder left, with the alpha band in the
    context. *)
Lemma Merge_run_reattaches_eq v bypass self prev (w : World E) p ld rgb ht wd
    la al ins a ci st ox oy dstl dst dh dw dd li w3 :
  get_data p prev = Ok (VArr ld) →
  heap w !! ld = Some rgb →
  nd_shape rgb = [ht; wd; 3%nat] →
  get_cvs_img p = Ok ci →
  get_qpair p "offset" = Ok (ox, oy) →
  get_arr_handle p "dstarr" = Ok dstl →
  get_state p = Ok st →
  heap w !! dstl = Some dst →
  nd_shape dst = [dh; dw; dd] →
  pipe_get p "alpha" = Ok (VArr la) →
  heap w !! la = Some al →
  str_index chr_A (order st) = Some 3%nat →
  insert_zero_band 3 rgb = Ok ins →
  array_convert al (nd_dtype ins) = al →
  assign_band 3 al ins = Ok a →
  alloc w ins = (li, w3) →
  Merge_run v bypass self prev w p =
    Ok (set_drawn
          (store (store w3 li a) dstl
             (overlay_image dst
                (np_round (inject_Z (Z.of_nat dw) * (1 # 2) + ox)%Q,
                 np_round (inject_Z (Z.of_nat dh) * (1 # 2) + oy)%Q)
                a (order st) (order st) (ci_alpha ci)))
          ci true, p).
Proof.
  intros Hd Hld Hrs Hci Hoff Hdst Hst Hdl Hds Halpha Hla HA Hins Hconv Hre Hali.
  unfold Merge_run. rewrite Hd. cbn. rewrite Hld, Hrs. cbn. rewrite Hrs. cbn.
  rewrite Hci. cbn. rewrite Hoff. cbn. rewrite Hdst. cbn. rewrite Hst. cbn.
  rewrite Hdl. cbn. unfold shape3. rewrite Hds. cbn.
  rewrite Halpha. cbn. rewrite HA. cbn. rewrite Hins. cbn.
  rewrite Hali. cbn.
  rewrite (bool_decide_false (3 < 2)%nat) by lia.
  rewrite (bool_decide_false (3 < 3)%nat) by lia.
  rewrite (bool_decide_true (3 ≠ 4)%nat) by lia. cbn.
  rewrite (alloc_lookup_new _ _ _ _ Hali). cbn.
  rewrite (alloc_lookup_old _ _ _ _ _ _ Hali Hla). cbn.
  rewrite Hconv, Hre. cbn.
  rewrite lookup_insert_eq. cbn.
  destruct (alloc_spec _ _ _ _ Hali) as (Hfresh & _ & _).
  assert (li ≠ dstl) as Hne1 by congruence.
  rewrite lookup_insert_ne by done.
  rewrite (alloc_lookup_old _ _ _ _ _ _ Hali Hdl). cbn. done.
Qed.

Lemma Merge_run_reattaches v bypass self prev (w : World E) p ld rgb ht wd la al
    ins a ci st ox oy dstl dst dh dw dd :
  get_data p prev = Ok (VArr ld) →
  heap w !! ld = Some rgb →
  nd_shape rgb = [ht; wd; 3%nat] →
  get_cvs_img p = Ok ci →
  get_qpair p "offset" = Ok (ox, oy) →
  get_arr_handle p "dstarr" = Ok dstl →
  get_state p = Ok st →
  heap w !! dstl = Some dst →
  nd_shape dst = [dh; dw; dd] →
  pipe_get p "alpha" = Ok (VArr la) →
  heap w !! la = Some al →
  str_index chr_A (order st) = Some 3%nat →
  insert_zero_band 3 rgb = Ok ins →
  array_convert al (nd_dtype ins) = al →
  assign_band 3 al ins = Ok a →
  ∃ w',
    Merge_run v bypass self prev w p = Ok (w', p) ∧
    heap w' !! dstl =
      Some (overlay_image dst
              (np_round (inject_Z (Z.of_nat dw) * (1 # 2) + ox)%Q,
               np_round (inject_Z (Z.of_nat dh) * (1 # 2) + oy)%Q)
              a (order st) (order st) (ci_alpha ci)) ∧
    drawn (get_cache w' ci) = true ∧
    (∀ l0 x, heap w !! l0 = Some x → l0 ≠ dstl → heap w' !! l0 = Some x).
Proof.
  intros Hd Hld Hrs Hci Hoff Hdst Hst Hdl Hds Halpha Hla HA Hins Hconv Hre.
  destruct (alloc w ins) as [li w3] eqn:Hali.
  eexists. split.
  { by eapply Merge_run_reattaches_eq. }
  split. { cbn. by rewrite lookup_insert_eq. }
  split. { unfold get_cache, set_drawn, put_cache. cbn. by rewrite lookup_insert_eq. }
  intros l0 x Hl0 Hne. cbn. rewrite lookup_insert_ne by done.
  destruct (alloc_spec _ _ _ _ Hali) as (Hfresh & _ & _).
  assert (li ≠ l0) as Hne2 by congruence.
  rewrite lookup_insert_ne by done.
  exact (alloc_lookup_old _ _ _ _ _ _ Hali Hl0).
Qed.

(** X14.  Reorder followed by Merge composites the raster Reorder
    received.  For an image in the pipeline's channel order whose fourth
    band is the alpha band, Reorder splits that band off and Merge
    attaches it again before compositing, so what is overlaid on the
    destination, at the centre of the destination plus the recorded
    offset rounded to the nearest pixel, is the four-band raster as it
    came from Scale; the object is marked drawn, and the raster itself
    is unchanged unless it is the destination.  The conversion of the
    alpha band to the raster's dtype is taken to change nothing when the
    band has that dtype already. *)
Theorem Reorder_Merge_restores_alpha v b1 b2 self self' prev (w : World E) p
    l a ht wd ci image st ox oy dstl dst dh dw dd :
  get_data p prev = Ok (VArr l) →
  heap w !! l = Some a →
  wf_array a →
  nd_shape a = [ht; wd; 4%nat] →
  get_cvs_img p = Ok ci →
  ci_image ci = Some image →
  get_state p = Ok st →
  img_order image = order st →
  str_index chr_A (order st) = Some 3%nat →
  get_qpair p "offset" = Ok (ox, oy) →
  get_arr_handle p "dstarr" = Ok dstl →
  heap w !! dstl = Some dst →
  nd_shape dst = [dh; dw; dd] →
  (∀ x : ndarray E, array_convert x (nd_dtype x) = x) →
  ∃ w1 p1 w2,
    Reorder_run v b1 self prev w p = Ok (w1, p1) ∧
    Merge_run v b2 self' (Some self) w1 p1 = Ok (w2, p1) ∧
    heap w2 !! dstl =
      Some (overlay_image dst
              (np_round (inject_Z (Z.of_nat dw) * (1 # 2) + ox)%Q,
               np_round (inject_Z (Z.of_nat dh) * (1 # 2) + oy)%Q)
              a (order st) (order st) (ci_alpha ci)) ∧
    drawn (get_cache w2 ci) = true ∧
    (dstl ≠ l → heap w2 !! l = Some a).
Proof.
  intros Hd Hl Hwf Hs Hci Him Hst Hord HA Hoff Hdst Hdl Hds Hconv.
  destruct (alpha_split_parts a ht wd 3 Hwf Hs)
    as (al & rgb & ins & Hal & Hrgb & Hrs & Hins & Hdt & Hre).
  destruct (Reorder_run_splits v b1 self prev w p l a ht wd ci image st al rgb
              Hd Hl Hs Hci Him Hst Hord HA Hal Hrgb Hrs)
    as (la & w1 & ld & w2 & Hala & Hald & Hrun1).
  set (p1 := send (pipe_set p "alpha" (VArr la)) self (VArr ld)) in *.
  pose proof (alloc_lookup_new _ _ _ _ Hald) as Hld.
  pose proof (alloc_lookup_old _ _ _ _ _ _ Hald (alloc_lookup_new _ _ _ _ Hala)) as Hla.
  pose proof (alloc_lookup_old _ _ _ _ _ _ Hald
                (alloc_lookup_old _ _ _ _ _ _ Hala Hdl)) as Hdl2.
  pose proof (alloc_lookup_old _ _ _ _ _ _ Hald
                (alloc_lookup_old _ _ _ _ _ _ Hala Hl)) as Hl2.
  assert (get_cvs_img p1 = Ok ci) as Hci1.
  { revert Hci. unfold get_cvs_img, pipe_get. cbn. by rewrite lookup_insert_ne. }
  assert (get_qpair p1 "offset" = Ok (ox, oy)) as Hoff1.
  { revert Hoff. unfold get_qpair, pipe_get. cbn. by rewrite lookup_insert_ne. }
  assert (get_arr_handle p1 "dstarr" = Ok dstl) as Hdst1.
  { revert Hdst. unfold get_arr_handle, pipe_get. cbn. by rewrite lookup_insert_ne. }
  assert (get_state p1 = Ok st) as Hst1.
  { revert Hst. unfold get_state, pipe_get. cbn. by rewrite lookup_insert_ne. }
  assert (pipe_get p1 "alpha" = Ok (VArr la)) as Halpha.
  { unfold pipe_get. cbn. by rewrite lookup_insert_eq. }
  assert (array_convert al (nd_dtype ins) = al) as Hconv1.
  { rewrite <- Hdt. apply Hconv. }
  destruct (Merge_run_reattaches v b2 self' (Some self) w2 p1 ld rgb ht wd la al
              ins a ci st ox oy dstl dst dh dw dd
              (get_data_send_eq _ _ _) Hld Hrs Hci1 Hoff1 Hdst1 Hst1 Hdl2 Hds
              Halpha Hla HA Hins Hconv1 Hre)
    as (w3 & Hrun2 & Hcomp & Hdrawn & Hframe).
  exists w2, p1, w3. split; [done|]. split; [done|]. split; [done|].
  split; [done|]. intros Hne. apply Hframe; [done|congruence].
Qed.

End BandFacts.

(** ** The interactive RGBMap stage: undo, persistence, resets, run *)

Section PersistFacts.
Import RGBMapStage RGBMapIO.
Variables (cmap_get_names imap_get_names : list string).
Variable float_str : Q → string.



Variable base_export : RGBMap → gmap string param.
Variable base_import : gmap string param → RGBMap → outcome RGBMap.

Lemma export_lookup s :
  export_as_dict base_export s !! "calg_name" = Some (PStr (_calg_name (params s))) ∧
  export_as_dict base_export s !! "cmap_name" = Some (PStr (_cmap_name (params s))) ∧
  export_as_dict base_export s !! "imap_name" = Some (PStr (_imap_name (params s))).
Proof.
  unfold export_as_dict, _get_state. repeat split.
  - apply lookup_union_Some_l. rewrite !lookup_insert_ne by done.
    apply lookup_singleton_eq.
  - apply lookup_union_Some_l. rewrite lookup_insert_ne by done.
    apply lookup_insert_eq.
  - apply lookup_union_Some_l. apply lookup_insert_eq.
Qed.

(** X16.  What [export_as_dict] writes, [import_from_dict] reads back:
    whatever the base class exports under the same names, a stage that
    imports the exported dictionary takes over the names of the
    distribution, the colour map and the intensity map of the exporting
    stage.  Nothing else is carried over: the inversion flag, the
    rotation, the contrast and the brightness of the importing stage
    stay as the base class left them. *)
Theorem export_import_round_trip s t t0 t' :
  base_import (export_as_dict base_export s) t = Ok t0 →
  import_from_dict base_import (export_as_dict base_export s) t = Ok t' →
  _calg_name (params t') = _calg_name (params s) ∧
  _cmap_name (params t') = _cmap_name (params s) ∧
  _imap_name (params t') = _imap_name (params s) ∧
  _invert_cmap (params t') = _invert_cmap (params t0) ∧
  _rotate_cmap_pct (params t') = _rotate_cmap_pct (params t0) ∧
  _contrast (params t') = _contrast (params t0) ∧
  _brightness (params t') = _brightness (params t0).
Proof.
  intros Hbase. unfold import_from_dict. rewrite Hbase. cbn.
  destruct (export_lookup s) as (Hc & Hm & Hi).
  unfold dict_item. rewrite Hc, Hm, Hi. cbn [mbind outcome_bind].
  change (set_property "calg_name" (PStr ?v) ?x) with (set_calg_name v x).
  destruct (set_calg_name _ t0) as [t1|] eqn:H1; [|discriminate].
  cbn [mbind outcome_bind].
  change (set_property "cmap_name" (PStr ?v) ?x) with (set_cmap_name v x).
  destruct (set_cmap_name _ t1) as [t2|] eqn:H2; [|discriminate].
  cbn [mbind outcome_bind].
  change (set_property "imap_name" (PStr ?v) ?x) with (set_imap_name v x).
  intros H3.
  apply set_calg_name_spec in H1 as [_ H1].
  apply set_cmap_name_spec in H2 as [_ H2].
  apply set_imap_name_spec in H3 as [_ H3].
  rewrite H3, H2, H1. cbn. done.
Qed.

(** X17.  The reset callbacks restore what [__init__] set.  After
    [set_default_cmaps], [set_default_distmaps], [unrotate_cmap_cb],
    [restore_contrast_cb] and [restore_brightness_cb] the names of the
    distribution, the colour map and the intensity map, the rotation,
    the contrast and the brightness have the values of a new stage; the
    inversion flag, which no callback resets, is as it was. *)
Theorem resets_restore_defaults s pl s1 pl1 s2 pl2 s3 pl3 s4 pl4 s5 pl5 :
  set_default_cmaps s pl = Ok (s1, pl1) →
  set_default_distmaps s1 pl1 = Ok (s2, pl2) →
  unrotate_cmap_cb float_str s2 pl2 = Ok (s3, pl3) →
  restore_contrast_cb float_str s3 pl3 = Ok (s4, pl4) →
  restore_brightness_cb float_str s4 pl4 = Ok (s5, pl5) →
  _calg_name (params s5) = _calg_name init_params ∧
  _cmap_name (params s5) = _cmap_name init_params ∧
  _imap_name (params s5) = _imap_name init_params ∧
  (_rotate_cmap_pct (params s5) == _rotate_cmap_pct init_params)%Q ∧
  (_contrast (params s5) == _contrast init_params)%Q ∧
  (_brightness (params s5) == _brightness init_params)%Q ∧
  _invert_cmap (params s5) = _invert_cmap (params s).
Proof.
  unfold set_default_cmaps, set_default_distmaps, unrotate_cmap_cb,
    restore_contrast_cb, restore_brightness_cb, rotate_cmap_cb,
    contrast_set_cb, brightness_set_cb.
  intros H1 H2 H3 H4 H5.
  destruct (set_cmap_name "gray" s) as [sa|] eqn:Ha; [cbn in H1|discriminate].
  destruct (set_imap_name "ramp" sa) as [sb|] eqn:Hb; [cbn in H1|discriminate].
  injection H1 as <- <-.
  destruct (set_calg_name "linear" sb) as [sc|] eqn:Hc; [cbn in H2|discriminate].
  injection H2 as <- <-.
  destruct (set_rotate_cmap _ sc) as [sd|] eqn:Hd; [cbn in H3|discriminate].
  injection H3 as <- <-.
  destruct (set_contrast _ sd) as [se|] eqn:He; [cbn in H4|discriminate].
  injection H4 as <- <-.
  destruct (set_brightness _ se) as [sf|] eqn:Hf; [cbn in H5|discriminate].
  injection H5 as <- <-.
  apply set_cmap_name_spec in Ha as [_ Ha].
  apply set_imap_name_spec in Hb as [_ Hb].
  apply set_calg_name_spec in Hc as [_ Hc].
  apply set_rotate_cmap_spec in Hd as [_ Hd].
  apply set_contrast_spec in He as [_ He].
  apply set_brightness_spec in Hf as [_ Hf].
  rewrite Hf, He, Hd, Hc, Hb, Ha. cbn.
  repeat split; reflexivity.
Qed.

End PersistFacts.

Section InteractiveRunFacts.
Context {E : Type} `{!NumpyElem E, !ColorLibs E}.
#[local] Arguments alloc : simpl never.

(** X18.  The stage of the interactive pipeline checks its input
    before it looks at its bypass flag: bypassed, it publishes [None] or
    a raster of two or more dimensions as it received it, changing no
    buffer and needing no mapper (so also before [build_gui] has made
    one), but an input of fewer dimensions raises a [StageError] all the
    same. *)
Theorem RGBMapStage_run_bypassed mapper self prev (w : World E) p data :
  get_data p prev = Ok data →
  (data = VNone ∨
   (∃ l a, data = VArr l ∧ heap w !! l = Some a ∧ (2 ≤ length (nd_shape a))%nat) →
   RGBMapStage_run mapper true self prev w p = Ok (w, send p self data)) ∧
  (∀ l a, data = VArr l → heap w !! l = Some a →
          (length (nd_shape a) < 2)%nat →
          is_stage_error (RGBMapStage_run mapper true self prev w p) = true).
Proof.
  intros Hd. unfold RGBMapStage_run. rewrite Hd. cbn. split.
  - intros [->|(l & a & -> & Hl & Hr)]; [done|]. cbn. rewrite Hl.
    by rewrite bool_decide_false by lia.
  - intros l a -> Hl Hr. cbn. rewrite Hl. by rewrite bool_decide_true.
Qed.

End InteractiveRunFacts.

(** ** Rotation by an angle, and Cuts followed by RGBMap *)

Section MoreStageFacts.
Context {E : Type} `{!NumpyElem E, !Trcalc E, !ColorLibs E}.
#[local] Arguments alloc : simpl never.

(** X19.  When the requested rotation is not within tolerance of 0,
    Rotate rotates a copy: it publishes a new buffer holding the input
    rotated by [-rot_deg] (flipped vertically after that if the viewer's
    Y inversion is on) and leaves the input buffer as it was.  The
    anchor it records is [(ctr_x - xoff, ctr_y - (ht - yoff))] with [ht]
    the height of the rotated raster, not of the input. *)
Theorem Rotate_run_rotates_copy v self prev (w : World E) p l a ht wd rest
    xoff yoff st :
  isclose_zero (get_rotation v) = false →
  get_data p prev = Ok (VArr l) →
  heap w !! l = Some a →
  (2 ≤ length (nd_shape a))%nat →
  let rotated := rotate_clip a (Qopp (get_rotation v)) in
  nd_shape rotated = ht :: wd :: rest →
  get_pair p "off" = Ok (xoff, yoff) →
  get_state p = Ok st →
  ∃ w' l',
    Rotate_run v false self prev w p =
      Ok (w', send (pipe_set p "dst"
                      (VPair ((ctr st).1 - xoff)
                             ((ctr st).2 - (Z.of_nat ht - yoff))))
                   self (VArr l')) ∧
    heap w' !! l' = Some (if _invert_y v then flipud rotated else rotated) ∧
    heap w !! l' = None ∧
    heap w' !! l = Some a.
Proof.
  intros Hrot Hd Hl Hr rotated Hs Hoff Hst. unfold Rotate_run.
  rewrite Hd. cbn. rewrite Hl. rewrite bool_decide_false by lia. cbn.
  rewrite Hrot. cbn.
  destruct (ctr st) as [ctr_x ctr_y] eqn:Hctr.
  destruct (alloc w a) as [l1 w1] eqn:Ha. cbn.
  destruct (alloc_spec _ _ _ _ Ha) as (Hf1 & Hh1 & _).
  fold rotated.
  destruct (_invert_y v); cbn.
  - rewrite lookup_insert_eq. cbn.
    destruct (alloc _ (flipud _)) as [l2 w2] eqn:Ha2. cbn.
    rewrite (alloc_lookup_new _ _ _ _ Ha2). cbn. unfold shape2. cbn.
    rewrite Hs. cbn. rewrite Hoff. cbn. rewrite Hst. cbn. rewrite Hctr.
    destruct (alloc_spec _ _ _ _ Ha2) as (Hf2 & Hh2 & _).
    exists w2, l2. split; [done|].
    split; [exact (alloc_lookup_new _ _ _ _ Ha2)|].
    assert (l2 ≠ l1) as Hne.
    { intros ->. revert Hf2. unfold store. cbn. by rewrite lookup_insert_eq. }
    assert (l1 ≠ l) as Hne1 by congruence.
    split.
    + revert Hf2. unfold store. cbn. rewrite lookup_insert_ne by done.
      rewrite Hh1. destruct (decide (l1 = l2)) as [->|]; [done|].
      by rewrite lookup_insert_ne.
    + apply (alloc_lookup_old _ _ _ _ _ _ Ha2). unfold store. cbn.
      rewrite lookup_insert_ne by done.
      exact (alloc_lookup_old _ _ _ _ _ _ Ha Hl).
  - rewrite lookup_insert_eq. cbn. unfold shape2. rewrite Hs. cbn.
    rewrite Hoff. cbn. rewrite Hst. cbn. rewrite Hctr.
    eexists _, l1. split; [done|].
    split. { unfold store. cbn. by rewrite lookup_insert_eq. }
    split; [done|].
    assert (l1 ≠ l) as Hne1 by congruence.
    unfold store. cbn. rewrite lookup_insert_ne by done.
    exact (alloc_lookup_old _ _ _ _ _ _ Ha Hl).
Qed.

(** X20.  Cuts followed by RGBMap casts once.  On a raster whose cut
    has two or more dimensions both stages complete; what Cuts publishes
    is of the unsigned index type, so RGBMap hands that very array to
    the colour mapper without casting it again, and publishes the
    mapper's result for the pipeline's channel order in a new buffer,
    leaving the buffer of Cuts as it was. *)
Theorem Cuts_RGBMap_no_recast v b1 b2 self self' prev (w : World E) p l a ci st :
  get_data p prev = Ok (VArr l) →
  heap w !! l = Some a →
  (2 ≤ length (nd_shape a))%nat →
  get_cvs_img p = Ok ci →
  get_state p = Ok st →
  let rgbmap := default (get_rgbmap v) (ci_rgbmap ci) in
  let autocuts := default (viewer_autocuts v) (ci_autocuts ci) in
  let levels := default (viewer_cuts v) (ci_cuts ci) in
  let cut := cut_levels autocuts a levels.1 levels.2 0 (hash_size rgbmap - 1) in
  (2 ≤ length (nd_shape cut))%nat →
  ∃ w1 l1 out w2 l2,
    Cuts_run v b1 self prev w p = Ok (w1, send p self (VArr l1)) ∧
    heap w1 !! l1 = Some out ∧
    out = (if bool_decide (nd_dtype cut = uint64) then cut else astype uint64 cut) ∧
    RGBMap_run v b2 self' (Some self) w1 (send p self (VArr l1)) =
      Ok (w2, send (send p self (VArr l1)) self' (VArr l2)) ∧
    heap w2 !! l2 = Some (get_rgb_array rgbmap out (order st)) ∧
    heap w2 !! l1 = Some out.
Proof.
  intros Hd Hl Hr Hc Hst rgbmap autocuts levels cut Hrc.
  set (out := if negb (is_uint (nd_dtype cut)) then astype uint64 cut else cut).
  destruct (alloc w out) as [l1 w1] eqn:Ha1.
  pose proof (alloc_lookup_new _ _ _ _ Ha1) as Hl1.
  assert (nd_dtype out = uint64 ∧ nd_shape out = nd_shape cut) as [Hdt Hsh].
  { subst out. unfold is_uint. by case_bool_decide. }
  destruct (alloc w1 (get_rgb_array rgbmap out (order st))) as [l2 w2] eqn:Ha2.
  assert (Cuts_run v b1 self prev w p = Ok (w1, send p self (VArr l1))) as HCuts.
  { unfold Cuts_run. rewrite Hd. cbn. rewrite Hl.
    rewrite bool_decide_false by lia. cbn. rewrite Hc. cbn.
    fold rgbmap autocuts levels.
    destruct levels as [loval hival] eqn:Hlev. cbn in cut. fold cut. fold out.
    by rewrite Ha1. }
  assert (RGBMap_run v b2 self' (Some self) w1 (send p self (VArr l1)) =
            Ok (w2, send (send p self (VArr l1)) self' (VArr l2))) as HMap.
  { unfold RGBMap_run. rewrite get_data_send_eq. cbn.
    rewrite Hl1. rewrite Hsh. rewrite bool_decide_false by lia. cbn.
    change (get_cvs_img (send p self (VArr l1))) with (get_cvs_img p).
    change (get_state (send p self (VArr l1))) with (get_state p).
    rewrite Hc. cbn. rewrite Hst. cbn. fold rgbmap.
    unfold is_uint at 1. rewrite Hdt. rewrite bool_decide_true by done. cbn.
    by rewrite Ha2. }
  exists w1, l1, out, w2, l2. split; [done|]. split; [done|].
  split. { subst out. unfold is_uint. by case_bool_decide. }
  split; [done|].
  split; [exact (alloc_lookup_new _ _ _ _ Ha2)|].
  exact (alloc_lookup_old _ _ _ _ _ _ Ha2 Hl1).
Qed.

End MoreStageFacts.

(** ** What Merge leaves behind *)

Section MergeMore.
Context {E : Type} `{!NumpyElem E, !Trcalc E, !ColorLibs E}.
#[local] Arguments alloc : simpl never.
#[local] Arguments store : simpl never.
#[local] Arguments as_array : simpl never.
#[local] Arguments verify_2d : simpl never.
#[local] Arguments get_data : simpl never.
#[local] Arguments get_state : simpl never.
#[local] Arguments get_qpair : simpl never.
#[local] Arguments get_cvs_img : simpl never.
#[local] Arguments get_arr_handle : simpl never.
#[local] Arguments pipe_get : simpl never.
#[local] Arguments shape3 : simpl never.
#[local] Arguments insert_zero_band : simpl never.
#[local] Arguments assign_band : simpl never.
#[local] Arguments set_drawn : simpl never.

Lemma cache_after_drawn (w w1 : World E) ci :
  caches w1 = caches w →
  drawn (get_cache (set_drawn w1 ci true) ci) = true ∧
  visible (get_cache (set_drawn w1 ci true) ci) = visible (get_cache w ci) ∧
  minipipe (get_cache (set_drawn w1 ci true) ci) = minipipe (get_cache w ci) ∧
  ∀ id, id ≠ ci_id ci → caches (set_drawn w1 ci true) !! id = caches w !! id.
Proof.
  intros Hc. unfold get_cache, set_drawn, put_cache, get_cache. cbn.
  rewrite lookup_insert_eq, Hc. cbn. repeat split.
  intros id Hid. by rewrite lookup_insert_ne.
Qed.

(** X21.  Merge publishes nothing and marks the object drawn: a run of
    Merge on an input other than [None] that completes leaves the
    pipeline exactly as it was (no result is sent downstream), sets the
    [drawn] flag in the cache of the canvas image, and changes neither
    the visibility flag nor the mini-pipeline of that cache, nor the
    cache of any other object. *)
Theorem Merge_run_marks_drawn v bypass self prev (w w' : World E) p p' x :
  get_data p prev = Ok x →
  is_None x = false →
  Merge_run v bypass self prev w p = Ok (w', p') →
  p' = p ∧
  ∃ ci, get_cvs_img p = Ok ci ∧
        drawn (get_cache w' ci) = true ∧
        visible (get_cache w' ci) = visible (get_cache w ci) ∧
        minipipe (get_cache w' ci) = minipipe (get_cache w ci) ∧
        ∀ id, id ≠ ci_id ci → caches w' !! id = caches w !! id.
Proof.
  intros Hd Hnn. unfold Merge_run. rewrite Hd. cbn. rewrite Hnn. intros Hrun.
  steps; (split; [done|]); eexists; (split; [reflexivity|]);
    apply cache_after_drawn;
    repeat change (caches (store ?a _ _)) with (caches a).
  all: try reflexivity.
  all: match goal with
       | H : alloc _ _ = (_, ?w0) |- caches ?w0 = _ =>
           destruct (alloc_spec _ _ _ _ H) as (_ & _ & Hcc); exact Hcc
       | H : Ok (?w, _) = Ok (?w0, _) |- caches ?w0 = caches ?w =>
           by injection H as <- _
       end.
Qed.

End MergeMore.

(** * The stages run on concrete inputs *)

Import Sample.

(** Evaluate both sides. *)
Ltac run_eval := vm_compute; reflexivity.

(** C1, as the specification states it, fails: a 2x2 raster with a 2x2 window anchored
    at (-1, -1) passes both checks of Output, and the slice, clamped at
    the raster's edge, publishes a raster of 1x1. *)
Lemma Output_window_counterexample :
  ∃ w' p' out,
    Output_run viewer false 5 (Some 4%nat) (world_of [raster 2 2 3])
               (output_pipe (2, 2) "RGB" (-1, -1)) = Ok (w', p') ∧
    published w' p' 5 = Some out ∧
    ¬ dims_are out 2 2.
Proof.
  eexists _, _, _. split; [run_eval|]. split; [run_eval|].
  intros (ht & wd & rest & Hs & Hh & Hw). vm_compute in Hs.
  injection Hs as <- <- _. discriminate Hh.
Qed.

(** [Output_run_window] at a 4x4 RGB raster, a 2x2 window anchored at
    (-1, -1) and a renderer that wants BGRA. *)
Lemma Output_run_window_witness :
  ∃ w' p',
    Output_run viewer false 5 (Some 4%nat) (world_of [raster 4 4 3])
               (output_pipe (2, 2) "RGB" (-1, -1)) = Ok (w', p') ∧
    ∃ cut out,
      published w' p' 5 = Some out ∧
      dims_are out 2 2 ∧
      p_ctx p' !! "out_order" = Some (VStr "BGRA") ∧
      slice2 1 3 1 3 (raster 4 4 3) = Ok cut ∧
      reorder_image "BGRA" cut "RGB" = Ok out ∧
      nd_shape out = [2; 2; 4]%nat ∧
      (wf_array (raster 4 4 3) → wf_array out).
Proof.
  eexists _, _. split; [run_eval|].
  eapply (Output_run_window viewer 5 (Some 4%nat) (world_of [raster 4 4 3]) _
            (output_pipe (2, 2) "RGB" (-1, -1)) _ 0%nat (raster 4 4 3)
            (state (2, 2) "RGB") (-1) (-1) 4%nat 4%nat [3%nat]);
    first [run_eval | cbn; lia].
Defined.

(** [Output_stage_error_iff] at a 2x2 raster and a window 3 wide. *)
Lemma Output_stage_error_iff_witness :
  is_stage_error (Output_run viewer false 5 (Some 4%nat)
                    (world_of [raster 2 2 3])
                    (output_pipe (3, 2) "RGB" (0, 0))) = true ↔
    (Z.of_nat 2 < 3 ∨ Z.of_nat 2 < 2 ∨
     ∃ dst_x dst_y,
       get_pair (output_pipe (3, 2) "RGB" (0, 0)) "dst" = Ok (dst_x, dst_y) ∧
       (0 < dst_x ∨ 0 < dst_y)).
Proof.
  apply (Output_stage_error_iff viewer 5 (Some 4%nat) (world_of [raster 2 2 3])
           (output_pipe (3, 2) "RGB" (0, 0)) 0%nat (raster 2 2 3) 2%nat 2%nat
           [3%nat] (state (3, 2) "RGB")); run_eval.
Defined.

(** C4, as the specification states it, fails: for a window of 1x1 the canvas has side
    [int(sqrt 2 + 20) = 21], where the ceiling gives 22. *)
Lemma CreateBg_side_counterexample :
  CreateBg_side 1 1 = 21 ∧ spec_canvas_side 1 1 = 22 ∧
  ∃ w' p' canvas,
    CreateBg_run viewer false 0 None (world_of []) (state_pipe (1, 1) "RGBA")
      = Ok (w', p') ∧
    published w' p' 0 = Some canvas ∧
    nd_shape canvas = [21; 21; 4]%nat.
Proof.
  split; [reflexivity|]. split; [reflexivity|].
  eexists _, _, _. split; [run_eval|]. split; run_eval.
Qed.

(** [CreateBg_run_canvas] at a window of 3x4 and the order RGBA. *)
Lemma CreateBg_run_canvas_witness :
  ∃ w' p',
    CreateBg_run viewer false 0 None (world_of []) (state_pipe (3, 4) "RGBA")
      = Ok (w', p') ∧
    published w' p' 0 =
      Some (NDArray uint8 [25; 25; 4]%nat
              (replicate 25 (replicate 25 [0; 127; 255; 255]))) ∧
    (25 - 20) * (25 - 20) ≤ 3 ^ 2 + 4 ^ 2 < (25 - 20 + 1) * (25 - 20 + 1).
Proof.
  destruct (CreateBg_run_canvas viewer 0 (world_of []) (state_pipe (3, 4) "RGBA")
              (state (3, 4) "RGBA") [0; 127; 255; 255])
    as (w' & p' & Hrun & Hpub & _ & _ & Hside & _); [run_eval|run_eval|].
  exists w', p'. split; [exact Hrun|]. split; [exact Hpub|exact Hside].
Defined.

(** C5, as the specification states it, fails: with a rotation of 0 and the viewer's Y
    inversion on, Rotate publishes the raster with its two rows
    exchanged. *)
Lemma Rotate_zero_counterexample :
  isclose_zero (get_rotation (with_rotation viewer 0 true)) = true ∧
  ∃ w' p' out,
    Rotate_run (with_rotation viewer 0 true) false 4 (Some 3%nat)
               (world_of [raster 2 1 3]) (rotate_pipe (2, 2) "RGB" (0, 0))
      = Ok (w', p') ∧
    published w' p' 4 = Some out ∧
    out ≠ raster 2 1 3.
Proof.
  split; [reflexivity|].
  eexists _, _, _. split; [run_eval|]. split; [run_eval|]. discriminate.
Qed.

(** [Rotate_zero_identity] at a rotation of 1e-9 degrees, Y inversion
    off. *)
Lemma Rotate_zero_identity_witness :
  ∃ w' p',
    Rotate_run (with_rotation viewer (1 # 1000000000) false) false 4 (Some 3%nat)
               (world_of [raster 2 1 3]) (rotate_pipe (2, 2) "RGB" (0, 0))
      = Ok (w', p') ∧
    published w' p' 4 = Some (raster 2 1 3) ∧
    (negb false && false = false →
       w' = world_of [raster 2 1 3] ∧ p_result p' !! 4%nat = Some (VArr 0%nat)).
Proof.
  apply (Rotate_zero_identity (with_rotation viewer (1 # 1000000000) false)
           false 4 (Some 3%nat) (world_of [raster 2 1 3])
           (rotate_pipe (2, 2) "RGB" (0, 0)) 0%nat (raster 2 1 3)
           2%nat 1%nat [3%nat] 0 0 (state (2, 2) "RGB")); run_eval.
Defined.



(** C3, as the specification states it, fails: Merge, given a four-band raster and a
    split-off alpha band, writes the alpha band into the raster its
    predecessor published. *)
Lemma Merge_overwrites_input :
  get_data merge_pipe (Some 3%nat) = Ok (VArr 0%nat) ∧
  heap merge_world !! 0%nat = Some (raster 1 1 4) ∧
  ∃ w' p',
    Merge_run viewer false 4 (Some 3%nat) merge_world merge_pipe = Ok (w', p') ∧
    heap w' !! 0%nat = Some (NDArray uint8 [1; 1; 4]%nat [[[0; 1; 2; 200]]]) ∧
    heap w' !! 0%nat ≠ heap merge_world !! 0%nat.
Proof.
  split; [reflexivity|]. split; [reflexivity|].
  eexists _, _. split; [run_eval|]. split; [run_eval|].
  vm_compute. discriminate.
Qed.

(** [stage_input_unchanged] at the same run of Merge. *)
Lemma stage_input_unchanged_witness :
  ∃ w' p',
    run_stage viewer (mkStage KMerge false) 4 (Some 3%nat) merge_world merge_pipe
      = Ok (w', p') ∧
    (heap w' !! 0%nat = Some (raster 1 1 4) ∨
     (KMerge = KMerge ∧
      ∃ st a_idx la al new ht wd,
        get_state merge_pipe = Ok st ∧
        str_index chr_A (order st) = Some a_idx ∧
        nd_shape (raster 1 1 4) = [ht; wd; 4%nat] ∧
        p_ctx merge_pipe !! "alpha" = Some (VArr la) ∧
        heap merge_world !! la = Some al ∧
        assign_band a_idx (array_convert al (nd_dtype (raster 1 1 4)))
                    (raster 1 1 4) = Ok new ∧
        heap w' !! 0%nat = Some new)).
Proof.
  eexists _, _. split; [run_eval|].
  eapply (stage_input_unchanged viewer (mkStage KMerge false) 4 (Some 3%nat)
           merge_world _ merge_pipe _ 0%nat (raster 1 1 4)).
  - reflexivity.
  - reflexivity.
  - intros _. vm_compute. discriminate.
  - intros Hk. discriminate Hk.
  - run_eval.
Defined.


(** [Scale_empty_intersection] at an image placed at (100, 100) while
    the viewer shows the rectangle from (0, 0) to (10, 10). *)
Lemma Scale_empty_intersection_witness :
  ∃ pipe,
    minipipe_setup image_stages (outer_pipe "RGBA" 1%nat) far_image 0 far_world
      = Ok pipe ∧
    let p1 := stop (send (clear_stop pipe) 0 VNone) in
    let w1 := commit (set_visible far_world far_image false) far_image p1 in
    mini_run_from viewer 0 far_world pipe
      = Ok (set_visible far_world far_image false, p1) ∧
    prepare_image viewer (outer_pipe "RGBA" 1%nat) far_image false 0 far_world
      = Ok w1 ∧
    visible (get_cache w1 far_image) = false ∧
    heap w1 = heap far_world ∧
    (∀ objs, _overlay_images viewer (outer_pipe "RGBA" 1%nat) 0
               (CompoundObj (ImageObj far_image false :: objs)) far_world =
             _overlay_images viewer (outer_pipe "RGBA" 1%nat) 0
               (CompoundObj objs) w1).
Proof.
  eexists. split; [run_eval|].
  edestruct (Scale_empty_intersection viewer (outer_pipe "RGBA" 1%nat) far_image
               false 0 far_world)
    as (_ & Hrun & Hprep & Hvis & _ & _ & Hheap & Hwalk).
  - vm_compute. discriminate.
  - run_eval.
  - reflexivity.
  - reflexivity.
  - reflexivity.
  - reflexivity.
  - run_eval.
  - left. vm_compute. discriminate.
  - cbv zeta. repeat split; assumption.
Defined.

(** [None_flows_through_minipipe] at an imageless canvas object. *)
Lemma None_flows_through_minipipe_witness :
  Reorder_run viewer false 1 (Some 0%nat) far_world (mini_pipe imageless "RGBA" [] [])
    = Ok (far_world, send (mini_pipe imageless "RGBA" [] []) 1 VNone) ∧
  Merge_run viewer false 4 (Some 3%nat) far_world (mini_pipe imageless "RGBA" [] [])
    = Ok (far_world, mini_pipe imageless "RGBA" [] []) ∧
  (∃ pipe', mini_run_from viewer 0 far_world (mini_pipe imageless "RGBA" [] [])
              = Ok (far_world, pipe') ∧
            p_ctx pipe' = p_ctx (mini_pipe imageless "RGBA" [] [])).
Proof.
  destruct (None_flows_through_minipipe viewer far_world) as (Hstage & Hrun & _).
  split; [|split].
  - apply (Hstage false 1%nat (Some 0%nat) (mini_pipe imageless "RGBA" [] [])).
    reflexivity.
  - apply (Hstage false 4%nat (Some 3%nat) (mini_pipe imageless "RGBA" [] [])).
    reflexivity.
  - apply (Hrun (mini_pipe imageless "RGBA" [] []) imageless);
      [left; reflexivity|reflexivity|reflexivity].
Defined.

Section MutatorRuns.
Import RGBMapStage.

(** C9 fails on the code for the copy-from-viewer mutator:
    [copy_from_viewer_cb] changes the colour map of the stage's mapper
    from gray to rainbow and re-runs the pipeline, and the undo log is
    still empty afterwards; no action was pushed. *)
Lemma copy_from_viewer_cb_pushes_nothing :
  ∃ s' pl',
    invoke ["gray"; "rainbow"] ["ramp"; "equa"] float_str CopyFromViewer
           stage undo_log = Ok (s', pl') ∧
    (rgbmap stage ≫= (.!! "color_map")) = Some (PStr "gray") ∧
    (rgbmap s' ≫= (.!! "color_map")) = Some (PStr "rainbow") ∧
    actions pl' = [] ∧
    appended undo_log pl' = [EvRunFrom 0].
Proof.
  eexists _, _. split; [run_eval|]. repeat split; run_eval.
Qed.

(** On the same stage the colour-map mutator pushes its one action
    before the re-run. *)
Lemma set_cmap_cb_pushes_one_action :
  ∃ s' pl',
    invoke ["gray"; "rainbow"] ["ramp"; "equa"] float_str (SetCmap 1)
           stage undo_log = Ok (s', pl') ∧
    let act := mkStageAction 0 {["cmap_name" := PStr "gray"]}
                             {["cmap_name" := PStr "rainbow"]}
                             "rgbmap / change cmap" in
    actions pl' = [act] ∧
    appended undo_log pl' = [EvPush act; EvRunFrom 0].
Proof.
  eexists _, _. split; [run_eval|]. split; run_eval.
Qed.

End MutatorRuns.

(** ** Further runs on concrete inputs *)

(** [CreateBg_canvas_covers_window] at a 4x3 window: the side is 25. *)
Lemma CreateBg_canvas_covers_window_witness :
  ∃ w' p',
    CreateBg_run viewer false 0 None (world_of []) (state_pipe (4, 3) "RGBA")
      = Ok (w', p') ∧
    ∃ l a side,
      p_result p' !! 0%nat = Some (VArr l) ∧
      heap (world_of []) !! l = None ∧ heap w' !! l = Some a ∧
      nd_shape a = [Z.to_nat side; Z.to_nat side; 4%nat] ∧
      4 + 20 ≤ side ∧ 3 + 20 ≤ side ∧
      4 ^ 2 + 3 ^ 2 < (side - 19) ^ 2 ∧
      get_pair p' "org_dim" = Ok (side, side) ∧
      get_pair p' "org_off" = Ok (side `div` 2, side `div` 2).
Proof.
  eexists _, _. split; [run_eval|].
  eapply (CreateBg_canvas_covers_window viewer 0 (world_of []) _
            (state_pipe (4, 3) "RGBA") _ (state (4, 3) "RGBA")); run_eval.
Defined.

(** [FlipSwap_offset_in_bounds] at a 4x6 raster and the offset (3, 2). *)
Lemma FlipSwap_offset_in_bounds_witness :
  ∃ w' p' xoff' yoff',
    FlipSwap_run viewer false 3 (Some 2%nat) (world_of [raster 4 6 3])
      (pipe_with standard_stages [("org_off", VPair 3 2)] [(2%nat, VArr 0%nat)])
      = Ok (w', p') ∧
    get_pair p' "off" = Ok (xoff', yoff') ∧
    let swapped := negb false && (get_transforms viewer).2 in
    0 ≤ xoff' ≤ Z.of_nat (if swapped then 4 else 6)%nat ∧
    0 ≤ yoff' ≤ Z.of_nat (if swapped then 6 else 4)%nat ∧
    (false = true ∨ get_transforms viewer = (false, false, false) →
       (xoff', yoff') = (3, 2)).
Proof.
  eapply (FlipSwap_offset_in_bounds viewer false 3 (Some 2%nat)
            (world_of [raster 4 6 3])
            (pipe_with standard_stages [("org_off", VPair 3 2)]
                       [(2%nat, VArr 0%nat)])
            0%nat (raster 4 6 3) 4%nat 6%nat [3%nat] 3 2);
    first [run_eval | cbn; lia].
Defined.

(** [bypassed_stage_passes_through] at a bypassed Output. *)
Lemma bypassed_stage_passes_through_witness :
  ∃ w' p',
    run_stage viewer (mkStage KOutput true) 5 (Some 4%nat)
      (world_of [raster 4 4 3]) (output_pipe (2, 2) "RGB" (-1, -1)) = Ok (w', p') ∧
    ∃ x, get_data (output_pipe (2, 2) "RGB" (-1, -1)) (Some 4%nat) = Ok x ∧
         p_result p' !! 5%nat = Some x ∧
         w' = world_of [raster 4 4 3] ∧
         p_stages p' = p_stages (output_pipe (2, 2) "RGB" (-1, -1)) ∧
         p_stop p' = p_stop (output_pipe (2, 2) "RGB" (-1, -1)).
Proof.
  eexists _, _. split; [run_eval|].
  eapply (bypassed_stage_passes_through viewer (mkStage KOutput true) 5
            (Some 4%nat) (world_of [raster 4 4 3]) _
            (output_pipe (2, 2) "RGB" (-1, -1)) _); run_eval.
Defined.

(** [Overlays_overplot_rerun]: a full render, then a re-run at level 3. *)
Lemma Overlays_overplot_rerun_witness :
  ∃ w1 p1,
    Overlays_run viewer false 1 (Some 0%nat) (world_of [raster 2 2 3])
      (pipe_with standard_stages [("whence", VNum 0)] [(0%nat, VArr 0%nat)])
      = Ok (w1, p1) ∧
    let p2 := pipe_set p1 "whence" (VNum 3) in
    Overlays_run viewer false 1 (Some 0%nat) w1 p2 = Ok (w1, p2).
Proof.
  eexists _, _. split; [run_eval|].
  eapply (Overlays_overplot_rerun viewer false false 1 (Some 0%nat) (Some 0%nat)
            (world_of [raster 2 2 3]) _
            (pipe_with standard_stages [("whence", VNum 0)] [(0%nat, VArr 0%nat)])
            _ 3%Q); first [run_eval | unfold Qle; cbn; lia].
Defined.

(** [Overlays_copies_background] at a 2x2 background and an empty canvas. *)
Lemma Overlays_copies_background_witness :
  ∃ w' l',
    Overlays_run viewer false 1 (Some 0%nat) (world_of [raster 2 2 3])
      (pipe_with standard_stages [("whence", VNum 0)] [(0%nat, VArr 0%nat)])
      = Ok (w', send (pipe_set
                        (pipe_with standard_stages [("whence", VNum 0)]
                                   [(0%nat, VArr 0%nat)])
                        "dstarr" (VArr l')) 1 (VArr l')) ∧
    l' ≠ 0%nat ∧ heap (world_of [raster 2 2 3]) !! l' = None ∧
    heap w' !! l' = Some (raster 2 2 3) ∧ heap w' !! 0%nat = Some (raster 2 2 3) ∧
    caches w' = caches (world_of [raster 2 2 3]).
Proof.
  eapply (Overlays_copies_background viewer false 1 (Some 0%nat)
            (world_of [raster 2 2 3])
            (pipe_with standard_stages [("whence", VNum 0)] [(0%nat, VArr 0%nat)])
            0%Q 0%nat (raster 2 2 3));
    first [run_eval | cbn; lia].
Defined.

(** [standard_pipeline_window] at a 4x4 window centred at (2, 2): the
    run completes as well. *)
Lemma standard_pipeline_window_witness :
  let p := pipe_with standard_stages
             [("state", VState (mkState (4, 4) "RGBA" (2, 2)));
              ("whence", VNum 0)] [] in
  ∃ w' p',
    run_from viewer 0 (world_of []) p = Ok (w', p') ∧
    is_stage_error (run_from viewer 0 (world_of []) p) = false ∧
    ∀ w' p', run_from viewer 0 (world_of []) p = Ok (w', p') →
      ∃ out,
        published w' p' 5 = Some out ∧
        nd_shape out = [4; 4; 4]%nat ∧
        p_ctx p' !! "out_order" = Some (VStr "BGRA").
Proof.
  intros p. eexists _, _. split; [run_eval|].
  eapply (standard_pipeline_window viewer (world_of []) p
            (mkState (4, 4) "RGBA" (2, 2)) [0; 127; 255; 255] 0%Q);
    first [run_eval | cbn; lia | intros; reflexivity
          | vm_compute; discriminate].
Defined.

(** [ICCProf_run_total] with colour management on and a conversion that
    succeeds. *)
Lemma ICCProf_run_total_witness :
  let v := with_profiles viewer (Some "sRGB") (Some "monitor") in
  let p := pipe_with standard_stages [] [(1%nat, VArr 0%nat)] in
  ∃ w' l' profile,
    ICCProf_run v false 2 (Some 1%nat) (world_of [raster 2 2 3]) p =
      Ok (w', send (pipe_set p "icc_output_profile" profile) 2 (VArr l')) ∧
    heap w' !! 0%nat = Some (raster 2 2 3) ∧
    profile = VStr "monitor" ∧
    heap w' !! l' = Some (raster 2 2 3) ∧
    heap (world_of [raster 2 2 3]) !! l' = None.
Proof.
  intros v p.
  exact (ICCProf_run_total v false 2 (Some 1%nat) (world_of [raster 2 2 3]) p
           0%nat (raster 2 2 3) eq_refl eq_refl
           ltac:(cbn; lia)).
Defined.

(** [run_from_keeps_upstream] at a run from Output. *)
Lemma run_from_keeps_upstream_witness :
  ∃ w' p',
    run_from viewer 5 (world_of [raster 4 4 3]) (output_pipe (2, 2) "RGB" (-1, -1))
      = Ok (w', p') ∧
    p_stages p' = p_stages (output_pipe (2, 2) "RGB" (-1, -1)) ∧
    ∀ j, (j < 5)%nat →
         p_result p' !! j = p_result (output_pipe (2, 2) "RGB" (-1, -1)) !! j.
Proof.
  eexists _, _. split; [run_eval|].
  eapply (run_from_keeps_upstream viewer 5 (world_of [raster 4 4 3]) _
            (output_pipe (2, 2) "RGB" (-1, -1)) _); run_eval.
Defined.

(** [prepare_image_keeps_pipeline] at the first preparation of a plain
    image. *)
Lemma prepare_image_keeps_pipeline_witness :
  ∃ w',
    prepare_image viewer (outer_pipe "RGBA" 1%nat) near_image false 0
      (world_of [raster 2 2 3; raster 8 8 4]) = Ok w' ∧
    ∃ pipe',
      minipipe (get_cache w' near_image) = Some pipe' ∧
      p_stages pipe' = image_stages.
Proof.
  eexists. split; [run_eval|].
  eapply (prepare_image_keeps_pipeline viewer (outer_pipe "RGBA" 1%nat) near_image
            false 0 (world_of [raster 2 2 3; raster 8 8 4]) _); run_eval.
Defined.


(** [Cuts_run_publishes_uint] at a one-band uint8 raster. *)
Lemma Cuts_run_publishes_uint_witness :
  let p := mini_pipe entry_image "RGBA" [] [(1%nat, VArr 0%nat)] in
  let cut := cut_levels 0%nat (raster 2 2 1) 0 255 0 (256 - 1) in
  ∃ w' l' out,
    Cuts_run viewer false 2 (Some 1%nat) (world_of [raster 2 2 1]) p =
      Ok (w', send p 2 (VArr l')) ∧
    heap w' !! l' = Some out ∧
    nd_dtype out = uint64 ∧
    nd_shape out = nd_shape cut ∧
    (nd_dtype cut = uint64 → out = cut) ∧
    heap (world_of [raster 2 2 1]) !! l' = None ∧
    heap w' !! 0%nat = Some (raster 2 2 1).
Proof.
  intros p cut.
  eapply (Cuts_run_publishes_uint viewer false 2 (Some 1%nat)
            (world_of [raster 2 2 1]) p 0%nat (raster 2 2 1) entry_image);
    first [run_eval | cbn; lia].
Defined.

(** [Merge_stage_error_iff] at a two-dimensional band. *)
Lemma Merge_stage_error_iff_witness :
  is_stage_error
    (Merge_run viewer false 4 (Some 3%nat) (world_of [band 5; raster 2 2 4])
       (mini_pipe entry_image "RGBA" [("dstarr", VArr 1%nat)]
                  [(3%nat, VArr 0%nat)])) = true ↔
  ¬ ∃ ht wd dp, nd_shape (band 5) = [ht; wd; dp] ∧ (3 ≤ dp)%nat.
Proof.
  eapply (Merge_stage_error_iff viewer false 4 (Some 3%nat)
            (world_of [band 5; raster 2 2 4])
            (mini_pipe entry_image "RGBA" [("dstarr", VArr 1%nat)]
                       [(3%nat, VArr 0%nat)])
            0%nat (band 5)); first [run_eval | cbn; lia].
Defined.

(** [alpha_split_reattach] at a 2x2 raster of four bands. *)
Lemma alpha_split_reattach_witness :
  ∃ al rgb ins,
    take_band 3 (raster 2 2 4) = Ok al ∧
    bands_upto 3 (raster 2 2 4) = Ok rgb ∧
    nd_shape rgb = [2; 2; 3]%nat ∧
    insert_zero_band 3 rgb = Ok ins ∧
    assign_band 3 al ins = Ok (raster 2 2 4).
Proof.
  eapply (alpha_split_reattach (raster 2 2 4) 2 2 3).
  - cbn. repeat constructor.
  - reflexivity.
Defined.

(** [Reorder_Merge_restores_alpha] at a 2x2 RGBA image composited into
    a 4x4 destination. *)
Lemma Reorder_Merge_restores_alpha_witness :
  let w := world_of [raster 2 2 4; raster 4 4 4] in
  let p := image_pipe rgba_image "RGBA"
             [("offset", VQPair 0 0); ("dstarr", VArr 1%nat)]
             [(0%nat, VArr 0%nat)] in
  ∃ w1 p1 w2,
    Reorder_run viewer false 1 (Some 0%nat) w p = Ok (w1, p1) ∧
    Merge_run viewer false 2 (Some 1%nat) w1 p1 = Ok (w2, p1) ∧
    heap w2 !! 1%nat =
      Some (overlay_image (raster 4 4 4)
              (np_round (inject_Z (Z.of_nat 4) * (1 # 2) + 0)%Q,
               np_round (inject_Z (Z.of_nat 4) * (1 # 2) + 0)%Q)
              (raster 2 2 4) "RGBA" "RGBA" 1%Q) ∧
    drawn (get_cache w2 rgba_image) = true ∧
    (1%nat ≠ 0%nat → heap w2 !! 0%nat = Some (raster 2 2 4)).
Proof.
  intros w p.
  eapply (Reorder_Merge_restores_alpha viewer false false 1 2 (Some 0%nat) w p
            0%nat (raster 2 2 4) 2 2 rgba_image (mkImage 0%nat "RGBA" true)
            (state (4, 4) "RGBA") 0%Q 0%Q 1%nat (raster 4 4 4) 4 4 4);
    first [run_eval | by intros [] | cbn; by repeat constructor].
Defined.

Section PersistRuns.
Import RGBMapStage RGBMapIO.


(** [export_import_round_trip] from a stage with every parameter
    changed into a new one. *)
Lemma export_import_round_trip_witness :
  let base_export (s : RGBMap) : gmap string param :=
    {["bypass" := PBool false]} in
  let base_import (d : gmap string param) (s : RGBMap) := Ok s in
  ∃ t',
    import_from_dict base_import (export_as_dict base_export rainbow_stage) stage
      = Ok t' ∧
    _calg_name (params t') = "log" ∧
    _cmap_name (params t') = "rainbow" ∧
    _imap_name (params t') = "equa" ∧
    _invert_cmap (params t') = false ∧
    _rotate_cmap_pct (params t') = 0%Q ∧
    _contrast (params t') = (1 # 2)%Q ∧
    _brightness (params t') = (1 # 2)%Q.
Proof.
  intros base_export base_import. eexists. split; [run_eval|].
  eapply (export_import_round_trip base_export base_import rainbow_stage stage
            stage _); run_eval.
Defined.

(** [resets_restore_defaults] at a stage with every parameter changed. *)
Lemma resets_restore_defaults_witness :
  ∃ s1 pl1 s2 pl2 s3 pl3 s4 pl4 s5 pl5,
    set_default_cmaps rainbow_stage undo_log = Ok (s1, pl1) ∧
    set_default_distmaps s1 pl1 = Ok (s2, pl2) ∧
    unrotate_cmap_cb float_str s2 pl2 = Ok (s3, pl3) ∧
    restore_contrast_cb float_str s3 pl3 = Ok (s4, pl4) ∧
    restore_brightness_cb float_str s4 pl4 = Ok (s5, pl5) ∧
    _calg_name (params s5) = "linear" ∧
    _cmap_name (params s5) = "gray" ∧
    _imap_name (params s5) = "ramp" ∧
    (_rotate_cmap_pct (params s5) == 0)%Q ∧
    (_contrast (params s5) == 1 # 2)%Q ∧
    (_brightness (params s5) == 1 # 2)%Q ∧
    _invert_cmap (params s5) = true.
Proof.
  eexists _, _, _, _, _, _, _, _, _, _.
  split; [run_eval|]. split; [run_eval|]. split; [run_eval|].
  split; [run_eval|]. split; [run_eval|].
  eapply (resets_restore_defaults float_str rainbow_stage undo_log); run_eval.
Defined.

End PersistRuns.

(** [RGBMapStage_run_bypassed] at a bypassed stage without a mapper. *)
Lemma RGBMapStage_run_bypassed_witness :
  let p := pipe_with [mkStage KRGBMap true] [] [] in
  (VArr 0%nat = VNone ∨
   (∃ l a, VArr 0%nat = VArr l ∧ heap (world_of [raster 2 2 1]) !! l = Some a ∧
           (2 ≤ length (nd_shape a))%nat) →
   RGBMapStage_run None true 1 (Some 0%nat) (world_of [raster 2 2 1])
     (send p 0 (VArr 0%nat)) =
     Ok (world_of [raster 2 2 1], send (send p 0 (VArr 0%nat)) 1 (VArr 0%nat))) ∧
  (∀ l a, VArr 0%nat = VArr l → heap (world_of [raster 2 2 1]) !! l = Some a →
          (length (nd_shape a) < 2)%nat →
          is_stage_error
            (RGBMapStage_run None true 1 (Some 0%nat) (world_of [raster 2 2 1])
               (send p 0 (VArr 0%nat))) = true).
Proof.
  intros p.
  eapply (RGBMapStage_run_bypassed None 1 (Some 0%nat) (world_of [raster 2 2 1])
            (send p 0 (VArr 0%nat)) (VArr 0%nat)); run_eval.
Defined.

(** [Rotate_run_rotates_copy] at a rotation by 90 degrees of a 2x3
    raster, with the Y inversion on. *)
Lemma Rotate_run_rotates_copy_witness :
  let v := with_rotation viewer 90 true in
  let p := rotate_pipe (2, 2) "RGB" (1, 1) in
  let rotated := rotate_clip (raster 2 3 3) (Qopp 90) in
  ∃ w' l',
    Rotate_run v false 4 (Some 3%nat) (world_of [raster 2 3 3]) p =
      Ok (w', send (pipe_set p "dst" (VPair (0 - 1) (0 - (Z.of_nat 2 - 1))))
                   4 (VArr l')) ∧
    heap w' !! l' = Some (flipud rotated) ∧
    heap (world_of [raster 2 3 3]) !! l' = None ∧
    heap w' !! 0%nat = Some (raster 2 3 3).
Proof.
  intros v p rotated.
  eapply (Rotate_run_rotates_copy v 4 (Some 3%nat) (world_of [raster 2 3 3]) p
            0%nat (raster 2 3 3) 2%nat 3%nat [3%nat] 1 1 (state (2, 2) "RGB"));
    first [run_eval | cbn; lia].
Defined.

(** [Cuts_RGBMap_no_recast] at a one-band uint8 raster. *)
Lemma Cuts_RGBMap_no_recast_witness :
  let p := mini_pipe entry_image "RGBA" [] [(1%nat, VArr 0%nat)] in
  let w := world_of [raster 2 2 1] in
  let cut := cut_levels 0%nat (raster 2 2 1) 0 255 0 (256 - 1) in
  ∃ w1 l1 out w2 l2,
    Cuts_run viewer false 2 (Some 1%nat) w p = Ok (w1, send p 2 (VArr l1)) ∧
    heap w1 !! l1 = Some out ∧
    out = (if bool_decide (nd_dtype cut = uint64) then cut else astype uint64 cut) ∧
    RGBMap_run viewer false 3 (Some 2%nat) w1 (send p 2 (VArr l1)) =
      Ok (w2, send (send p 2 (VArr l1)) 3 (VArr l2)) ∧
    heap w2 !! l2 = Some (get_rgb_array (mkRGBMapper 0 256) out "RGBA") ∧
    heap w2 !! l1 = Some out.
Proof.
  intros p w cut.
  eapply (Cuts_RGBMap_no_recast viewer false false 2 3 (Some 1%nat) w p
            0%nat (raster 2 2 1) entry_image (state (4, 4) "RGBA"));
    first [run_eval | cbn; lia].
Defined.

(** [Merge_run_marks_drawn] at the composition of a four-band raster. *)
Lemma Merge_run_marks_drawn_witness :
  ∃ w' p',
    Merge_run viewer false 4 (Some 3%nat) merge_world merge_pipe = Ok (w', p') ∧
    p' = merge_pipe ∧
    ∃ ci, get_cvs_img merge_pipe = Ok ci ∧
          drawn (get_cache w' ci) = true ∧
          visible (get_cache w' ci) = visible (get_cache merge_world ci) ∧
          minipipe (get_cache w' ci) = minipipe (get_cache merge_world ci) ∧
          ∀ id, id ≠ ci_id ci → caches w' !! id = caches merge_world !! id.
Proof.
  eexists _, _. split; [run_eval|].
  eapply (Merge_run_marks_drawn viewer false 4 (Some 3%nat) merge_world _
            merge_pipe _ (VArr 0%nat)); run_eval.
Defined.
